(** * Behaviour-analysis engine of the agent evaluation framework

    A shallow embedding of the timeline builder, the task-type detector,
    the declared-behaviour evaluator and the evaluator runner, with the
    properties of the specification stated over it.

    Conventions of the embedding:
    - a JavaScript number that holds a time stamp or a count is an integer
      ([Z]); a score, or a bound given by a caller, is a finite double,
      given by its exact value ([Q]), and [+] and [/] on scores round to the
      nearest double;
    - a JavaScript string is a [string] of code units below 256;
    - an optional field is an [option]; the truthiness tests of the source
      ([x || y], [if (x)], [filter(Boolean)]) are written out;
    - [console.log] output is not part of the model. *)

From Stdlib Require Import List ZArith QArith Qround Qabs Qpower.
From Stdlib Require Import Bool String Ascii.
From Stdlib Require Import Lia Lqa ZifyBool Permutation Sorted DecimalString.
Import ListNotations.
Local Open Scope string_scope.
Local Open Scope Z_scope.

(* ================================================================== *)
(** * JavaScript built-ins used by the sources *)
(* ================================================================== *)

Module JS.

(** [x || y] on an optional number: [undefined] and [0] are falsy. *)
Definition truthy_num (x : option Z) : option Z :=
  match x with
  | Some n => if n =? 0 then None else Some n
  | None => None
  end.

(** [x || y] on an optional string: [undefined] and [''] are falsy. *)
Definition truthy_str (x : option string) : option string :=
  match x with
  | Some "" => None
  | Some s => Some s
  | None => None
  end.

Definition or_else {A} (x : option A) (y : A) : A :=
  match x with Some v => v | None => y end.

Definition or_opt {A} (x y : option A) : option A :=
  match x with Some v => Some v | None => y end.

(** [arr.includes(s)] on an array of strings. *)
Definition includes (arr : list string) (s : string) : bool :=
  existsb (String.eqb s) arr.

(** [[...new Set(arr)]]: the first occurrence of each string, in order. *)
Fixpoint unique_from (seen arr : list string) : list string :=
  match arr with
  | [] => []
  | s :: rest =>
      if includes seen s then unique_from seen rest
      else s :: unique_from (s :: seen) rest
  end.

Definition unique (arr : list string) : list string := unique_from [] arr.

(** [arr.join(sep)]. *)
Fixpoint join (sep : string) (arr : list string) : string :=
  match arr with
  | [] => ""
  | [s] => s
  | s :: rest => s ++ sep ++ join sep rest
  end.

(** [`${n}`] for an integer of fewer than 22 digits (a longer one is
    printed with an exponent). *)
Definition num_to_string (n : Z) : string :=
  NilZero.string_of_int (Z.to_int n).

(** [Array.prototype.sort(cmp)].  The language standard requires the sort
    to be stable, so for a consistent comparator the result is fixed: the
    elements in ascending order, equal ones in their original order.  It is
    embedded as a stable insertion sort: an element moves past exactly the
    elements that compare strictly below it. *)
Fixpoint sort_insert {A} (cmp : A -> A -> Z) (x : A) (l : list A) : list A :=
  match l with
  | [] => [x]
  | y :: l' =>
      if cmp x y <=? 0 then x :: y :: l' else y :: sort_insert cmp x l'
  end.

Definition Array_sort {A} (cmp : A -> A -> Z) (l : list A) : list A :=
  fold_right (sort_insert cmp) [] l.

(** [Math.round]: the nearest integer, a tie going up. *)
Definition Math_round (x : Q) : Z := Qfloor (x + (1 # 2))%Q.

(** Arithmetic on numbers that need not be integers.  A JavaScript number
    is an IEEE 754 double: 53 significant bits and an exponent from -1022
    to 1023.  A finite double is given here by its exact value, and an
    operation returns the exact result rounded to the nearest double, a tie
    going to the even significand.  [NaN], the infinities, a result beyond
    the largest double (about 1.8e308) and the sign of zero have no
    counterpart. *)

(** [floor (log2 |x|)] for [x] other than zero. *)
Definition exponent (x : Q) : Z :=
  let e := Z.log2 (Z.abs (Qnum x)) - Z.log2 (Zpos (Qden x)) in
  if Qle_bool (2 ^ e) (Qabs x) then e else e - 1.

(** The exponent of the unit in the last place of the doubles around [x]:
    52 below the exponent of [x], and never below that of the
    subnormals. *)
Definition quantum (x : Q) : Z := Z.max (exponent x) (-1022) - 52.

(** The nearest integer, a tie going to the even one. *)
Definition roundHalfEven (x : Q) : Z :=
  let f := Qfloor x in
  match (x - inject_Z f ?= 1 # 2)%Q with
  | Lt => f
  | Gt => f + 1
  | Eq => if Z.even f then f else f + 1
  end.

(** The double nearest to [x]. *)
Definition round64 (x : Q) : Q :=
  if Qeq_bool x 0 then 0%Q
  else
    let ulp := (2 ^ quantum x)%Q in
    Qred (inject_Z (roundHalfEven (x / ulp)) * ulp).

(** [x + y] and [x / y] on numbers. *)
Definition add (x y : Q) : Q := round64 (x + y).

Definition div (x y : Q) : Q := round64 (x / y).

(** [x < y] on numbers. *)
Definition lt (x y : Q) : bool := negb (Qle_bool y x).

(** An array holds at most [2^32 - 1] elements. *)
Definition maxArrayLength : Z := 4294967295.

(** The value of a string of decimal digits. *)
Fixpoint digits (s : string) (value : Z) : option Z :=
  match s with
  | EmptyString => Some value
  | String c rest =>
      let n := Z.of_nat (nat_of_ascii c) in
      if (48 <=? n) && (n <=? 57) then digits rest (10 * value + (n - 48))
      else None
  end.

(** A property key that is an array index: the canonical decimal form of an
    integer from 0 to [2^32 - 2].  An object lists such keys first, in
    ascending order. *)
Definition arrayIndex (key : string) : option Z :=
  match key with
  | EmptyString => None
  | _ =>
      match digits key 0 with
      | Some n =>
          if (n <? maxArrayLength) && String.eqb (num_to_string n) key
          then Some n else None
      | None => None
      end
  end.

(** [s.includes(sub)] on strings: [sub] starts at some position of [s]. *)
Fixpoint str_includes (s sub : string) : bool :=
  String.prefix sub s
  || match s with
     | EmptyString => false
     | String _ rest => str_includes rest sub
     end.

(** [s.split(sep)] for a separator of one code unit. *)
Fixpoint split (sep : ascii) (s : string) : list string :=
  match s with
  | EmptyString => [EmptyString]
  | String c rest =>
      if Ascii.eqb c sep then EmptyString :: split sep rest
      else match split sep rest with
           | piece :: pieces => String c piece :: pieces
           | [] => [String c EmptyString]
           end
  end.

End JS.

(* ================================================================== *)
(** * Data model ([types/index.ts]) *)
(* ================================================================== *)

Module SessionInfo.
Record t := mk {
  id : string;
  version : string;
  title : string;
  time_created : Z;
  time_updated : Z
}.
End SessionInfo.

Inductive Role := user | assistant.

Module Message.
Record t := mk {
  id : string;
  role : Role;
  sessionID : string;
  mode : option string;
  modelID : option string;
  providerID : option string;
  time_created : Z
}.
End Message.

Inductive PartType :=
  | text | tool | patch | reasoning | step_start | step_finish | file.

(** The fields of a part that the sources read. *)
Module Part.
Record Input := mkInput {
  filePath : option string;
  path : option string;
  command : option string
}.
Record State := mkState {
  status : option string;
  state_tool : option string;
  state_input : option Input
}.
Record t := mk {
  id : string;
  messageID : string;
  type : PartType;
  time_created : option Z;          (* [time?.created] *)
  tool_name : option string;        (* [tool] *)
  text_content : option string;     (* [text] *)
  state : option State;
  input : option Input
}.
End Part.

Module MessageWithParts.
Record t := mk {
  info : Message.t;
  parts : option (list Part.t)
}.
End MessageWithParts.

Inductive EventType :=
  | user_message | assistant_message | tool_call
  | ev_patch | ev_reasoning | ev_text.

(** [TimelineEvent.data] is untyped in the source.  The builder stores either
    the message bundle or the part itself. *)
Inductive EventData :=
  | MessageData (message : option Message.t) (parts : list Part.t)
                (text : option string) (tools : list string)
  | PartData (part : Part.t).

Module TimelineEvent.
Record t := mk {
  timestamp : Z;
  type : EventType;
  agent : option string;
  model : option string;
  messageId : option string;
  partId : option string;
  data : option EventData
}.
End TimelineEvent.

(** Property reads on [event.data]. *)
Definition data_tool (d : option EventData) : option string :=
  match d with
  | Some (PartData p) => Part.tool_name p
  | _ => None
  end.

Definition data_state_tool (d : option EventData) : option string :=
  match d with
  | Some (PartData p) =>
      match Part.state p with Some st => Part.state_tool st | None => None end
  | _ => None
  end.

Definition data_text (d : option EventData) : option string :=
  match d with
  | Some (MessageData _ _ t _) => t
  | Some (PartData p) => Part.text_content p
  | None => None
  end.

Definition data_state_input_filePath (d : option EventData) : option string :=
  match d with
  | Some (PartData p) =>
      match Part.state p with
      | Some st =>
          match Part.state_input st with
          | Some i => Part.filePath i
          | None => None
          end
      | None => None
      end
  | _ => None
  end.

Definition data_input_filePath (d : option EventData) : option string :=
  match d with
  | Some (PartData p) =>
      match Part.input p with Some i => Part.filePath i | None => None end
  | _ => None
  end.

Definition data_input_path (d : option EventData) : option string :=
  match d with
  | Some (PartData p) =>
      match Part.input p with Some i => Part.path i | None => None end
  | _ => None
  end.

Definition EventType_eqb (a b : EventType) : bool :=
  match a, b with
  | user_message, user_message | assistant_message, assistant_message
  | tool_call, tool_call | ev_patch, ev_patch
  | ev_reasoning, ev_reasoning | ev_text, ev_text => true
  | _, _ => false
  end.

(* ================================================================== *)
(** * TimelineBuilder ([collector/timeline-builder.ts]) *)
(* ================================================================== *)

(** [MessageParser] is imported by the builder; the builder only stores what
    it returns, so the parser is a parameter of the embedding. *)
Record MessageParser := mkParser {
  getAgent : Message.t -> option string;
  getModel : Message.t -> option string;   (* [getModel(m)?.modelID] *)
  extractTextFromParts : list Part.t -> string;
  getToolsUsed : list Part.t -> list string
}.

Module TimelineBuilder.

Definition createMessageEvent (parser : MessageParser)
    (message : Message.t) (parts : list Part.t) : TimelineEvent.t :=
  let agent := getAgent parser message in
  let model := getModel parser message in
  {| TimelineEvent.timestamp := Message.time_created message;
     TimelineEvent.type :=
       match Message.role message with
       | user => user_message
       | assistant => assistant_message
       end;
     TimelineEvent.agent := JS.truthy_str agent;
     TimelineEvent.model := model;
     TimelineEvent.messageId := Some (Message.id message);
     TimelineEvent.partId := None;
     TimelineEvent.data :=
       Some (MessageData (Some message) parts
               (Some (extractTextFromParts parser parts))
               (getToolsUsed parser parts)) |}.

Definition createPartEvent (parser : MessageParser)
    (part : Part.t) (message : Message.t) : option TimelineEvent.t :=
  let timestamp :=
    JS.or_else (JS.truthy_num (Part.time_created part))
               (Message.time_created message) in
  let agent := getAgent parser message in
  let model := getModel parser message in
  let ev (ty : EventType) :=
    Some {| TimelineEvent.timestamp := timestamp;
            TimelineEvent.type := ty;
            TimelineEvent.agent := JS.truthy_str agent;
            TimelineEvent.model := model;
            TimelineEvent.messageId := Some (Message.id message);
            TimelineEvent.partId := Some (Part.id part);
            TimelineEvent.data := Some (PartData part) |} in
  match Part.type part with
  | tool => ev tool_call
  | patch => ev ev_patch
  | reasoning => ev ev_reasoning
  | text => ev ev_text
  | _ => None
  end.

(** The inner loop of [buildTimeline]: the events of the parts of one
    message, in declaration order. *)
Fixpoint partEvents (parser : MessageParser)
    (parts : list Part.t) (message : Message.t) : list TimelineEvent.t :=
  match parts with
  | [] => []
  | part :: rest =>
      match createPartEvent parser part message with
      | Some partEvent => partEvent :: partEvents parser rest message
      | None => partEvents parser rest message
      end
  end.

Definition messageEvents (parser : MessageParser)
    (msgWithParts : MessageWithParts.t) : list TimelineEvent.t :=
  let message := MessageWithParts.info msgWithParts in
  let parts := JS.or_else (MessageWithParts.parts msgWithParts) [] in
  createMessageEvent parser message parts :: partEvents parser parts message.

(** The outer loop: [events] before the sort. *)
Definition collectEvents (parser : MessageParser)
    (messagesWithParts : list MessageWithParts.t) : list TimelineEvent.t :=
  flat_map (messageEvents parser) messagesWithParts.

Definition byTimestamp (a b : TimelineEvent.t) : Z :=
  TimelineEvent.timestamp a - TimelineEvent.timestamp b.

(** [buildTimeline] once the reader has returned the messages. *)
Definition timelineOf (parser : MessageParser)
    (messagesWithParts : list MessageWithParts.t) : list TimelineEvent.t :=
  JS.Array_sort byTimestamp (collectEvents parser messagesWithParts).

Definition filterByType (timeline : list TimelineEvent.t) (ty : EventType)
    : list TimelineEvent.t :=
  filter (fun event => EventType_eqb (TimelineEvent.type event) ty) timeline.

Definition getToolCalls (timeline : list TimelineEvent.t) :=
  filterByType timeline tool_call.

Definition getUserMessages (timeline : list TimelineEvent.t) :=
  filterByType timeline user_message.

Definition getAssistantMessages (timeline : list TimelineEvent.t) :=
  filterByType timeline assistant_message.

Definition getTextEvents (timeline : list TimelineEvent.t) :=
  filterByType timeline ev_text.

Definition filterByAgent (timeline : list TimelineEvent.t) (agent : string)
    : list TimelineEvent.t :=
  filter (fun event =>
            match TimelineEvent.agent event with
            | Some a => String.eqb a agent
            | None => false
            end)
         timeline.

(** The bounds of the three range queries are numbers of the caller, which
    need not be integers. *)
Definition getEventsInRange (timeline : list TimelineEvent.t)
    (start end_ : Q) : list TimelineEvent.t :=
  filter (fun event =>
            Qle_bool start (inject_Z (TimelineEvent.timestamp event))
            && Qle_bool (inject_Z (TimelineEvent.timestamp event)) end_)
         timeline.

Definition getEventsBefore (timeline : list TimelineEvent.t) (timestamp : Q)
    : list TimelineEvent.t :=
  filter (fun event =>
            JS.lt (inject_Z (TimelineEvent.timestamp event)) timestamp)
         timeline.

Definition getEventsAfter (timeline : list TimelineEvent.t) (timestamp : Q)
    : list TimelineEvent.t :=
  filter (fun event =>
            JS.lt timestamp (inject_Z (TimelineEvent.timestamp event)))
         timeline.

(** [events.length > 0 ? events[0] : null]. *)
Definition getFirstEventOfType (timeline : list TimelineEvent.t)
    (ty : EventType) : option TimelineEvent.t :=
  match filterByType timeline ty with
  | event :: _ => Some event
  | [] => None
  end.

(** [events[events.length - 1]] of a list. *)
Fixpoint lastOf {A} (events : list A) : option A :=
  match events with
  | [] => None
  | [event] => Some event
  | _ :: rest => lastOf rest
  end.

Definition getLastEventOfType (timeline : list TimelineEvent.t)
    (ty : EventType) : option TimelineEvent.t :=
  lastOf (filterByType timeline ty).

End TimelineBuilder.

(* ================================================================== *)
(** * SessionReader ([collector/session-reader.ts]) *)
(* ================================================================== *)

(** The two sources of session data are outside the engine.  A call to the
    SDK client either throws or returns a response whose [data] may be
    missing; the disk scan finds no file, a file that does not parse, or a
    session record. *)
Inductive SdkResponse (A : Type) :=
  | SdkThrows
  | SdkData (data : option A).
Arguments SdkThrows {A}.
Arguments SdkData {A} data.

Inductive DiskFile :=
  | NoSuchFile
  | Unparsable
  | Parsed (info : SessionInfo.t).

Record SdkClient := mkSdk {
  session_get : string -> SdkResponse SessionInfo.t;
  session_messages : string -> SdkResponse (list MessageWithParts.t)
}.

Module SessionReader.

Record t := mk {
  sdkClient : option SdkClient;
  findSessionFile : string -> DiskFile
}.

(** [getSessionInfo]: the SDK first, then the disk; every failure is caught
    and becomes [null]. *)
Definition getSessionInfo (reader : t) (sessionId : string)
    : option SessionInfo.t :=
  let disk :=
    match findSessionFile reader sessionId with
    | Parsed info => Some info
    | Unparsable => None
    | NoSuchFile => None
    end in
  match sdkClient reader with
  | Some client =>
      match session_get client sessionId with
      | SdkData (Some info) => Some info
      | SdkData None => disk
      | SdkThrows => disk
      end
  | None => disk
  end.

(** [getMessagesWithParts]: the SDK or nothing; [m.parts || []]. *)
Definition getMessagesWithParts (reader : t) (sessionId : string)
    : list MessageWithParts.t :=
  match sdkClient reader with
  | Some client =>
      match session_messages client sessionId with
      | SdkData (Some data) =>
          map (fun m =>
                 MessageWithParts.mk (MessageWithParts.info m)
                   (Some (JS.or_else (MessageWithParts.parts m) [])))
              data
      | SdkData None => []
      | SdkThrows => []
      end
  | None => []
  end.

End SessionReader.

(** [TimelineBuilder.buildTimeline(sessionId)]. *)
Definition buildTimeline (parser : MessageParser) (reader : SessionReader.t)
    (sessionId : string) : list TimelineEvent.t :=
  TimelineBuilder.timelineOf parser
    (SessionReader.getMessagesWithParts reader sessionId).

(* ================================================================== *)
(** * Regular expressions of the sources *)
(* ================================================================== *)

(** The patterns of the detector and of the evaluator use literals,
    alternation, an optional group, [\b], [\s+], [.*] and [$].  [test]
    answers whether some match exists, so the matcher returns every
    position a pattern can end at and the order of alternatives does not
    matter. *)
Module Regex.

Inductive t :=
  | Lit (s : string)
  | WordB                      (* \b *)
  | Spaces                     (* \s+ *)
  | DotStar                    (* .* *)
  | EndOfInput                 (* $ *)
  | Seq (r1 r2 : t)
  | Alt (r1 r2 : t)
  | Opt (r : t)
  | Never.

Definition code_unit (c : ascii) : N := N_of_ascii c.

Definition between (lo hi : N) (c : ascii) : bool :=
  ((lo <=? code_unit c) && (code_unit c <=? hi))%N.

(** [\w]. *)
Definition is_word (c : ascii) : bool :=
  between 97 122 c || between 65 90 c || between 48 57 c
  || (code_unit c =? 95)%N.

(** [\s] below 256. *)
Definition is_space (c : ascii) : bool :=
  between 9 13 c || (code_unit c =? 32)%N || (code_unit c =? 160)%N.

(** A line terminator, which [.] does not match. *)
Definition is_newline (c : ascii) : bool :=
  (code_unit c =? 10)%N || (code_unit c =? 13)%N.

(** [String.prototype.toLowerCase] on one code unit below 256. *)
Definition lower_char (c : ascii) : ascii :=
  if between 65 90 c || between 192 214 c || between 216 222 c
  then ascii_of_N (code_unit c + 32)
  else c.

Fixpoint toLowerCase (s : string) : string :=
  match s with
  | EmptyString => EmptyString
  | String c rest => String (lower_char c) (toLowerCase rest)
  end.

(** The [i] flag folds the ASCII letters only. *)
Definition fold_char (c : ascii) : ascii :=
  if between 65 90 c then ascii_of_N (code_unit c + 32) else c.

Definition char_eq (ci : bool) (a b : ascii) : bool :=
  if ci then Ascii.eqb (fold_char a) (fold_char b) else Ascii.eqb a b.

(** A position in the input: the code unit before it and what follows. *)
Definition pos : Type := option ascii * string.

Definition word_before (p : option ascii) : bool :=
  match p with Some c => is_word c | None => false end.

Definition word_after (s : string) : bool :=
  match s with String c _ => is_word c | EmptyString => false end.

Fixpoint lit (ci : bool) (l : string) (prev : option ascii) (s : string)
    : option pos :=
  match l with
  | EmptyString => Some (prev, s)
  | String a l' =>
      match s with
      | String c s' => if char_eq ci a c then lit ci l' (Some c) s' else None
      | EmptyString => None
      end
  end.

(** Every position after one or more white-space code units. *)
Fixpoint spaces (s : string) : list pos :=
  match s with
  | String c s' => if is_space c then (Some c, s') :: spaces s' else []
  | EmptyString => []
  end.

(** Every position after zero or more code units other than a line end. *)
Fixpoint dots (prev : option ascii) (s : string) : list pos :=
  (prev, s) ::
  match s with
  | String c s' => if is_newline c then [] else dots (Some c) s'
  | EmptyString => []
  end.

Fixpoint ends (ci : bool) (r : t) (prev : option ascii) (s : string)
    : list pos :=
  match r with
  | Lit l => match lit ci l prev s with Some p => [p] | None => [] end
  | WordB => if xorb (word_before prev) (word_after s) then [(prev, s)] else []
  | Spaces => spaces s
  | DotStar => dots prev s
  | EndOfInput => match s with EmptyString => [(prev, s)] | _ => [] end
  | Seq r1 r2 =>
      flat_map (fun p => ends ci r2 (fst p) (snd p)) (ends ci r1 prev s)
  | Alt r1 r2 => ends ci r1 prev s ++ ends ci r2 prev s
  | Opt r1 => (prev, s) :: ends ci r1 prev s
  | Never => []
  end.

Definition matches_at (ci : bool) (r : t) (prev : option ascii) (s : string)
    : bool :=
  match ends ci r prev s with [] => false | _ :: _ => true end.

(** A match may start at any position, the end of the input included. *)
Fixpoint search (ci : bool) (r : t) (prev : option ascii) (s : string)
    : bool :=
  matches_at ci r prev s ||
  match s with
  | String c s' => search ci r (Some c) s'
  | EmptyString => false
  end.

(** [/r/.test(s)] and [/r/i.test(s)]. *)
Definition test (ci : bool) (r : t) (s : string) : bool :=
  search ci r None s.

Definition alts (rs : list t) : t := fold_right Alt Never rs.

(** [(w1|w2|...)]. *)
Definition words (ws : list string) : t := alts (map Lit ws).

Fixpoint seqs (rs : list t) : t :=
  match rs with
  | [] => Lit ""
  | [r] => r
  | r :: rest => Seq r (seqs rest)
  end.

(** [\b(w1|w2|...)\b]. *)
Definition whole_word (ws : list string) : t :=
  seqs [WordB; words ws; WordB].

End Regex.

(* ================================================================== *)
(** * Task-type detector ([evaluators/task-type-detector.ts]) *)
(* ================================================================== *)

(** The labels [detectTaskType] returns and the applicability matrix is
    keyed by. *)
Inductive TaskType :=
  | create_new_file | modify_existing_file | delete_file | read_only
  | bash_only | delegation | conversational | code | docs | tests
  | review | unknown.

Scheme Equality for TaskType.

(** The first argument of [detectTaskType] is a string, or an object whose
    optional [text] and [content] are strings, or nothing. *)
Inductive UserMessage :=
  | UMString (s : string)
  | UMObject (text content : option string)
  | UMNullish.

Record Applicability := mkApplicability {
  applicable : bool;
  reason : option string
}.

Module TaskTypeDetector.

Import Regex.

Definition messageText (userMessage : UserMessage) : string :=
  match userMessage with
  | UMString s => s
  | UMObject t c =>
      JS.or_else (JS.or_opt (JS.truthy_str t) (JS.truthy_str c)) ""
  | UMNullish => ""
  end.

(** [toolCalls.map(t => t.data?.tool).filter(Boolean)]. *)
Fixpoint filter_truthy (l : list (option string)) : list string :=
  match l with
  | [] => []
  | x :: rest =>
      match JS.truthy_str x with
      | Some s => s :: filter_truthy rest
      | None => filter_truthy rest
      end
  end.

Definition toolsOf (timeline : list TimelineEvent.t) : list string :=
  let toolCalls :=
    filter (fun e => EventType_eqb (TimelineEvent.type e) tool_call)
           timeline in
  filter_truthy (map (fun t => data_tool (TimelineEvent.data t)) toolCalls).

Definition readTools : list string := ["read"; "glob"; "grep"; "list"].
Definition executionTools : list string := ["write"; "edit"; "bash"; "task"].

(** [tests?] and the like: a literal with an optional final [s]. *)
Definition plural (w : string) : Regex.t := Seq (Lit w) (Opt (Lit "s")).

Definition testsAuthoring : Regex.t :=
  seqs [ WordB;
         words ["write"; "create"; "add"; "implement"; "generate"];
         Spaces;
         Opt (alts [ Seq (Lit "a") Spaces; Seq (Lit "an") Spaces;
                     Seq (Lit "some") Spaces; Seq (Lit "new") Spaces ]);
         alts [ plural "test"; plural "spec"; plural "unit test";
                plural "integration test" ];
         WordB ].

Definition testRunners : Regex.t :=
  whole_word ["jest"; "vitest"; "mocha"; "pytest"; "unittest"].

Definition docsKeywords : Regex.t :=
  whole_word ["document"; "documentation"; "readme"; "docs"; "jsdoc";
              "tsdoc"; "docstring"].

Definition reviewKeywords : Regex.t :=
  whole_word ["review"; "audit"; "check"; "analyze"; "inspect"].

Definition codeNouns : Regex.t :=
  whole_word ["function"; "class"; "component"; "method"; "module";
              "interface"; "type"; "enum"].

Definition createKeywords : Regex.t :=
  whole_word ["create"; "new"; "add"; "make"; "generate"; "write"].

Definition modifyKeywords : Regex.t :=
  whole_word ["modify"; "update"; "change"; "edit"; "fix"; "existing";
              "current"].

Definition fileKeywords : Regex.t :=
  whole_word ["file"; "directory"; "folder"].

Definition genericCodeKeywords : Regex.t :=
  whole_word ["implement"; "build"; "develop"; "code"; "refactor"; "fix"].

Definition deleteKeywords : Regex.t :=
  whole_word ["delete"; "remove"; "rm"].

Definition hasOnlyReadTools (tools : list string) : bool :=
  (0 <? List.length tools)%nat
  && forallb (fun t => JS.includes readTools t) tools
  && negb (existsb (fun t => JS.includes executionTools t) tools).

Definition hasBashOnly (tools : list string) : bool :=
  JS.includes tools "bash"
  && negb (JS.includes tools "write")
  && negb (JS.includes tools "edit").

Definition detectTaskType (userMessage : UserMessage)
    (timeline : list TimelineEvent.t) : TaskType :=
  let msg := toLowerCase (messageText userMessage) in
  let tools := toolsOf timeline in
  if JS.includes tools "task" then delegation
  else if hasOnlyReadTools tools then read_only
  else if hasBashOnly tools && (0 <? List.length tools)%nat then bash_only
  else if test true testsAuthoring msg || test true testRunners msg then tests
  else if test true docsKeywords msg then docs
  else if test true reviewKeywords msg then review
  else if test true codeNouns msg then code
  else if test true createKeywords msg
          && negb (test true modifyKeywords msg)
          && test true fileKeywords msg
          && JS.includes tools "write" then create_new_file
  else if test true genericCodeKeywords msg then code
  else if test true modifyKeywords msg
          && (JS.includes tools "write" || JS.includes tools "edit")
       then modify_existing_file
  else if test true deleteKeywords msg then delete_file
  else if (List.length tools =? 0)%nat then conversational
  else unknown.

Definition yes : Applicability := mkApplicability true None.
Definition no (why : string) : Applicability :=
  mkApplicability false (Some why).

Definition Row : Type := list (TaskType * Applicability).
Definition Matrix : Type := list (string * Row).

Definition matrix : Matrix :=
  [ ("approval-gate",
     [ (create_new_file, yes);
       (modify_existing_file, yes);
       (delete_file, yes);
       (read_only, no "Read-only operations do not require approval");
       (bash_only, yes);
       (delegation, yes);
       (conversational,
        no "Conversational sessions do not require approval");
       (code, yes); (docs, yes); (tests, yes); (review, yes);
       (unknown, yes) ]);
    ("context-loading",
     [ (create_new_file, no "Simple file creation does not require context");
       (modify_existing_file, yes);
       (delete_file, no "File deletion does not require context");
       (read_only, no "Read-only operations do not require context");
       (bash_only, no "Bash-only operations do not require context");
       (delegation, yes);
       (conversational,
        no "Conversational sessions do not require context");
       (code, yes); (docs, yes); (tests, yes); (review, yes);
       (unknown, yes) ]);
    ("execution-balance",
     [ (create_new_file, no "Creating new file - nothing to read");
       (modify_existing_file, yes);
       (delete_file, no "File deletion does not require prior read");
       (read_only, no "No execution tools used");
       (bash_only,
        no "Bash-only operations do not require read-before-execute");
       (delegation,
        no "Delegation tasks have different execution patterns");
       (conversational, no "No execution tools used");
       (code, yes); (docs, yes); (tests, yes); (review, yes);
       (unknown, yes) ]);
    ("tool-usage",
     [ (create_new_file, yes);
       (modify_existing_file, yes);
       (delete_file, yes);
       (read_only, yes);
       (bash_only, yes);
       (delegation, yes);
       (conversational, no "No tools used");
       (code, yes); (docs, yes); (tests, yes); (review, yes);
       (unknown, yes) ]);
    ("delegation",
     [ (create_new_file, no "Simple task - no delegation needed");
       (modify_existing_file, no "Simple task - no delegation needed");
       (delete_file, no "Simple task - no delegation needed");
       (read_only, no "Simple task - no delegation needed");
       (bash_only, no "Simple task - no delegation needed");
       (delegation, yes);
       (conversational, no "No delegation in conversational sessions");
       (code, no "Simple task - no delegation needed");
       (docs, no "Simple task - no delegation needed");
       (tests, no "Simple task - no delegation needed");
       (review, yes);
       (unknown, yes) ]);
    ("stop-on-failure",
     [ (create_new_file, yes);
       (modify_existing_file, yes);
       (delete_file, yes);
       (read_only, yes);
       (bash_only, yes);
       (delegation, yes);
       (conversational, no "No execution in conversational sessions");
       (code, yes); (docs, yes); (tests, yes); (review, yes);
       (unknown, yes) ]);
    ("behavior",
     [ (create_new_file, yes);
       (modify_existing_file, yes);
       (delete_file, yes);
       (read_only, yes);
       (bash_only, yes);
       (delegation, yes);
       (conversational, yes);
       (code, yes); (docs, yes); (tests, yes); (review, yes);
       (unknown, yes) ]) ].

(** [matrix[evaluatorName]]. *)
Fixpoint rowOf (m : Matrix) (evaluatorName : string) : option Row :=
  match m with
  | [] => None
  | (name, row) :: rest =>
      if String.eqb name evaluatorName then Some row
      else rowOf rest evaluatorName
  end.

(** [evaluatorMatrix[taskType]]. *)
Fixpoint entryOf (row : Row) (taskType : TaskType) : option Applicability :=
  match row with
  | [] => None
  | (ty, a) :: rest =>
      if TaskType_beq ty taskType then Some a else entryOf rest taskType
  end.

(** The two look-ups that end [getEvaluatorApplicability], over a given
    matrix. *)
Definition applicabilityIn (m : Matrix) (evaluatorName : string)
    (taskType : TaskType) : Applicability :=
  match rowOf m evaluatorName with
  | None => mkApplicability true None
  | Some evaluatorMatrix =>
      JS.or_else (entryOf evaluatorMatrix taskType)
                 (mkApplicability true None)
  end.

Definition getEvaluatorApplicability (evaluatorName : string)
    (taskType : TaskType) : Applicability :=
  applicabilityIn matrix evaluatorName taskType.

End TaskTypeDetector.

(* ================================================================== *)
(** * Evaluation results ([types/index.ts]) *)
(* ================================================================== *)

(** The loosely typed payloads ([evidence], [data], [metadata]). *)
#[local] Set Warnings "-register-all".
Inductive Json :=
  | JNull
  | JBool (b : bool)
  | JNum (n : Z)
  | JStr (s : string)
  | JArr (items : list Json)
  | JObj (fields : list (string * Json)).

Definition jstrs (l : list string) : Json := JArr (map JStr l).
Definition jlen {A} (l : list A) : Json := JNum (Z.of_nat (List.length l)).
Definition jopt {A} (f : A -> Json) (x : option A) : Json :=
  match x with Some v => f v | None => JNull end.

(** [obj.key] on a payload. *)
Fixpoint field_in (fields : list (string * Json)) (key : string)
    : option Json :=
  match fields with
  | [] => None
  | (k, v) :: rest => if String.eqb k key then Some v else field_in rest key
  end.

Definition jfield (j : option Json) (key : string) : option Json :=
  match j with
  | Some (JObj fields) => field_in fields key
  | _ => None
  end.

Inductive Severity := error | warning | info.

Definition Severity_eqb (a b : Severity) : bool :=
  match a, b with
  | error, error | warning, warning | info, info => true
  | _, _ => false
  end.

Module Violation.
Record t := mk {
  type : string;
  severity : Severity;
  message : string;
  timestamp : Z;
  evidence : Json
}.
End Violation.

Module Evidence.
Record t := mk {
  type : string;
  description : string;
  data : Json;
  timestamp : option Z
}.
End Evidence.

Module Check.
Record t := mk {
  name : string;
  passed : bool;
  weight : Z;
  evidence : list Evidence.t
}.
End Check.

Module EvaluationResult.
Record t := mk {
  evaluator : string;
  passed : bool;
  score : Q;
  violations : list Violation.t;
  evidence : list Evidence.t;
  metadata : option Json
}.
End EvaluationResult.

(** The wall clock: [Date.now()] returns the next reading. *)
Record Clock := mkClock {
  readings : nat -> Z;
  ticks : nat
}.

Definition Date_now (c : Clock) : Z * Clock :=
  (readings c (ticks c), mkClock (readings c) (S (ticks c))).

(* ================================================================== *)
(** * BaseEvaluator *)
(* ================================================================== *)

(** [evaluators/base-evaluator.ts] is not among the sources.  The timeline
    queries and the approval-phrase test that [BehaviorEvaluator] inherits
    are parameters of the embedding. *)
Record BaseQueries := mkBase {
  getToolCalls : list TimelineEvent.t -> list TimelineEvent.t;
  getAssistantMessages : list TimelineEvent.t -> list TimelineEvent.t;
  getReadTools : list TimelineEvent.t -> list TimelineEvent.t;
  getToolCallsByName : list TimelineEvent.t -> string -> list TimelineEvent.t;
  containsApprovalLanguage : string -> bool
}.

Module BaseEvaluator.

(** Modelled from the spec: [createViolation] is missing from the sources;
    a Violation is the record [{kind, severity, message, timestamp,
    evidence}] of its five arguments. *)
Definition createViolation (type : string) (severity : Severity)
    (message : string) (timestamp : Z) (evidence : Json) : Violation.t :=
  Violation.mk type severity message timestamp evidence.

(** Modelled from the spec: [createEvidence] is missing from the sources;
    an Evidence is [{kind, description, data, timestamp?}], and the callers
    in [BehaviorEvaluator] pass no time stamp. *)
Definition createEvidence (type description : string) (data : Json)
    : Evidence.t :=
  Evidence.mk type description data None.

Definition sumWeights (checks : list Check.t) : Z :=
  fold_right (fun c acc => Check.weight c + acc) 0 checks.

(** Modelled from the spec: [buildResult] is missing from the sources;
    [passed] is "no error-severity violation" and [score] is 100 times the
    sum of the weights of the passing checks over the sum of all weights, or
    100 when there is no check. *)
Definition buildResult (name : string) (checks : list Check.t)
    (violations : list Violation.t) (evidence : list Evidence.t)
    (metadata : Json) : EvaluationResult.t :=
  let passed :=
    negb (existsb (fun v => Severity_eqb (Violation.severity v) error)
                  violations) in
  let score :=
    match checks with
    | [] => inject_Z 100
    | _ =>
        (inject_Z (100 * sumWeights (filter Check.passed checks))
         / inject_Z (sumWeights checks))%Q
    end in
  EvaluationResult.mk name passed score violations evidence (Some metadata).

End BaseEvaluator.

(* ================================================================== *)
(** * BehaviorEvaluator ([evaluators/behavior-evaluator.ts]) *)
(* ================================================================== *)

(** The declared constraints ([sdk/test-case-schema.ts], fields as the
    evaluator reads them). *)
Module BehaviorExpectation.
Record t := mk {
  mustUseTools : option (list string);
  mustUseAnyOf : option (list (list string));
  mustNotUseTools : option (list string);
  minToolCalls : option Z;
  maxToolCalls : option Z;
  requiresApproval : option bool;
  requiresContext : option bool;
  shouldDelegate : option bool
}.
End BehaviorExpectation.

Module BehaviorEvaluator.

Import BaseEvaluator.
Import BehaviorExpectation.

Definition name : string := "behavior".

(** The arrays [checks] and [violations] that [evaluate] fills, with the
    clock that [Date.now()] reads. *)
Record Acc := mkAcc {
  checks : list Check.t;
  violations : list Violation.t;
  clock : Clock
}.

(** [violations.push(this.createViolation(type, severity, message,
    Date.now(), evidence))]. *)
Definition pushViolation (type : string) (severity : Severity)
    (message : string) (evidence : Json) (acc : Acc) : Acc :=
  let (now, clock') := Date_now (clock acc) in
  mkAcc (checks acc)
        (violations acc ++ [createViolation type severity message now evidence])
        clock'.

(** [checks.push(check)]. *)
Definition pushCheck (check : Check.t) (acc : Acc) : Acc :=
  mkAcc (checks acc ++ [check]) (violations acc) (clock acc).

(** [if (!passed) violations.push(...)]. *)
Definition unless (passed : bool) (f : Acc -> Acc) (acc : Acc) : Acc :=
  if passed then acc else f acc.

(** The names of the tools called: [data.tool || data.state?.tool || null],
    the [null]s filtered out. *)
Fixpoint toolNames (toolCalls : list TimelineEvent.t) : list string :=
  match toolCalls with
  | [] => []
  | tc :: rest =>
      let data := TimelineEvent.data tc in
      match data with
      | None => toolNames rest
      | Some _ =>
          match JS.or_opt (JS.truthy_str (data_tool data))
                          (JS.truthy_str (data_state_tool data)) with
          | Some t => t :: toolNames rest
          | None => toolNames rest
          end
      end
  end.

(** What the checks read from the timeline. *)
Record Facts := mkFacts {
  toolCalls : list TimelineEvent.t;
  toolsUsed : list string;
  uniqueTools : list string
}.

Definition factsOf (base : BaseQueries) (timeline : list TimelineEvent.t)
    : Facts :=
  let toolCalls := getToolCalls base timeline in
  let toolsUsed := toolNames toolCalls in
  mkFacts toolCalls toolsUsed (JS.unique toolsUsed).

Definition toolCallCount (f : Facts) : Z :=
  Z.of_nat (List.length (toolCalls f)).

(** [this.behavior.mustUseAnyOf.map(s => `[${s.join(', ')}]`).join(' OR ')]. *)
Definition options (sets : list (list string)) : string :=
  JS.join " OR " (map (fun s => "[" ++ JS.join ", " s ++ "]") sets).

(** Check 1: [mustUseTools]. *)
Definition missingRequired (f : Facts) (required : list string)
    : list string :=
  filter (fun requiredTool => negb (JS.includes (toolsUsed f) requiredTool))
         required.

Fixpoint reportMissing (f : Facts) (required : list string) (acc : Acc)
    : Acc :=
  match required with
  | [] => acc
  | requiredTool :: rest =>
      let wasUsed := JS.includes (toolsUsed f) requiredTool in
      let acc' :=
        if negb wasUsed then
          pushViolation "missing-required-tool" error
            ("Required tool '" ++ requiredTool ++ "' was not used")
            (JObj [("requiredTool", JStr requiredTool);
                   ("toolsUsed", jstrs (uniqueTools f))])
            acc
        else acc in
      reportMissing f rest acc'
  end.

Definition checkMustUseTools (b : t) (f : Facts) (acc : Acc) : Acc :=
  match mustUseTools b with
  | Some ((_ :: _) as required) =>
      let missingTools := missingRequired f required in
      let acc := reportMissing f required acc in
      let ok := (List.length missingTools =? 0)%nat in
      pushCheck
        (Check.mk "must-use-tools" ok 100
           [createEvidence "required-tools"
              (if ok
               then "All required tools used: " ++ JS.join ", " required
               else "Missing required tools: " ++ JS.join ", " missingTools)
              (JObj [("required", jstrs required);
                     ("used", jstrs (uniqueTools f));
                     ("missing", jstrs missingTools)])])
        acc
  | _ => acc
  end.

(** Check 1b: [mustUseAnyOf]. *)
Definition missingFromSet (f : Facts) (toolSet : list string)
    : list string :=
  filter (fun tool => negb (JS.includes (toolsUsed f) tool)) toolSet.

Definition satisfiedSets (f : Facts) (sets : list (list string))
    : list (list string) :=
  filter (fun toolSet => (List.length (missingFromSet f toolSet) =? 0)%nat)
         sets.

Definition unsatisfiedSets (f : Facts) (sets : list (list string)) : Json :=
  JArr (map (fun toolSet =>
               JObj [("set", jstrs toolSet);
                     ("missing", jstrs (missingFromSet f toolSet))])
            (filter (fun toolSet =>
                       negb (List.length (missingFromSet f toolSet) =? 0)%nat)
                    sets)).

Definition checkMustUseAnyOf (b : t) (f : Facts) (acc : Acc) : Acc :=
  match mustUseAnyOf b with
  | Some ((_ :: _) as sets) =>
      let satisfied := satisfiedSets f sets in
      let passed := (0 <? List.length satisfied)%nat in
      let acc :=
        unless passed
          (pushViolation "missing-required-tool-set" error
             ("None of the required tool sets were fully used. Options: "
              ++ options sets)
             (JObj [("requiredSets", JArr (map jstrs sets));
                    ("toolsUsed", jstrs (uniqueTools f));
                    ("unsatisfiedSets", unsatisfiedSets f sets)]))
          acc in
      pushCheck
        (Check.mk "must-use-any-of" passed 100
           [createEvidence "alternative-tools"
              (match satisfied with
               | first :: _ =>
                   "Satisfied tool set: [" ++ JS.join ", " first ++ "]"
               | [] => "No tool set satisfied. Options: " ++ options sets
               end)
              (JObj [("requiredSets", JArr (map jstrs sets));
                     ("used", jstrs (uniqueTools f));
                     ("satisfiedSets", JArr (map jstrs satisfied));
                     ("unsatisfiedSets", unsatisfiedSets f sets)])])
        acc
  | _ => acc
  end.

(** Check 2: [mustNotUseTools]. *)
Definition forbiddenUsed (f : Facts) (forbidden : list string)
    : list string :=
  filter (fun forbiddenTool => JS.includes (toolsUsed f) forbiddenTool)
         forbidden.

Fixpoint reportForbidden (f : Facts) (forbidden : list string) (acc : Acc)
    : Acc :=
  match forbidden with
  | [] => acc
  | forbiddenTool :: rest =>
      let wasUsed := JS.includes (toolsUsed f) forbiddenTool in
      let acc' :=
        if wasUsed then
          pushViolation "forbidden-tool-used" error
            ("Forbidden tool '" ++ forbiddenTool ++ "' was used")
            (JObj [("forbiddenTool", JStr forbiddenTool);
                   ("toolsUsed", jstrs (uniqueTools f))])
            acc
        else acc in
      reportForbidden f rest acc'
  end.

Definition checkMustNotUseTools (b : t) (f : Facts) (acc : Acc) : Acc :=
  match mustNotUseTools b with
  | Some ((_ :: _) as forbidden) =>
      let forbiddenToolsUsed := forbiddenUsed f forbidden in
      let acc := reportForbidden f forbidden acc in
      let ok := (List.length forbiddenToolsUsed =? 0)%nat in
      pushCheck
        (Check.mk "must-not-use-tools" ok 100
           [createEvidence "forbidden-tools"
              (if ok
               then "No forbidden tools used"
               else "Forbidden tools used: "
                    ++ JS.join ", " forbiddenToolsUsed)
              (JObj [("forbidden", jstrs forbidden);
                     ("used", jstrs (uniqueTools f));
                     ("violations", jstrs forbiddenToolsUsed)])])
        acc
  | _ => acc
  end.

(** Check 3: [minToolCalls]. *)
Definition checkMinToolCalls (b : t) (f : Facts) (acc : Acc) : Acc :=
  match minToolCalls b with
  | Some minimum =>
      let passed := toolCallCount f >=? minimum in
      let acc :=
        unless passed
          (pushViolation "insufficient-tool-calls" error
             ("Expected at least " ++ JS.num_to_string minimum
              ++ " tool calls, got " ++ JS.num_to_string (toolCallCount f))
             (JObj [("expected", JNum minimum);
                    ("actual", JNum (toolCallCount f))]))
          acc in
      pushCheck
        (Check.mk "min-tool-calls" passed 50
           [createEvidence "tool-call-count"
              ("Tool calls: " ++ JS.num_to_string (toolCallCount f)
               ++ " (min: " ++ JS.num_to_string minimum ++ ")")
              (JObj [("actual", JNum (toolCallCount f));
                     ("minimum", JNum minimum)])])
        acc
  | None => acc
  end.

(** Check 4: [maxToolCalls]. *)
Definition checkMaxToolCalls (b : t) (f : Facts) (acc : Acc) : Acc :=
  match maxToolCalls b with
  | Some maximum =>
      let passed := toolCallCount f <=? maximum in
      let acc :=
        unless passed
          (pushViolation "excessive-tool-calls" warning
             ("Expected at most " ++ JS.num_to_string maximum
              ++ " tool calls, got " ++ JS.num_to_string (toolCallCount f))
             (JObj [("expected", JNum maximum);
                    ("actual", JNum (toolCallCount f))]))
          acc in
      pushCheck
        (Check.mk "max-tool-calls" passed 50
           [createEvidence "tool-call-count"
              ("Tool calls: " ++ JS.num_to_string (toolCallCount f)
               ++ " (max: " ++ JS.num_to_string maximum ++ ")")
              (JObj [("actual", JNum (toolCallCount f));
                     ("maximum", JNum maximum)])])
        acc
  | None => acc
  end.

(** Check 5: [requiresApproval]. *)
Definition hasApprovalRequest (base : BaseQueries)
    (timeline : list TimelineEvent.t) : bool :=
  existsb (fun msg =>
             let text :=
               JS.or_else (JS.truthy_str (data_text (TimelineEvent.data msg)))
                          "" in
             containsApprovalLanguage base text)
          (getAssistantMessages base timeline).

Definition checkRequiresApproval (base : BaseQueries) (b : t)
    (timeline : list TimelineEvent.t) (acc : Acc) : Acc :=
  match requiresApproval b with
  | Some true =>
      let asked := hasApprovalRequest base timeline in
      let acc :=
        unless asked
          (pushViolation "missing-approval-request" error
             "Agent did not request approval before executing"
             (JObj [("requiresApproval", JBool true);
                    ("approvalRequested", JBool false)]))
          acc in
      pushCheck
        (Check.mk "requires-approval" asked 100
           [createEvidence "approval-request"
              (if asked
               then "Agent requested approval before executing"
               else "Agent did not request approval")
              (JObj [("requiresApproval", JBool true);
                     ("approvalRequested", JBool asked)])])
        acc
  | _ => acc
  end.

(** Check 6: [requiresContext]. *)
Definition contextPatterns : list Regex.t :=
  [ Regex.seqs [Regex.Lit ".opencode/agent/"; Regex.DotStar;
                Regex.Lit ".md"; Regex.EndOfInput];
    Regex.seqs [Regex.Lit ".opencode/context/"; Regex.DotStar;
                Regex.Lit ".md"; Regex.EndOfInput];
    Regex.seqs [Regex.Lit "docs/"; Regex.DotStar;
                Regex.Lit ".md"; Regex.EndOfInput];
    Regex.seqs [Regex.Lit "/CONTRIBUTING.md"; Regex.EndOfInput];
    Regex.seqs [Regex.Lit "/README.md"; Regex.EndOfInput] ].

Definition filePathOf (rt : TimelineEvent.t) : string :=
  let data := TimelineEvent.data rt in
  JS.or_else
    (JS.or_opt (JS.truthy_str (data_state_input_filePath data))
       (JS.or_opt (JS.truthy_str (data_input_filePath data))
                  (JS.truthy_str (data_input_path data))))
    "".

Definition contextReads (base : BaseQueries)
    (timeline : list TimelineEvent.t) : list TimelineEvent.t :=
  filter (fun rt =>
            existsb (fun pattern => Regex.test true pattern (filePathOf rt))
                    contextPatterns)
         (getReadTools base timeline).

Definition contextFile (cr : TimelineEvent.t) : Json :=
  let data := TimelineEvent.data cr in
  jopt JStr (JS.or_opt (JS.truthy_str (data_input_filePath data))
                       (data_input_path data)).

Definition checkRequiresContext (base : BaseQueries) (b : t)
    (timeline : list TimelineEvent.t) (acc : Acc) : Acc :=
  match requiresContext b with
  | Some true =>
      let reads := contextReads base timeline in
      let hasContextLoading := (0 <? List.length reads)%nat in
      let acc :=
        unless hasContextLoading
          (pushViolation "missing-context-loading" error
             "Agent did not load required context files"
             (JObj [("requiresContext", JBool true);
                    ("contextLoaded", JBool false)]))
          acc in
      pushCheck
        (Check.mk "requires-context" hasContextLoading 100
           [createEvidence "context-loading"
              (if hasContextLoading
               then "Agent loaded "
                    ++ JS.num_to_string (Z.of_nat (List.length reads))
                    ++ " context file(s)"
               else "Agent did not load context files")
              (JObj [("requiresContext", JBool true);
                     ("contextLoaded", JBool hasContextLoading);
                     ("contextFiles", JArr (map contextFile reads))])])
        acc
  | _ => acc
  end.

(** Check 7: [shouldDelegate]. *)
Definition checkShouldDelegate (base : BaseQueries) (b : t)
    (timeline : list TimelineEvent.t) (acc : Acc) : Acc :=
  match shouldDelegate b with
  | Some true =>
      let taskCalls := getToolCallsByName base timeline "task" in
      let hasDelegation := (0 <? List.length taskCalls)%nat in
      let acc :=
        unless hasDelegation
          (pushViolation "missing-delegation" warning
             "Agent should have delegated to a subagent"
             (JObj [("shouldDelegate", JBool true);
                    ("delegated", JBool false)]))
          acc in
      pushCheck
        (Check.mk "should-delegate" hasDelegation 75
           [createEvidence "delegation"
              (if hasDelegation
               then "Agent delegated to "
                    ++ JS.num_to_string (Z.of_nat (List.length taskCalls))
                    ++ " subagent(s)"
               else "Agent did not delegate to subagents")
              (JObj [("shouldDelegate", JBool true);
                     ("delegated", JBool hasDelegation);
                     ("delegationCount", jlen taskCalls)])])
        acc
  | _ => acc
  end.

(** The seven checks in the order of the source. *)
Definition runChecks (base : BaseQueries) (b : t)
    (timeline : list TimelineEvent.t) (acc : Acc) : Acc :=
  let f := factsOf base timeline in
  let acc := checkMustUseTools b f acc in
  let acc := checkMustUseAnyOf b f acc in
  let acc := checkMustNotUseTools b f acc in
  let acc := checkMinToolCalls b f acc in
  let acc := checkMaxToolCalls b f acc in
  let acc := checkRequiresApproval base b timeline acc in
  let acc := checkRequiresContext base b timeline acc in
  checkShouldDelegate base b timeline acc.

Definition summary (f : Facts) (checks : list Check.t) : Evidence.t :=
  let passedChecks := filter Check.passed checks in
  let failedChecks := filter (fun c => negb (Check.passed c)) checks in
  createEvidence "behavior-summary"
    ("Behavior validation: "
     ++ JS.num_to_string (Z.of_nat (List.length passedChecks)) ++ "/"
     ++ JS.num_to_string (Z.of_nat (List.length checks))
     ++ " checks passed")
    (JObj [("totalChecks", jlen checks);
           ("passedChecks", jlen passedChecks);
           ("failedChecks", jlen failedChecks);
           ("toolsUsed", jstrs (uniqueTools f));
           ("toolCallCount", JNum (toolCallCount f))]).

Definition behaviorJson (b : t) : Json :=
  JObj [("mustUseTools", jopt jstrs (mustUseTools b));
        ("mustUseAnyOf", jopt (fun s => JArr (map jstrs s)) (mustUseAnyOf b));
        ("mustNotUseTools", jopt jstrs (mustNotUseTools b));
        ("minToolCalls", jopt JNum (minToolCalls b));
        ("maxToolCalls", jopt JNum (maxToolCalls b));
        ("requiresApproval", jopt JBool (requiresApproval b));
        ("requiresContext", jopt JBool (requiresContext b));
        ("shouldDelegate", jopt JBool (shouldDelegate b))].

(** [evaluate(timeline, sessionInfo)]: the result and the clock after the
    call. *)
Definition evaluate (base : BaseQueries) (b : t)
    (timeline : list TimelineEvent.t) (sessionInfo : SessionInfo.t)
    (now : Clock) : EvaluationResult.t * Clock :=
  let f := factsOf base timeline in
  let acc := runChecks base b timeline (mkAcc [] [] now) in
  (buildResult name (checks acc) (violations acc)
     [summary f (checks acc)]
     (JObj [("behavior", behaviorJson b);
            ("toolsUsed", jstrs (uniqueTools f));
            ("toolCallCount", JNum (toolCallCount f))]),
   clock acc).

End BehaviorEvaluator.

(* ================================================================== *)
(** * Applicability gating of the rule evaluators *)
(* ================================================================== *)

Module GatedEvaluator.

Import TaskTypeDetector.

(** Modelled from the spec: the rule evaluators that consult the
    applicability matrix (approval-gate, context-loading, tool-usage,
    stop-on-failure, delegation) are missing from the sources.  The
    classifier is given "the first user message's text and the set of tools
    invoked"; the message is read from the first [user_message] event. *)
Definition firstUserMessage (timeline : list TimelineEvent.t) : UserMessage :=
  match TimelineBuilder.getUserMessages timeline with
  | e :: _ => UMObject (data_text (TimelineEvent.data e)) None
  | [] => UMNullish
  end.

(** Modelled from the spec: the result of an inapplicable evaluator is
    "fully-passing, zero-violation" and "annotated [metadata.skipped =
    true]". *)
Definition skippedResult (name : string) (why : option string)
    : EvaluationResult.t :=
  EvaluationResult.mk name true (inject_Z 100) [] []
    (Some (JObj [("skipped", JBool true); ("reason", jopt JStr why)])).

(** Modelled from the spec: the applicability look-up "is consulted by every
    evaluator before running its checks"; [rules] stands for the checks of
    the evaluator. *)
Definition evaluate (name : string)
    (rules : list TimelineEvent.t -> SessionInfo.t -> Clock ->
             EvaluationResult.t * Clock)
    (timeline : list TimelineEvent.t) (sessionInfo : SessionInfo.t)
    (now : Clock) : EvaluationResult.t * Clock :=
  let taskType := detectTaskType (firstUserMessage timeline) timeline in
  let verdict := getEvaluatorApplicability name taskType in
  if applicable verdict then rules timeline sessionInfo now
  else (skippedResult name (reason verdict), now).

End GatedEvaluator.

(* ================================================================== *)
(** * EvaluatorRunner (class [EvaluatorRunner]) *)
(* ================================================================== *)

(** A call returns or throws. *)
Inductive Outcome (A : Type) :=
  | Returned (value : A)
  | Threw (message : string).
Arguments Returned {A} value.
Arguments Threw {A} message.

Module IEvaluator.
Record t := mk {
  name : string;
  description : string;
  evaluate : list TimelineEvent.t -> SessionInfo.t -> Clock ->
             Outcome EvaluationResult.t * Clock
}.
End IEvaluator.

Module SeverityCounts.
Record t := mk {
  error : nat;
  warning : nat;
  info : nat
}.
End SeverityCounts.

Module AggregatedResult.
Record t := mk {
  sessionId : string;
  sessionInfo : SessionInfo.t;
  timestamp : Z;
  evaluatorResults : list EvaluationResult.t;
  overallPassed : bool;
  overallScore : Z;
  totalViolations : nat;
  violationsBySeverity : SeverityCounts.t;
  allViolations : list Violation.t;
  allEvidence : list Evidence.t
}.
End AggregatedResult.

Module EvaluatorRunner.

(** The registry is an object keyed by evaluator name, given by its own
    entries in the order in which [Object.values] lists them: the keys that
    are array indices first, in ascending order, then the other keys in the
    order of their creation.  The prototype of the object is not part of
    the state: it is [Object.prototype] throughout.  The registration of an
    evaluator named [__proto__] stores no entry and replaces the prototype
    instead; the embedding stores no entry either, but what the registry
    answers afterwards for the names it does not hold is not covered. *)
Definition EvaluatorRegistry : Type := list (string * IEvaluator.t).

Record t := mk {
  registry : EvaluatorRegistry;
  sessionReader : SessionReader.t;
  timelineBuilder : MessageParser
}.

Fixpoint ownEntry (registry : EvaluatorRegistry) (key : string)
    : option IEvaluator.t :=
  match registry with
  | [] => None
  | (k, e) :: rest => if String.eqb k key then Some e else ownEntry rest key
  end.

(** An assignment to a key that exists keeps its place. *)
Fixpoint replace (registry : EvaluatorRegistry) (key : string)
    (evaluator : IEvaluator.t) : EvaluatorRegistry :=
  match registry with
  | [] => []
  | (k, e) :: rest =>
      if String.eqb k key then (k, evaluator) :: rest
      else (k, e) :: replace rest key evaluator
  end.

(** A new array index goes before the first key that is no array index or
    is a larger one. *)
Fixpoint insertIndex (registry : EvaluatorRegistry) (index : Z)
    (key : string) (evaluator : IEvaluator.t) : EvaluatorRegistry :=
  match registry with
  | [] => [(key, evaluator)]
  | (k, e) :: rest =>
      match JS.arrayIndex k with
      | Some i =>
          if i <? index then (k, e) :: insertIndex rest index key evaluator
          else (key, evaluator) :: (k, e) :: rest
      | None => (key, evaluator) :: (k, e) :: rest
      end
  end.

(** [registry[key] = evaluator]: a key that exists keeps its place; a new
    key is stored at the place of its kind, unless it is [__proto__], which
    the setter of [Object.prototype] takes. *)
Definition assign (registry : EvaluatorRegistry) (key : string)
    (evaluator : IEvaluator.t) : EvaluatorRegistry :=
  match ownEntry registry key with
  | Some _ => replace registry key evaluator
  | None =>
      if String.eqb key "__proto__" then registry
      else
        match JS.arrayIndex key with
        | Some index => insertIndex registry index key evaluator
        | None => (registry ++ [(key, evaluator)])%list
        end
  end.

Definition register (runner : t) (evaluator : IEvaluator.t) : t :=
  mk (assign (registry runner) (IEvaluator.name evaluator) evaluator)
     (sessionReader runner) (timelineBuilder runner).

Definition unregister (runner : t) (evaluatorName : string) : t :=
  mk (filter (fun entry => negb (String.eqb (fst entry) evaluatorName))
             (registry runner))
     (sessionReader runner) (timelineBuilder runner).

(** [this.registry[name]]: an own entry, a member inherited from
    [Object.prototype] (truthy, but no evaluator) or [undefined]. *)
Inductive Slot :=
  | Registered (evaluator : IEvaluator.t)
  | Inherited.

Definition objectPrototypeKeys : list string :=
  ["constructor"; "__proto__"; "hasOwnProperty"; "isPrototypeOf";
   "propertyIsEnumerable"; "toLocaleString"; "toString"; "valueOf";
   "__defineGetter__"; "__defineSetter__"; "__lookupGetter__";
   "__lookupSetter__"].

Definition lookup (registry : EvaluatorRegistry) (key : string)
    : option Slot :=
  match ownEntry registry key with
  | Some e => Some (Registered e)
  | None => if JS.includes objectPrototypeKeys key then Some Inherited
            else None
  end.

Definition getEvaluator (runner : t) (evaluatorName : string) : option Slot :=
  lookup (registry runner) evaluatorName.

Definition getEvaluators (runner : t) : list Slot :=
  map (fun entry => Registered (snd entry)) (registry runner).

(** [evaluatorNames.map(name => this.registry[name]).filter(Boolean)]. *)
Fixpoint selected (registry : EvaluatorRegistry) (names : list string)
    : list Slot :=
  match names with
  | [] => []
  | n :: rest =>
      match lookup registry n with
      | Some slot => slot :: selected registry rest
      | None => selected registry rest
      end
  end.

Definition countSeverity (s : Severity) (vs : list Violation.t) : nat :=
  List.length (filter (fun v => Severity_eqb (Violation.severity v) s) vs).

Definition aggregateResults (sessionId : string)
    (sessionInfo : SessionInfo.t)
    (evaluatorResults : list EvaluationResult.t) (now : Z)
    : AggregatedResult.t :=
  let allViolations := flat_map EvaluationResult.violations evaluatorResults in
  let violationsBySeverity :=
    SeverityCounts.mk (countSeverity error allViolations)
                      (countSeverity warning allViolations)
                      (countSeverity info allViolations) in
  let allEvidence := flat_map EvaluationResult.evidence evaluatorResults in
  let totalWeight := List.length evaluatorResults in
  let weightedScore :=
    fold_left (fun sum result => JS.add sum (EvaluationResult.score result))
              evaluatorResults 0%Q in
  let overallScore :=
    if (0 <? totalWeight)%nat
    then JS.Math_round
           (JS.div weightedScore (inject_Z (Z.of_nat totalWeight)))
    else 100 in
  let overallPassed := forallb EvaluationResult.passed evaluatorResults in
  AggregatedResult.mk sessionId sessionInfo now evaluatorResults
    overallPassed overallScore (List.length allViolations)
    violationsBySeverity allViolations allEvidence.

(** The loop over [evaluatorsToRun]: the first throw ends the run. *)
Fixpoint runEach (evaluatorsToRun : list Slot)
    (timeline : list TimelineEvent.t) (sessionInfo : SessionInfo.t)
    (now : Clock) : Outcome (list EvaluationResult.t) * Clock :=
  match evaluatorsToRun with
  | [] => (Returned [], now)
  | Inherited :: _ =>
      (Threw "TypeError: evaluator.evaluate is not a function", now)
  | Registered evaluator :: rest =>
      match IEvaluator.evaluate evaluator timeline sessionInfo now with
      | (Threw m, now') => (Threw m, now')
      | (Returned result, now') =>
          match runEach rest timeline sessionInfo now' with
          | (Threw m, now'') => (Threw m, now'')
          | (Returned results, now'') => (Returned (result :: results), now'')
          end
      end
  end.

(** [evaluatorsToRun] is an array: a list of more than [2^32 - 1]
    evaluators stands for no array of the program, and the attempt to build
    one is the [RangeError] of the language. *)
Definition runEvaluators (runner : t) (sessionId : string)
    (evaluatorNames : option (list string)) (now : Clock)
    : Outcome AggregatedResult.t * Clock :=
  match SessionReader.getSessionInfo (sessionReader runner) sessionId with
  | None => (Threw ("Session not found: " ++ sessionId), now)
  | Some sessionInfo =>
      let timeline :=
        buildTimeline (timelineBuilder runner) (sessionReader runner)
                      sessionId in
      let evaluatorsToRun :=
        match evaluatorNames with
        | Some names => selected (registry runner) names
        | None => getEvaluators runner
        end in
      if JS.maxArrayLength <? Z.of_nat (List.length evaluatorsToRun)
      then (Threw "RangeError: Invalid array length", now)
      else if (List.length evaluatorsToRun =? 0)%nat
      then (Threw "No evaluators registered or specified", now)
      else
        match runEach evaluatorsToRun timeline sessionInfo now with
        | (Threw m, now') => (Threw m, now')
        | (Returned results, now') =>
            let (stamp, now'') := Date_now now' in
            (Returned (aggregateResults sessionId sessionInfo results stamp),
             now'')
        end
  end.

Definition runAll (runner : t) (sessionId : string) (now : Clock)
    : Outcome AggregatedResult.t * Clock :=
  runEvaluators runner sessionId None now.

(** A [BehaviorEvaluator] as a registered evaluator. *)
Definition behaviorEvaluator (base : BaseQueries)
    (behavior : BehaviorExpectation.t) : IEvaluator.t :=
  IEvaluator.mk BehaviorEvaluator.name
    "Validates agent behavior matches test expectations"
    (fun timeline sessionInfo now =>
       let (result, now') :=
         BehaviorEvaluator.evaluate base behavior timeline sessionInfo now in
       (Returned result, now')).

(** [runBatch]: the sessions in turn; a throw ends the batch and the
    results gathered so far are lost. *)
Fixpoint runBatch (runner : t) (sessionIds : list string)
    (evaluatorNames : option (list string)) (now : Clock)
    : Outcome (list AggregatedResult.t) * Clock :=
  match sessionIds with
  | [] => (Returned [], now)
  | sessionId :: rest =>
      match runEvaluators runner sessionId evaluatorNames now with
      | (Threw m, now') => (Threw m, now')
      | (Returned result, now') =>
          match runBatch runner rest evaluatorNames now' with
          | (Threw m, now'') => (Threw m, now'')
          | (Returned results, now'') => (Returned (result :: results), now'')
          end
      end
  end.

End EvaluatorRunner.

(* ================================================================== *)
(** * TimelineBuilder: the queries that read [event.data] *)
(* ================================================================== *)

(** [wasToolUsed], [getToolsUsed], [countToolUsage] and [getSummary] read
    [event.data.tool] without a guard: on a [tool_call] event that has no
    [data] the read throws. *)
Module TimelineTools.

Definition toolOf (event : TimelineEvent.t) : Outcome (option string) :=
  match TimelineEvent.data event with
  | None => Threw "TypeError: Cannot read properties of undefined"
  | Some d => Returned (data_tool (Some d))
  end.

(** [toolPart.tool === toolName]. *)
Definition is_tool (found : option string) (toolName : string) : bool :=
  match found with
  | Some t => String.eqb t toolName
  | None => false
  end.

(** [toolCalls.some(...)]: stops at the first match. *)
Fixpoint some_is (toolCalls : list TimelineEvent.t) (toolName : string)
    : Outcome bool :=
  match toolCalls with
  | [] => Returned false
  | event :: rest =>
      match toolOf event with
      | Threw m => Threw m
      | Returned found =>
          if is_tool found toolName then Returned true
          else some_is rest toolName
      end
  end.

Definition wasToolUsed (timeline : list TimelineEvent.t) (toolName : string)
    : Outcome bool :=
  some_is (TimelineBuilder.getToolCalls timeline) toolName.

(** [toolCalls.map(event => event.data.tool)]. *)
Fixpoint toolsOfCalls (toolCalls : list TimelineEvent.t)
    : Outcome (list (option string)) :=
  match toolCalls with
  | [] => Returned []
  | event :: rest =>
      match toolOf event with
      | Threw m => Threw m
      | Returned found =>
          match toolsOfCalls rest with
          | Threw m => Threw m
          | Returned tools => Returned (found :: tools)
          end
      end
  end.

Definition same_tool (a b : option string) : bool :=
  match a, b with
  | Some x, Some y => String.eqb x y
  | None, None => true
  | _, _ => false
  end.

(** [[...new Set(tools)]] on names that may be [undefined]. *)
Fixpoint dedupe (seen tools : list (option string))
    : list (option string) :=
  match tools with
  | [] => []
  | found :: rest =>
      if existsb (same_tool found) seen then dedupe seen rest
      else found :: dedupe (found :: seen) rest
  end.

Definition getToolsUsed (timeline : list TimelineEvent.t)
    : Outcome (list (option string)) :=
  match toolsOfCalls (TimelineBuilder.getToolCalls timeline) with
  | Threw m => Threw m
  | Returned tools => Returned (dedupe [] tools)
  end.

(** [toolCalls.filter(...).length]. *)
Fixpoint count_is (toolCalls : list TimelineEvent.t) (toolName : string)
    : Outcome nat :=
  match toolCalls with
  | [] => Returned 0%nat
  | event :: rest =>
      match toolOf event with
      | Threw m => Threw m
      | Returned found =>
          match count_is rest toolName with
          | Threw m => Threw m
          | Returned n =>
              Returned (if is_tool found toolName then S n else n)
          end
      end
  end.

Definition countToolUsage (timeline : list TimelineEvent.t)
    (toolName : string) : Outcome nat :=
  count_is (TimelineBuilder.getToolCalls timeline) toolName.

Record Summary := mkSummary {
  totalEvents : nat;
  userMessages : nat;
  assistantMessages : nat;
  toolCalls : nat;
  tools : list (option string);
  duration : Z
}.

Definition getSummary (timeline : list TimelineEvent.t) : Outcome Summary :=
  let userMessages := TimelineBuilder.getUserMessages timeline in
  let assistantMessages := TimelineBuilder.getAssistantMessages timeline in
  let toolCalls := TimelineBuilder.getToolCalls timeline in
  match getToolsUsed timeline with
  | Threw m => Threw m
  | Returned tools =>
      let firstEvent := nth_error timeline 0 in
      let lastEvent := TimelineBuilder.lastOf timeline in
      let duration :=
        match lastEvent, firstEvent with
        | Some l, Some f =>
            TimelineEvent.timestamp l - TimelineEvent.timestamp f
        | _, _ => 0
        end in
      Returned
        (mkSummary (List.length timeline) (List.length userMessages)
           (List.length assistantMessages) (List.length toolCalls)
           tools duration)
  end.

End TimelineTools.

(* ================================================================== *)
(** * TestRunner: the verdict of a test ([evaluateResult], [parseModel]) *)
(* ================================================================== *)

(** An event of the live stream; the verdict reads its [type] only. *)
Record ServerEvent := mkServerEvent {
  event_type : string;
  event_properties : Json
}.

(** The fields of a test case that [evaluateResult] reads. *)
Module TestCase.
Record ExpectedViolation := mkExpectedViolation {
  rule : string;
  shouldViolate : option bool
}.
Record DeprecatedViolation := mkDeprecatedViolation {
  deprecated_rule : string
}.
Record Expected := mkExpected {
  pass : option bool;
  minMessages : option Z;
  maxMessages : option Z;
  violations : option (list DeprecatedViolation)
}.
Record t := mk {
  expected : option Expected;
  behavior : option BehaviorExpectation.t;
  expectedViolations : option (list ExpectedViolation)
}.
End TestCase.

Module TestRunner.

Import TestCase.

Definition rulePatterns : list (string * list string) :=
  [ ("approval-gate", ["approval"; "missing-approval"]);
    ("context-loading", ["context"; "no-context-loaded"; "missing-context"]);
    ("delegation", ["delegation"; "missing-delegation"]);
    ("tool-usage", ["tool"; "suboptimal-tool"]);
    ("stop-on-failure", ["stop"; "failure"]);
    ("confirm-cleanup", ["cleanup"; "confirm"]) ].

Fixpoint ownPatterns (table : list (string * list string)) (rule : string)
    : option (list string) :=
  match table with
  | [] => None
  | (k, ps) :: rest =>
      if String.eqb k rule then Some ps else ownPatterns rest rule
  end.

(** [rulePatterns[rule] || [rule]]: the patterns of a known rule, the rule
    itself for an unknown one; [None] for a member inherited from
    [Object.prototype], which is truthy but has no [some]. *)
Definition patternsOf (rule : string) : option (list string) :=
  match ownPatterns rulePatterns rule with
  | Some ps => Some ps
  | None =>
      if JS.includes EvaluatorRunner.objectPrototypeKeys rule then None
      else Some [rule]
  end.

(** [patterns.some(pattern =>
      v.type.toLowerCase().includes(pattern.toLowerCase()))]. *)
Definition matchesAny (patterns : list string) (v : Violation.t) : bool :=
  existsb (fun pattern =>
             JS.str_includes (Regex.toLowerCase (Violation.type v))
                             (Regex.toLowerCase pattern))
          patterns.

(** [evaluation.allViolations.filter(...)]: the callback runs once per
    violation, so an inherited member throws only when there is one. *)
Definition actualViolations (rule : string) (all : list Violation.t)
    : Outcome (list Violation.t) :=
  match patternsOf rule with
  | Some patterns => Returned (filter (matchesAny patterns) all)
  | None =>
      match all with
      | [] => Returned []
      | _ :: _ => Threw "TypeError: patterns.some is not a function"
      end
  end.

(** [actualViolations.forEach(v => expectedViolationTypes.add(v.type))]. *)
Fixpoint addTypes (seen : list string) (vs : list Violation.t)
    : list string :=
  match vs with
  | [] => seen
  | v :: rest =>
      if JS.includes seen (Violation.type v) then addTypes seen rest
      else addTypes (seen ++ [Violation.type v]) rest
  end.

(** A stage of [evaluateResult]: [return false], a throw, or on to the
    next stage. *)
Inductive Stage (A : Type) :=
  | Fail
  | Raise (message : string)
  | Next (state : A).
Arguments Fail {A}.
Arguments Raise {A} message.
Arguments Next {A} state.

(** The loop over [expectedViolations]; the state is the set of violation
    types that were expected. *)
Fixpoint checkExpectedViolations (expectedViolations : list ExpectedViolation)
    (all : list Violation.t) (seen : list string) : Stage (list string) :=
  match expectedViolations with
  | [] => Next seen
  | expectedViolation :: rest =>
      match actualViolations (rule expectedViolation) all with
      | Threw m => Raise m
      | Returned actual =>
          match shouldViolate expectedViolation with
          | Some true =>
              if (List.length actual =? 0)%nat then Fail
              else checkExpectedViolations rest all (addTypes seen actual)
          | _ =>
              if (0 <? List.length actual)%nat then Fail
              else checkExpectedViolations rest all seen
          end
      end
  end.

(** The deprecated mapping of a violation type to a rule. *)
Definition deprecatedRuleOf (v : Violation.t) : string :=
  if JS.str_includes (Violation.type v) "approval" then "approval-gate"
  else if JS.str_includes (Violation.type v) "context" then "context-loading"
  else if JS.str_includes (Violation.type v) "delegation" then "delegation"
  else if JS.str_includes (Violation.type v) "tool" then "tool-usage"
  else "unknown".

Definition deprecatedRules : list string :=
  ["approval-gate"; "context-loading"; "delegation"; "tool-usage"].

(** [events.filter(e => e.type.includes('message')).length]. *)
Definition messageCount (events : list ServerEvent) : Z :=
  Z.of_nat
    (List.length
       (filter (fun e => JS.str_includes (event_type e) "message") events)).

Definition is_true (x : option bool) : bool :=
  match x with Some true => true | _ => false end.

Definition is_false (x : option bool) : bool :=
  match x with Some false => true | _ => false end.

Definition errorViolations (vs : list Violation.t) : list Violation.t :=
  filter (fun v => Severity_eqb (Violation.severity v) error) vs.

(** Stage 2: the result of the behaviour evaluator, when the test declares
    a behaviour and there is an evaluation. *)
Definition behaviorStage (testCase : t)
    (evaluation : option AggregatedResult.t) : bool :=
  match behavior testCase, evaluation with
  | Some _, Some ev =>
      match find (fun r => String.eqb (EvaluationResult.evaluator r)
                                      "behavior")
                 (AggregatedResult.evaluatorResults ev) with
      | Some behaviorResult =>
          if negb (EvaluationResult.passed behaviorResult) then false
          else if (0 <? List.length
                          (errorViolations
                             (EvaluationResult.violations behaviorResult)))%nat
               then false
               else true
      | None => true
      end
  | _, _ => true
  end.

(** Stage 4: the deprecated [expected] block; [Next] when it does not
    decide. *)
Definition deprecatedStage (e : Expected) (events : list ServerEvent)
    (errors : list string) (evaluation : option AggregatedResult.t)
    : Stage unit :=
  let tooFew :=
    match minMessages e with
    | Some n => messageCount events <? n
    | None => false
    end in
  let tooMany :=
    match maxMessages e with
    | Some n => messageCount events >? n
    | None => false
    end in
  let violationsMissing :=
    match violations e, evaluation with
    | Some expectedOnes, Some ev =>
        let actualTypes :=
          map deprecatedRuleOf (AggregatedResult.allViolations ev) in
        existsb (fun expectedType =>
                   JS.includes deprecatedRules expectedType
                   && negb (JS.includes actualTypes expectedType))
                (map deprecated_rule expectedOnes)
        || (negb (is_true (pass e))
            && (AggregatedResult.totalViolations ev =? 0)%nat)
    | _, _ => false
    end in
  let errorsFound :=
    match evaluation with
    | Some ev =>
        is_true (pass e)
        && (0 <? SeverityCounts.error
                   (AggregatedResult.violationsBySeverity ev))%nat
    | None => false
    end in
  if tooFew then Fail
  else if tooMany then Fail
  else if violationsMissing then Fail
  else if errorsFound then Fail
  else Next tt.

(** [evaluateResult(testCase, events, errors, evaluation)]. *)
Definition evaluateResult (testCase : t) (events : list ServerEvent)
    (errors : list string) (evaluation : option AggregatedResult.t)
    : Outcome bool :=
  let expectsFailure :=
    match expected testCase with
    | Some e => is_false (pass e)
    | None => false
    end in
  if (0 <? List.length errors)%nat && negb expectsFailure
  then Returned false
  else if negb (behaviorStage testCase evaluation) then Returned false
  else
    let expectedStage :=
      match expectedViolations testCase, evaluation with
      | Some evs, Some ev =>
          checkExpectedViolations evs (AggregatedResult.allViolations ev) []
      | _, _ => Next []
      end in
    match expectedStage with
    | Fail => Returned false
    | Raise m => Threw m
    | Next expectedViolationTypes =>
        let lastStage :=
          match evaluation with
          | Some ev =>
              if (0 <? SeverityCounts.error
                         (AggregatedResult.violationsBySeverity ev))%nat
              then
                let unexpectedErrors :=
                  filter (fun v =>
                            Severity_eqb (Violation.severity v) error
                            && negb (JS.includes expectedViolationTypes
                                                 (Violation.type v)))
                         (AggregatedResult.allViolations ev) in
                if (0 <? List.length unexpectedErrors)%nat
                then Returned false
                else Returned (List.length errors =? 0)%nat
              else Returned (List.length errors =? 0)%nat
          | None => Returned (List.length errors =? 0)%nat
          end in
        match expected testCase with
        | Some e =>
            match deprecatedStage e events errors evaluation with
            | Fail => Returned false
            | Raise m => Threw m
            | Next _ =>
                match pass e with
                | Some true => Returned (List.length errors =? 0)%nat
                | Some false => Returned true
                | None => lastStage
                end
            end
        | None => lastStage
        end
    end.

Record ModelRef := mkModelRef {
  providerID : string;
  modelID : string
}.

(** [parseModel]: the first two pieces of [model.split('/')]; an empty or
    missing piece throws. *)
Definition parseModel (model : string) : Outcome ModelRef :=
  let pieces := JS.split "/"%char model in
  match pieces with
  | provider :: name :: _ =>
      match provider, name with
      | EmptyString, _ | _, EmptyString =>
          Threw ("Invalid model format: " ++ model
                 ++ ". Expected provider/model")
      | _, _ => Returned (mkModelRef provider name)
      end
  | _ =>
      Threw ("Invalid model format: " ++ model
             ++ ". Expected provider/model")
  end.

End TestRunner.

(* ================================================================== *)
(** * Vocabulary of the statements *)
(* ================================================================== *)

Local Open Scope list_scope.

(** [precedes a b l]: an occurrence of [a] lies before an occurrence of [b]
    in [l]. *)
Definition precedes {A} (a b : A) (l : list A) : Prop :=
  exists l1 l2 l3, l = l1 ++ a :: l2 ++ b :: l3.

(** The events that carry a given time stamp. *)
Definition at_time (t : Z) (e : TimelineEvent.t) : bool :=
  TimelineEvent.timestamp e =? t.

(** A message-level event. *)
Definition is_message_event (e : TimelineEvent.t) : bool :=
  match TimelineEvent.type e with
  | user_message | assistant_message => true
  | _ => false
  end.

(** The part types that [createPartEvent] has a case for. *)
Definition recognized (p : Part.t) : bool :=
  match Part.type p with
  | tool | patch | reasoning | text => true
  | _ => false
  end.

(* ================================================================== *)
(** * Worked transcripts *)
(* ================================================================== *)

(** A parser that reads the agent and the model from the message and the
    text and the tool names from the parts. *)
Definition plainParser : MessageParser :=
  mkParser Message.mode Message.modelID
    (fun parts =>
       JS.join "" (map (fun p => JS.or_else (Part.text_content p) "") parts))
    (fun parts =>
       TaskTypeDetector.filter_truthy (map Part.tool_name parts)).

Definition messageAt (id : string) (r : Role) (created : Z) : Message.t :=
  Message.mk id r "test-session" None None None created.

Definition textPart (id messageID content : string) (created : option Z)
    : Part.t :=
  Part.mk id messageID text created None (Some content) None None.

Definition toolPart (id messageID toolName : string) (created : option Z)
    (input : Part.Input) : Part.t :=
  Part.mk id messageID tool created (Some toolName) None
    (Some (Part.mkState (Some "completed") None (Some input))) None.

Definition stepPart (id messageID : string) (ty : PartType) : Part.t :=
  Part.mk id messageID ty None None None None None.

Definition noInput : Part.Input := Part.mkInput None None None.

(** One message at 1000 with two text parts that carry no time of their
    own, between a step-start and a step-finish part. *)
Definition replyWithSteps : MessageWithParts.t :=
  MessageWithParts.mk (messageAt "msg_1" assistant 1000)
    (Some [ stepPart "prt_1" "msg_1" step_start;
            textPart "prt_2" "msg_1" "I will help you with that" None;
            textPart "prt_3" "msg_1" "Done" None;
            stepPart "prt_4" "msg_1" step_finish ]).

(** A part whose creation time is the number 0, in a message created at
    1000. *)
Definition partCreatedAtZero : Part.t :=
  textPart "prt_1" "msg_1" "hello" (Some 0).

(** A tool-call event as the evaluators' tests build it. *)
Definition toolCallEvent (toolName : string) (at_ : Z) : TimelineEvent.t :=
  TimelineEvent.mk at_ tool_call None None None None
    (Some (PartData (toolPart "prt" "msg" toolName None noInput))).

Definition messageEvent (ty : EventType) (content : string) (at_ : Z)
    : TimelineEvent.t :=
  TimelineEvent.mk at_ ty None None None None
    (Some (MessageData None [] (Some content) [])).

(** Timeline queries as [TimelineBuilder] has them, with an approval test
    that looks for a question mark. *)
Definition plainQueries : BaseQueries :=
  mkBase TimelineBuilder.getToolCalls
         TimelineBuilder.getAssistantMessages
         (fun timeline =>
            filter (fun e =>
                      match data_tool (TimelineEvent.data e) with
                      | Some t => String.eqb t "read"
                      | None => false
                      end)
                   (TimelineBuilder.getToolCalls timeline))
         (fun timeline toolName =>
            filter (fun e =>
                      match data_tool (TimelineEvent.data e) with
                      | Some t => String.eqb t toolName
                      | None => false
                      end)
                   (TimelineBuilder.getToolCalls timeline))
         (fun content => Regex.test false (Regex.Lit "?") content).

Definition sessionOne : SessionInfo.t :=
  SessionInfo.mk "test-session" "1.0" "Test Session" 1000 1000.

Definition clockFrom (start : Z) : Clock :=
  mkClock (fun n => start + Z.of_nat n) 0.

(** Following the spec: the classifier as an explicit, ordered list of
    (predicate, label) pairs over the lower-cased message text and the tool
    names, read with "first match wins". *)
Definition Rule : Type := (string -> list string -> bool) * TaskType.

Definition decisionList : list Rule :=
  let re r := fun (msg : string) (_ : list string) => Regex.test true r msg in
  [ (fun _ tools => JS.includes tools "task", delegation);
    (fun _ tools => TaskTypeDetector.hasOnlyReadTools tools, read_only);
    (fun _ tools =>
       TaskTypeDetector.hasBashOnly tools && (0 <? List.length tools)%nat,
     bash_only);
    (fun msg _ =>
       Regex.test true TaskTypeDetector.testsAuthoring msg
       || Regex.test true TaskTypeDetector.testRunners msg,
     tests);
    (re TaskTypeDetector.docsKeywords, docs);
    (re TaskTypeDetector.reviewKeywords, review);
    (re TaskTypeDetector.codeNouns, code);
    (fun msg tools =>
       Regex.test true TaskTypeDetector.createKeywords msg
       && negb (Regex.test true TaskTypeDetector.modifyKeywords msg)
       && Regex.test true TaskTypeDetector.fileKeywords msg
       && JS.includes tools "write",
     create_new_file);
    (re TaskTypeDetector.genericCodeKeywords, code);
    (fun msg tools =>
       Regex.test true TaskTypeDetector.modifyKeywords msg
       && (JS.includes tools "write" || JS.includes tools "edit"),
     modify_existing_file);
    (re TaskTypeDetector.deleteKeywords, delete_file);
    (fun _ tools => (List.length tools =? 0)%nat, conversational) ].

Fixpoint firstMatch (rules : list Rule) (msg : string) (tools : list string)
    : TaskType :=
  match rules with
  | [] => unknown
  | (applies, label) :: rest =>
      if applies msg tools then label else firstMatch rest msg tools
  end.

(** Following the spec: the arithmetic mean of a list of scores. *)
Definition sumQ (xs : list Q) : Q := fold_right Qplus (inject_Z 0) xs.

Definition mean (xs : list Q) : Q :=
  (sumQ xs / inject_Z (Z.of_nat (List.length xs)))%Q.

(** Following the spec: [z] is an integer nearest to [x]. *)
Definition nearest_integer (z : Z) (x : Q) : Prop :=
  (Qabs (inject_Z z - x) <= 1 # 2)%Q.

(** The mean in the arithmetic of the program: the scores are added from
    left to right and the sum is divided by their number, every operation
    rounded to a double. *)
Definition sum64 (xs : list Q) : Q := fold_left JS.add xs 0%Q.

Definition mean64 (xs : list Q) : Q :=
  JS.div (sum64 xs) (inject_Z (Z.of_nat (List.length xs))).

(** Following the spec: a score lies between 0 and 100.  A whole score is
    one that is an integer. *)
Definition in_range (x : Q) : Prop := (0 <= x <= 100)%Q.

Definition whole (x : Q) : Prop := (inject_Z (Qfloor x) == x)%Q.

(** Following the spec: the number of violations of a severity. *)
Fixpoint count_severity (s : Severity) (vs : list Violation.t) : nat :=
  match vs with
  | [] => 0%nat
  | v :: rest =>
      ((if Severity_eqb (Violation.severity v) s then 1 else 0)
       + count_severity s rest)%nat
  end.

(** The check that each declared constraint maps to, in the order the
    evaluator runs them.  A list constraint is declared when it is not
    empty, a bound when it is defined, a flag when it is [true]. *)
Definition declaredChecks (b : BehaviorExpectation.t) : list string :=
  let nonempty {A} (x : option (list A)) (name : string) :=
    match x with Some (_ :: _) => [name] | _ => [] end in
  let defined (x : option Z) (name : string) :=
    match x with Some _ => [name] | None => [] end in
  let set (x : option bool) (name : string) :=
    match x with Some true => [name] | _ => [] end in
  nonempty (BehaviorExpectation.mustUseTools b) "must-use-tools"
  ++ nonempty (BehaviorExpectation.mustUseAnyOf b) "must-use-any-of"
  ++ nonempty (BehaviorExpectation.mustNotUseTools b) "must-not-use-tools"
  ++ defined (BehaviorExpectation.minToolCalls b) "min-tool-calls"
  ++ defined (BehaviorExpectation.maxToolCalls b) "max-tool-calls"
  ++ set (BehaviorExpectation.requiresApproval b) "requires-approval"
  ++ set (BehaviorExpectation.requiresContext b) "requires-context"
  ++ set (BehaviorExpectation.shouldDelegate b) "should-delegate".

(** The violation type that reports a failed check. *)
Definition violationOfCheck : list (string * string) :=
  [ ("must-use-tools", "missing-required-tool");
    ("must-use-any-of", "missing-required-tool-set");
    ("must-not-use-tools", "forbidden-tool-used");
    ("min-tool-calls", "insufficient-tool-calls");
    ("max-tool-calls", "excessive-tool-calls");
    ("requires-approval", "missing-approval-request");
    ("requires-context", "missing-context-loading");
    ("should-delegate", "missing-delegation") ].

(** The severity the evaluator gives each violation type. *)
Definition severityOfViolation : list (string * Severity) :=
  [ ("missing-required-tool", error);
    ("missing-required-tool-set", error);
    ("forbidden-tool-used", error);
    ("insufficient-tool-calls", error);
    ("excessive-tool-calls", warning);
    ("missing-approval-request", error);
    ("missing-context-loading", error);
    ("missing-delegation", warning) ].

(** The names of the tools that the session called, as the evaluator reads
    them off the timeline. *)
Definition toolsCalled (base : BaseQueries) (timeline : list TimelineEvent.t)
    : list string :=
  BehaviorEvaluator.toolNames (getToolCalls base timeline).

Definition callCount (base : BaseQueries) (timeline : list TimelineEvent.t)
    : Z :=
  Z.of_nat (List.length (getToolCalls base timeline)).

(** Following the claim: when the session leaves a declared constraint
    unmet, by the name of the check of the constraint.  A required tool
    was not called; no alternative set of tools was called in full; a
    forbidden tool was called; the calls are fewer than the lower bound, or
    more than the upper bound; no message of the assistant asks for
    approval; no [read] call loads a context file; nothing was
    delegated. *)
Inductive unmet (base : BaseQueries) (b : BehaviorExpectation.t)
    (timeline : list TimelineEvent.t) : string -> Prop :=
  | required_tool_not_called (required : list string) (tool : string) :
      BehaviorExpectation.mustUseTools b = Some required ->
      In tool required -> ~ In tool (toolsCalled base timeline) ->
      unmet base b timeline "must-use-tools"
  | no_tool_set_called (sets : list (list string)) :
      BehaviorExpectation.mustUseAnyOf b = Some sets ->
      (forall toolSet, In toolSet sets ->
         exists tool,
           In tool toolSet /\ ~ In tool (toolsCalled base timeline)) ->
      unmet base b timeline "must-use-any-of"
  | forbidden_tool_called (forbidden : list string) (tool : string) :
      BehaviorExpectation.mustNotUseTools b = Some forbidden ->
      In tool forbidden -> In tool (toolsCalled base timeline) ->
      unmet base b timeline "must-not-use-tools"
  | too_few_calls (minimum : Z) :
      BehaviorExpectation.minToolCalls b = Some minimum ->
      callCount base timeline < minimum ->
      unmet base b timeline "min-tool-calls"
  | too_many_calls (maximum : Z) :
      BehaviorExpectation.maxToolCalls b = Some maximum ->
      maximum < callCount base timeline ->
      unmet base b timeline "max-tool-calls"
  | no_approval_asked :
      BehaviorExpectation.requiresApproval b = Some true ->
      (forall msg, In msg (getAssistantMessages base timeline) ->
         containsApprovalLanguage base
           (JS.or_else (JS.truthy_str (data_text (TimelineEvent.data msg)))
                       "") = false) ->
      unmet base b timeline "requires-approval"
  | no_context_read :
      BehaviorExpectation.requiresContext b = Some true ->
      (forall call pattern,
         In call (getReadTools base timeline) ->
         In pattern BehaviorEvaluator.contextPatterns ->
         Regex.test true pattern (BehaviorEvaluator.filePathOf call)
         = false) ->
      unmet base b timeline "requires-context"
  | nothing_delegated :
      BehaviorExpectation.shouldDelegate b = Some true ->
      getToolCallsByName base timeline "task" = [] ->
      unmet base b timeline "should-delegate".

(** A violation that reports a failed check of a list. *)
Definition reports (cs : list Check.t) (v : Violation.t) : Prop :=
  exists c, In c cs /\ Check.passed c = false
            /\ In (Check.name c, Violation.type v) violationOfCheck.

(** A step of [evaluate] that fails a check exactly when the constraint of
    the check is unmet, and appends no violation but for a check that it
    fails. *)
Definition decides (base : BaseQueries) (b : BehaviorExpectation.t)
    (timeline : list TimelineEvent.t)
    (step : BehaviorEvaluator.Acc -> BehaviorEvaluator.Acc) : Prop :=
  forall acc, exists cs vs,
    BehaviorEvaluator.checks (step acc)
    = (BehaviorEvaluator.checks acc ++ cs)%list
    /\ BehaviorEvaluator.violations (step acc)
       = (BehaviorEvaluator.violations acc ++ vs)%list
    /\ Forall (fun c => Check.passed c = false
                        <-> unmet base b timeline (Check.name c)) cs
    /\ Forall (reports cs) vs.

(** A violation without its time stamp. *)
Definition without_time (v : Violation.t) : Violation.t :=
  Violation.mk (Violation.type v) (Violation.severity v)
               (Violation.message v) 0 (Violation.evidence v).

(** A session for the runner: a request and a reply that writes a file. *)
Definition writeTranscript : list MessageWithParts.t :=
  [ MessageWithParts.mk (messageAt "msg_1" user 1000)
      (Some [textPart "prt_1" "msg_1" "Create a function in a new file"
               None]);
    MessageWithParts.mk (messageAt "msg_2" assistant 1100)
      (Some [toolPart "prt_2" "msg_2" "write" (Some 1200)
               (Part.mkInput (Some "/src/math.ts") None None)]) ].

Definition sdkReader : SessionReader.t :=
  SessionReader.mk
    (Some (mkSdk
             (fun id => if String.eqb id "ses_1"
                        then SdkData (Some sessionOne) else SdkData None)
             (fun id => if String.eqb id "ses_1"
                        then SdkData (Some writeTranscript)
                        else SdkData None)))
    (fun _ => NoSuchFile).

Definition noConstraint : BehaviorExpectation.t :=
  BehaviorExpectation.mk None None None None None None None None.

Definition gated (name : string) (b : BehaviorExpectation.t) : IEvaluator.t :=
  IEvaluator.mk name "gated rule"
    (fun timeline sessionInfo now =>
       let (result, now') :=
         GatedEvaluator.evaluate name
           (BehaviorEvaluator.evaluate plainQueries b)
           timeline sessionInfo now in
       (Returned result, now')).

(** An evaluator that passes with a given score, and a runner with two of
    them: the numbers 0.3 and 0.7. *)
Definition scoring (name : string) (score : Q) : IEvaluator.t :=
  IEvaluator.mk name "a fixed score"
    (fun timeline sessionInfo now =>
       (Returned (EvaluationResult.mk name true score [] [] None), now)).

Definition threeAndSevenTenths : EvaluatorRunner.t :=
  EvaluatorRunner.register
    (EvaluatorRunner.register
       (EvaluatorRunner.mk [] sdkReader plainParser)
       (scoring "first" (JS.round64 (3 # 10))))
    (scoring "second" (JS.round64 (7 # 10))).

(** A runner with three evaluators: the declared behaviour asks for a
    [read] call and at most no call at all. *)
Definition threeEvaluators : EvaluatorRunner.t :=
  EvaluatorRunner.register
    (EvaluatorRunner.register
       (EvaluatorRunner.register
          (EvaluatorRunner.mk [] sdkReader plainParser)
          (EvaluatorRunner.behaviorEvaluator plainQueries
             (BehaviorExpectation.mk (Some ["read"]) None None None
                (Some 0) None None None)))
       (gated "tool-usage" noConstraint))
    (gated "delegation" noConstraint).

(** What a step of [evaluate] appends: checks of the given names, and
    violations whose type and severity are in the table, at least one of
    the right type for each failed check. *)
Definition reported (c : Check.t) (vs : list Violation.t) : Prop :=
  Check.passed c = false ->
  exists v, In v vs /\ In (Check.name c, Violation.type v) violationOfCheck.

Definition tabled (v : Violation.t) : Prop :=
  In (Violation.type v, Violation.severity v) severityOfViolation.

Definition appends (names : list string) 
    (step : BehaviorEvaluator.Acc -> BehaviorEvaluator.Acc) : Prop :=
  forall acc, exists cs vs,
    BehaviorEvaluator.checks (step acc) = BehaviorEvaluator.checks acc ++ cs
    /\ BehaviorEvaluator.violations (step acc)
       = BehaviorEvaluator.violations acc ++ vs
    /\ map Check.name cs = names
    /\ Forall tabled vs
    /\ Forall (fun c => reported c vs) cs.

(** Two states of [evaluate] that differ at most in the clock and in the
    time stamps of the violations. *)
Definition same_but_time (a1 a2 : BehaviorEvaluator.Acc) : Prop :=
  BehaviorEvaluator.checks a1 = BehaviorEvaluator.checks a2
  /\ map without_time (BehaviorEvaluator.violations a1)
     = map without_time (BehaviorEvaluator.violations a2).

Definition clock_blind
    (step : BehaviorEvaluator.Acc -> BehaviorEvaluator.Acc) : Prop :=
  forall a1 a2, same_but_time a1 a2 -> same_but_time (step a1) (step a2).

(** A declared behaviour with a bound of no tool call and a required
    delegation, and one with a required [read]. *)
Definition noCallsAndDelegate : BehaviorExpectation.t :=
  BehaviorExpectation.mk None None None None (Some 0) None None (Some true).

Definition mustRead : BehaviorExpectation.t :=
  BehaviorExpectation.mk (Some ["read"]) None None None None None None None.


(* ================================================================== *)
(** * Vocabulary of the further statements *)
(* ================================================================== *)

(** The parts of a transcript, message by message. *)
Definition allParts (msgs : list MessageWithParts.t) : list Part.t :=
  flat_map (fun mw => JS.or_else (MessageWithParts.parts mw) []) msgs.

(** The tool parts of a transcript that name a given tool. *)
Definition toolPartsNamed (toolName : string)
    (msgs : list MessageWithParts.t) : list Part.t :=
  filter (fun p =>
            match Part.type p with
            | tool => TimelineTools.is_tool (Part.tool_name p) toolName
            | _ => false
            end)
         (allParts msgs).

(** An event that carries [data]. *)
Definition has_data (e : TimelineEvent.t) : bool :=
  match TimelineEvent.data e with Some _ => true | None => false end.

(** A violation that a rule expected to be violated accounts for. *)
Definition expected_by (evs : list TestCase.ExpectedViolation)
    (v : Violation.t) : Prop :=
  exists x patterns,
    In x evs
    /\ TestCase.shouldViolate x = Some true
    /\ TestRunner.patternsOf (TestCase.rule x) = Some patterns
    /\ TestRunner.matchesAny patterns v = true.

(** A string without the separator of [parseModel]. *)
Fixpoint no_slash (s : string) : bool :=
  match s with
  | EmptyString => true
  | String c rest => negb (Ascii.eqb c "/"%char) && no_slash rest
  end.

(** An evaluator that throws on every input. *)
Definition alwaysThrows (e : IEvaluator.t) : Prop :=
  forall timeline sessionInfo now,
    exists m now',
      IEvaluator.evaluate e timeline sessionInfo now = (Threw m, now').

Definition brokenEvaluator : IEvaluator.t :=
  IEvaluator.mk "broken" "throws"
    (fun _ _ now => (Threw "boom", now)).

(** A step of [evaluate] that adds no violation when the checks it adds
    all pass. *)
Definition quiet
    (step : BehaviorEvaluator.Acc -> BehaviorEvaluator.Acc) : Prop :=
  forall acc, exists cs vs,
    BehaviorEvaluator.checks (step acc) = BehaviorEvaluator.checks acc ++ cs
    /\ BehaviorEvaluator.violations (step acc)
       = BehaviorEvaluator.violations acc ++ vs
    /\ (forallb Check.passed cs = true -> vs = []).

(** The evaluation of the write transcript when the declared behaviour
    asks for a [read] call, and when it asks for nothing. *)
Definition readMissingEvaluation : AggregatedResult.t :=
  EvaluatorRunner.aggregateResults "ses_1" sessionOne
    [fst (BehaviorEvaluator.evaluate plainQueries mustRead
            (TimelineBuilder.timelineOf plainParser writeTranscript)
            sessionOne (clockFrom 5000))]
    5001.

Definition cleanEvaluation : AggregatedResult.t :=
  EvaluatorRunner.aggregateResults "ses_1" sessionOne
    [fst (BehaviorEvaluator.evaluate plainQueries noConstraint
            (TimelineBuilder.timelineOf plainParser writeTranscript)
            sessionOne (clockFrom 5000))]
    5000.

(** A reader that has the session on disk only. *)
Definition diskReader : SessionReader.t :=
  SessionReader.mk None
    (fun id => if String.eqb id "ses_1" then Parsed sessionOne
               else NoSuchFile).

(* ================================================================== *)
(** * Properties of the stable sort *)
(* ================================================================== *)

Section StableSort.

Context {A : Type}.
Variable key : A -> Z.

#[local] Abbreviation cmp := (fun a b : A => key a - key b).
#[local] Abbreviation ordered := (fun a b : A => key a <= key b).
#[local] Abbreviation at_key k := (fun a : A => key a =? k).

Lemma sort_insert_perm (x : A) (l : list A) :
  Permutation (JS.sort_insert cmp x l) (x :: l).
Proof.
  induction l as [|y l IH]; simpl.
  - apply Permutation_refl.
  - destruct (cmp x y <=? 0).
    + apply Permutation_refl.
    + apply perm_trans with (y :: x :: l).
      * now apply perm_skip.
      * apply perm_swap.
Qed.

Lemma Array_sort_perm (l : list A) : Permutation (JS.Array_sort cmp l) l.
Proof.
  induction l as [|x l IH]; simpl.
  - apply perm_nil.
  - eapply perm_trans; [apply sort_insert_perm|].
    now apply perm_skip.
Qed.

Lemma sort_insert_head (x z : A) (l : list A) :
  HdRel ordered z l -> ordered z x ->
  HdRel ordered z (JS.sort_insert cmp x l).
Proof.
  intros Hz Hzx.
  destruct l as [|y l]; simpl.
  - now constructor.
  - destruct (cmp x y <=? 0).
    + now constructor.
    + inversion Hz; subst. now constructor.
Qed.

Lemma sort_insert_sorted (x : A) (l : list A) :
  Sorted ordered l -> Sorted ordered (JS.sort_insert cmp x l).
Proof.
  induction 1 as [|y l Hs IH Hhd]; simpl.
  - repeat constructor.
  - destruct (cmp x y <=? 0) eqn:E.
    + constructor.
      * now constructor.
      * constructor. lia.
    + constructor; [exact IH|].
      apply sort_insert_head; [exact Hhd |].
      lia.
Qed.

Lemma Array_sort_sorted (l : list A) : Sorted ordered (JS.Array_sort cmp l).
Proof.
  induction l as [|x l IH]; simpl.
  - constructor.
  - now apply sort_insert_sorted.
Qed.

Lemma sorted_adjacent (l : list A) (d : A) :
  Sorted ordered l ->
  forall i, (S i < List.length l)%nat ->
  key (nth i l d) <= key (nth (S i) l d).
Proof.
  induction 1 as [|x l Hs IH Hhd]; intros i Hi; simpl in Hi.
  - lia.
  - destruct i as [|i].
    + destruct l as [|y l]; simpl in *; [lia|].
      now inversion Hhd.
    + change (key (nth i l d) <= key (nth (S i) l d)).
      apply IH. lia.
Qed.

(** Insertion leaves the order of the elements of equal key as it was. *)
Lemma sort_insert_stable (k : Z) (x : A) (l : list A) :
  filter (at_key k) (JS.sort_insert cmp x l) = filter (at_key k) (x :: l).
Proof.
  induction l as [|y l IH]; simpl; [reflexivity|].
  destruct (cmp x y <=? 0) eqn:E; simpl; [reflexivity|].
  simpl in IH. rewrite IH.
  destruct (key x =? k) eqn:Ex, (key y =? k) eqn:Ey; try reflexivity.
  lia.
Qed.

Lemma Array_sort_stable (k : Z) (l : list A) :
  filter (at_key k) (JS.Array_sort cmp l) = filter (at_key k) l.
Proof.
  induction l as [|x l IH]; simpl; [reflexivity|].
  rewrite sort_insert_stable. simpl. now rewrite IH.
Qed.

End StableSort.

(* ================================================================== *)
(** * Order of occurrence in a list *)
(* ================================================================== *)

Section Precedes.

Context {A : Type}.
Variable keep : A -> bool.

Lemma precedes_cons (x a b : A) (l : list A) :
  precedes a b l -> precedes a b (x :: l).
Proof.
  intros (l1 & l2 & l3 & ->). now exists (x :: l1), l2, l3.
Qed.

Lemma precedes_app_l (a b : A) (l0 l : list A) :
  precedes a b l -> precedes a b (l0 ++ l).
Proof.
  induction l0 as [|x l0 IH]; intros H; simpl; [exact H|].
  apply precedes_cons. now apply IH.
Qed.

Lemma precedes_app_r (a b : A) (l l0 : list A) :
  precedes a b l -> precedes a b (l ++ l0).
Proof.
  intros (l1 & l2 & l3 & ->). exists l1, l2, (l3 ++ l0).
  rewrite <- app_assoc. simpl. rewrite <- app_assoc. reflexivity.
Qed.

Lemma precedes_filter (a b : A) (l : list A) :
  keep a = true -> keep b = true ->
  precedes a b l -> precedes a b (filter keep l).
Proof.
  intros Ha Hb (l1 & l2 & l3 & ->).
  exists (filter keep l1), (filter keep l2), (filter keep l3).
  rewrite filter_app. simpl. rewrite Ha.
  rewrite filter_app. simpl. rewrite Hb. reflexivity.
Qed.

Lemma precedes_unfilter (a b : A) (l : list A) :
  precedes a b (filter keep l) -> precedes a b l.
Proof.
  induction l as [|x l IH]; simpl; intros H.
  - destruct H as (l1 & l2 & l3 & H). now destruct l1.
  - destruct (keep x) eqn:Ex.
    + destruct H as (l1 & l2 & l3 & H).
      destruct l1 as [|y l1]; simpl in H; injection H as -> H.
      * assert (Hb : In b l).
        { assert (Hin : In b (filter keep l))
            by (rewrite H; apply in_or_app; right; now left).
          now apply filter_In in Hin. }
        apply in_split in Hb. destruct Hb as (m1 & m2 & ->).
        now exists [], m1, m2.
      * apply precedes_cons, IH. now exists l1, l2, l3.
    + apply precedes_cons, IH, H.
Qed.

End Precedes.

(* ================================================================== *)
(** * The timeline *)
(* ================================================================== *)

Section Timeline.

Variable parser : MessageParser.

Import TimelineBuilder.

#[local] Abbreviation ts := TimelineEvent.timestamp.
#[local] Abbreviation partsOf mw := (JS.or_else (MessageWithParts.parts mw) []).
#[local] Abbreviation headOf mw :=
  (createMessageEvent parser (MessageWithParts.info mw) (partsOf mw)).

Lemma timelineOf_perm (msgs : list MessageWithParts.t) :
  Permutation (timelineOf parser msgs) (collectEvents parser msgs).
Proof. apply (Array_sort_perm TimelineEvent.timestamp). Qed.

Lemma timelineOf_sorted (msgs : list MessageWithParts.t) :
  Sorted (fun a b => ts a <= ts b) (timelineOf parser msgs).
Proof. apply (Array_sort_sorted TimelineEvent.timestamp). Qed.

Lemma timelineOf_stable (t : Z) (msgs : list MessageWithParts.t) :
  filter (at_time t) (timelineOf parser msgs)
  = filter (at_time t) (collectEvents parser msgs).
Proof. apply (Array_sort_stable TimelineEvent.timestamp). Qed.

Lemma partEvents_app (ps qs : list Part.t) (m : Message.t) :
  partEvents parser (ps ++ qs) m
  = partEvents parser ps m ++ partEvents parser qs m.
Proof.
  induction ps as [|p ps IH]; simpl; [reflexivity|].
  destruct (createPartEvent parser p m); simpl; now rewrite IH.
Qed.

Lemma collectEvents_app (ms ns : list MessageWithParts.t) :
  collectEvents parser (ms ++ ns)
  = collectEvents parser ms ++ collectEvents parser ns.
Proof. apply flat_map_app. Qed.

(** Two events emitted in this order keep it when their time stamps are
    equal. *)
Lemma same_time_order_kept (a b : TimelineEvent.t)
    (msgs : list MessageWithParts.t) :
  ts a = ts b ->
  precedes a b (collectEvents parser msgs) ->
  precedes a b (timelineOf parser msgs).
Proof.
  intros Hab H.
  apply (precedes_unfilter (at_time (ts a))).
  rewrite timelineOf_stable.
  apply precedes_filter; [| |exact H]; unfold at_time in *; lia.
Qed.

Lemma message_event_emitted_before_part
    (msgs : list MessageWithParts.t) (mw : MessageWithParts.t)
    (p : Part.t) (e : TimelineEvent.t) :
  In mw msgs -> In p (partsOf mw) ->
  createPartEvent parser p (MessageWithParts.info mw) = Some e ->
  precedes (headOf mw) e (collectEvents parser msgs).
Proof.
  intros Hmw Hp He.
  apply in_split in Hmw. destruct Hmw as (m1 & m2 & ->).
  apply in_split in Hp. destruct Hp as (p1 & p2 & Hp).
  rewrite collectEvents_app. apply precedes_app_l.
  change (collectEvents parser (mw :: m2))
    with (messageEvents parser mw ++ collectEvents parser m2).
  apply precedes_app_r.
  unfold messageEvents.
  rewrite Hp, partEvents_app. simpl. rewrite He.
  now exists [], (partEvents parser p1 (MessageWithParts.info mw)),
             (partEvents parser p2 (MessageWithParts.info mw)).
Qed.

Lemma part_events_emitted_in_order
    (msgs : list MessageWithParts.t) (mw : MessageWithParts.t)
    (ps1 ps2 ps3 : list Part.t) (p q : Part.t) (ep eq : TimelineEvent.t) :
  In mw msgs -> partsOf mw = ps1 ++ p :: ps2 ++ q :: ps3 ->
  createPartEvent parser p (MessageWithParts.info mw) = Some ep ->
  createPartEvent parser q (MessageWithParts.info mw) = Some eq ->
  precedes ep eq (collectEvents parser msgs).
Proof.
  intros Hmw Hps Hp Hq.
  apply in_split in Hmw. destruct Hmw as (m1 & m2 & ->).
  rewrite collectEvents_app. apply precedes_app_l.
  change (collectEvents parser (mw :: m2))
    with (messageEvents parser mw ++ collectEvents parser m2).
  apply precedes_app_r.
  unfold messageEvents. rewrite Hps.
  apply precedes_cons.
  rewrite partEvents_app. simpl. rewrite Hp.
  rewrite partEvents_app. simpl. rewrite Hq.
  now exists (partEvents parser ps1 (MessageWithParts.info mw)),
             (partEvents parser ps2 (MessageWithParts.info mw)),
             (partEvents parser ps3 (MessageWithParts.info mw)).
Qed.

(** C3.  The timeline of any list of messages with parts is in ascending
    order of time stamp ([events[i].timestamp <= events[i+1].timestamp] for
    every valid [i]); and among events of equal time stamp the event of a
    message comes before the events of its own parts, and the events of
    the parts of a message come in the order the parts are declared. *)
Theorem timeline_ordered_and_stable (msgs : list MessageWithParts.t) :
  let events := timelineOf parser msgs in
  (forall (d : TimelineEvent.t) (i : nat),
      (S i < List.length events)%nat ->
      TimelineEvent.timestamp (nth i events d)
      <= TimelineEvent.timestamp (nth (S i) events d))
  /\ (forall mw p e,
        In mw msgs ->
        In p (JS.or_else (MessageWithParts.parts mw) []) ->
        createPartEvent parser p (MessageWithParts.info mw) = Some e ->
        TimelineEvent.timestamp e
        = Message.time_created (MessageWithParts.info mw) ->
        precedes
          (createMessageEvent parser (MessageWithParts.info mw)
             (JS.or_else (MessageWithParts.parts mw) []))
          e events)
  /\ (forall mw ps1 p ps2 q ps3 ep eq,
        In mw msgs ->
        JS.or_else (MessageWithParts.parts mw) []
        = ps1 ++ p :: ps2 ++ q :: ps3 ->
        createPartEvent parser p (MessageWithParts.info mw) = Some ep ->
        createPartEvent parser q (MessageWithParts.info mw) = Some eq ->
        TimelineEvent.timestamp ep = TimelineEvent.timestamp eq ->
        precedes ep eq events).
Proof.
  intros events. split; [|split].
  - intros d i Hi.
    apply (sorted_adjacent TimelineEvent.timestamp); [|exact Hi].
    apply timelineOf_sorted.
  - intros mw p e Hmw Hp He Ht.
    apply same_time_order_kept.
    + rewrite Ht. reflexivity.
    + now apply message_event_emitted_before_part with (p := p).
  - intros mw ps1 p ps2 q ps3 ep eq Hmw Hps Hp Hq Ht.
    apply same_time_order_kept; [exact Ht|].
    now apply part_events_emitted_in_order
      with (mw := mw) (ps1 := ps1) (ps2 := ps2) (ps3 := ps3) (p := p) (q := q).
Qed.

End Timeline.

(** A reply at 1000 whose two text parts carry no time of their own: the
    message event comes first, then the parts in declaration order. *)
Lemma timeline_ordered_and_stable_witness :
  let events := TimelineBuilder.timelineOf plainParser [replyWithSteps] in
  let info := MessageWithParts.info replyWithSteps in
  exists e2 e3,
    TimelineBuilder.createPartEvent plainParser
      (textPart "prt_2" "msg_1" "I will help you with that" None) info
    = Some e2
    /\ TimelineBuilder.createPartEvent plainParser
         (textPart "prt_3" "msg_1" "Done" None) info
       = Some e3
    /\ TimelineEvent.timestamp (nth 0 events e2)
       <= TimelineEvent.timestamp (nth 1 events e2)
    /\ precedes
         (TimelineBuilder.createMessageEvent plainParser info
            (JS.or_else (MessageWithParts.parts replyWithSteps) []))
         e2 events
    /\ precedes e2 e3 events.
Proof.
  intros events info.
  destruct (timeline_ordered_and_stable plainParser [replyWithSteps])
    as (Hs & Hm & Hp).
  eexists. eexists.
  split; [reflexivity|]. split; [reflexivity|]. split; [|split].
  - apply Hs. simpl. lia.
  - apply Hm
      with (p := textPart "prt_2" "msg_1" "I will help you with that" None).
    + now left.
    + simpl. tauto.
    + reflexivity.
    + reflexivity.
  - apply Hp
      with (mw := replyWithSteps)
           (ps1 := [stepPart "prt_1" "msg_1" step_start])
           (p := textPart "prt_2" "msg_1" "I will help you with that" None)
           (ps2 := [])
           (q := textPart "prt_3" "msg_1" "Done" None)
           (ps3 := [stepPart "prt_4" "msg_1" step_finish]).
    + now left.
    + reflexivity.
    + reflexivity.
    + reflexivity.
    + reflexivity.
Defined.

(* ================================================================== *)
(** * Events per message and per part *)
(* ================================================================== *)

Section EventsEmitted.

Variable parser : MessageParser.

Import TimelineBuilder.

Lemma createPartEvent_recognized (p : Part.t) (m : Message.t) :
  recognized p = true ->
  exists e,
    createPartEvent parser p m = Some e
    /\ TimelineEvent.partId e = Some (Part.id p)
    /\ TimelineEvent.timestamp e
       = JS.or_else (JS.truthy_num (Part.time_created p))
                    (Message.time_created m).
Proof.
  unfold recognized, createPartEvent.
  destruct (Part.type p); intros H; try discriminate; eauto.
Qed.

Lemma createPartEvent_unrecognized (p : Part.t) (m : Message.t) :
  recognized p = false -> createPartEvent parser p m = None.
Proof.
  unfold recognized, createPartEvent.
  destruct (Part.type p); intros H; try discriminate; reflexivity.
Qed.

Lemma createPartEvent_not_message (p : Part.t) (m : Message.t)
    (e : TimelineEvent.t) :
  createPartEvent parser p m = Some e -> is_message_event e = false.
Proof.
  unfold createPartEvent, is_message_event.
  destruct (Part.type p); intros H; try discriminate;
    injection H as <-; reflexivity.
Qed.

Lemma createMessageEvent_is_message (m : Message.t) (ps : list Part.t) :
  is_message_event (createMessageEvent parser m ps) = true.
Proof.
  unfold is_message_event, createMessageEvent. simpl.
  now destruct (Message.role m).
Qed.

(** The time stamp of a part event: the part's own creation time when it
    is present and not 0, the creation time of the message otherwise. *)
Lemma part_event_timestamp (p : Part.t) (m : Message.t)
    (e : TimelineEvent.t) :
  createPartEvent parser p m = Some e ->
  TimelineEvent.timestamp e =
    match Part.time_created p with
    | Some c => if c =? 0 then Message.time_created m else c
    | None => Message.time_created m
    end.
Proof.
  unfold createPartEvent.
  destruct (Part.type p); intros H; try discriminate;
    injection H as <-; simpl;
    destruct (Part.time_created p) as [c|]; simpl; try reflexivity;
    destruct (c =? 0); reflexivity.
Qed.

Lemma partEvents_count (ps : list Part.t) (m : Message.t) :
  List.length (partEvents parser ps m) = List.length (filter recognized ps).
Proof.
  induction ps as [|p ps IH]; simpl; [reflexivity|].
  destruct (recognized p) eqn:R.
  - destruct (createPartEvent_recognized p m R) as (e & -> & _).
    simpl. now rewrite IH.
  - now rewrite (createPartEvent_unrecognized p m R).
Qed.

Lemma partEvents_no_message (ps : list Part.t) (m : Message.t) :
  filter is_message_event (partEvents parser ps m) = [].
Proof.
  induction ps as [|p ps IH]; simpl; [reflexivity|].
  destruct (createPartEvent parser p m) as [e|] eqn:E; [|exact IH].
  simpl. now rewrite (createPartEvent_not_message p m e E).
Qed.

Lemma filter_length_perm {A} (f : A -> bool) (l l' : list A) :
  Permutation l l' ->
  List.length (filter f l) = List.length (filter f l').
Proof.
  induction 1 as [|x l l' _ IH|x y l|l l' l'' _ IH1 _ IH2]; simpl.
  - reflexivity.
  - destruct (f x); simpl; now rewrite IH.
  - destruct (f x), (f y); reflexivity.
  - now rewrite IH1.
Qed.

(** One message-level event per message. *)
Lemma one_message_event_per_message (msgs : list MessageWithParts.t) :
  List.length (filter is_message_event (timelineOf parser msgs))
  = List.length msgs.
Proof.
  rewrite (filter_length_perm _ _ _ (timelineOf_perm parser msgs)).
  induction msgs as [|mw msgs IH]; simpl; [reflexivity|].
  rewrite createMessageEvent_is_message. simpl.
  rewrite filter_app, length_app, partEvents_no_message. simpl.
  now rewrite IH.
Qed.

Lemma partEvents_all_part_level (ps : list Part.t) (m : Message.t) :
  filter (fun e => negb (is_message_event e)) (partEvents parser ps m)
  = partEvents parser ps m.
Proof.
  induction ps as [|p ps IH]; simpl; [reflexivity|].
  destruct (createPartEvent parser p m) as [e|] eqn:E; [|exact IH].
  simpl. rewrite (createPartEvent_not_message p m e E). simpl.
  now rewrite IH.
Qed.

(** One part-level event per part of a recognized type, none for the
    others. *)
Lemma one_part_event_per_recognized_part (msgs : list MessageWithParts.t) :
  List.length
    (filter (fun e => negb (is_message_event e)) (timelineOf parser msgs))
  = List.length
      (filter recognized
         (flat_map (fun mw => JS.or_else (MessageWithParts.parts mw) [])
                   msgs)).
Proof.
  rewrite (filter_length_perm _ _ _ (timelineOf_perm parser msgs)).
  induction msgs as [|mw msgs IH]; simpl; [reflexivity|].
  rewrite createMessageEvent_is_message. simpl.
  rewrite !filter_app, !length_app, IH. f_equal.
  rewrite partEvents_all_part_level. apply partEvents_count.
Qed.

End EventsEmitted.

(** C4.  A part whose own creation time is present and equal to 0 does not
    get that time: its event carries the creation time of the message
    (1000 here), because [part.time?.created || message.time.created]
    takes 0 for absent. *)
Theorem part_created_at_zero_gets_message_time :
  Part.time_created partCreatedAtZero = Some 0
  /\ option_map TimelineEvent.timestamp
       (TimelineBuilder.createPartEvent plainParser partCreatedAtZero
          (messageAt "msg_1" assistant 1000))
     = Some 1000.
Proof. split; reflexivity. Qed.

(* ================================================================== *)
(** * The task classifier *)
(* ================================================================== *)

Section Classifier.

Import TaskTypeDetector.

#[local] Abbreviation lowered um := (Regex.toLowerCase (messageText um)).

Lemma detectTaskType_first_match (um : UserMessage)
    (timeline : list TimelineEvent.t) :
  detectTaskType um timeline
  = firstMatch decisionList (lowered um) (toolsOf timeline).
Proof.
  unfold detectTaskType, decisionList, firstMatch.
  repeat match goal with
         | |- (if ?c then _ else _) = (if ?c then _ else _) =>
             destruct c; [reflexivity|]
         end.
  reflexivity.
Qed.

Lemma includes_true (l : list string) (s : string) :
  JS.includes l s = true <-> In s l.
Proof.
  unfold JS.includes. rewrite existsb_exists. split.
  - intros (x & Hx & E). apply String.eqb_eq in E. now subst.
  - intros H. exists s. split; [exact H|apply String.eqb_refl].
Qed.

Lemma write_excludes_read_only (tools : list string) :
  JS.includes tools "write" = true -> hasOnlyReadTools tools = false.
Proof.
  intros H. apply includes_true in H.
  unfold hasOnlyReadTools.
  apply andb_false_iff. left. apply andb_false_iff. right.
  apply not_true_is_false. intros F.
  rewrite forallb_forall in F. specialize (F _ H). discriminate.
Qed.

Lemma write_excludes_bash_only (tools : list string) :
  JS.includes tools "write" = true -> hasBashOnly tools = false.
Proof.
  intros H. unfold hasBashOnly. rewrite H. simpl.
  now rewrite andb_false_r.
Qed.

(** C5.  The classifier is a decision list read in priority order, the
    first matching rule winning.  A session in which the [task] tool was
    called is classified [delegation] whatever the message says.  A message
    that names a function, class, component, method, module, interface,
    type or enum is never classified [create-new-file]: it is classified
    [code] as soon as no rule of higher priority matches, whatever creation
    verbs and file nouns it has; with a [write] call the rules of higher
    priority left are delegation and the tests, docs and review wordings. *)
Theorem classifier_is_priority_ordered :
  (forall um timeline,
      detectTaskType um timeline
      = firstMatch decisionList (lowered um) (toolsOf timeline))
  /\ (forall um timeline,
        JS.includes (toolsOf timeline) "task" = true ->
        detectTaskType um timeline = delegation)
  /\ (forall um timeline,
        Regex.test true codeNouns (lowered um) = true ->
        detectTaskType um timeline <> create_new_file)
  /\ (forall um timeline,
        Regex.test true codeNouns (lowered um) = true ->
        JS.includes (toolsOf timeline) "task" = false ->
        hasOnlyReadTools (toolsOf timeline) = false ->
        hasBashOnly (toolsOf timeline) = false ->
        Regex.test true testsAuthoring (lowered um) = false ->
        Regex.test true testRunners (lowered um) = false ->
        Regex.test true docsKeywords (lowered um) = false ->
        Regex.test true reviewKeywords (lowered um) = false ->
        detectTaskType um timeline = code)
  /\ (forall um timeline,
        Regex.test true codeNouns (lowered um) = true ->
        JS.includes (toolsOf timeline) "write" = true ->
        JS.includes (toolsOf timeline) "task" = false ->
        Regex.test true testsAuthoring (lowered um) = false ->
        Regex.test true testRunners (lowered um) = false ->
        Regex.test true docsKeywords (lowered um) = false ->
        Regex.test true reviewKeywords (lowered um) = false ->
        detectTaskType um timeline = code).
Proof.
  split; [exact detectTaskType_first_match|].
  split; [|split; [|split]].
  - intros um timeline H. unfold detectTaskType. now rewrite H.
  - intros um timeline H. unfold detectTaskType. rewrite H.
    repeat match goal with
           | |- (if ?c then _ else _) <> _ => destruct c; [discriminate|]
           end.
    discriminate.
  - intros um timeline Hn Ht Hro Hbo Ha Hr Hd Hv.
    unfold detectTaskType.
    rewrite Ht, Hro, Hbo, Ha, Hr, Hd, Hv, Hn. reflexivity.
  - intros um timeline Hn Hw Ht Ha Hr Hd Hv.
    unfold detectTaskType.
    rewrite Ht, (write_excludes_read_only _ Hw),
      (write_excludes_bash_only _ Hw), Ha, Hr, Hd, Hv, Hn.
    reflexivity.
Qed.

(** A review request in a session that called [task]; "Create a function
    in a new file" with a [write] call, which has a creation verb, a file
    noun and a code noun; "Add a class" with a [bash] and an [edit] call. *)
Lemma classifier_is_priority_ordered_witness :
  detectTaskType (UMString "Review the diff") [toolCallEvent "task" 1000]
  = delegation
  /\ detectTaskType (UMString "Create a function in a new file")
       [toolCallEvent "write" 1000]
     <> create_new_file
  /\ detectTaskType (UMString "Add a class")
       [toolCallEvent "bash" 1000; toolCallEvent "edit" 1100]
     = code
  /\ detectTaskType (UMString "Create a function in a new file")
       [toolCallEvent "write" 1000]
     = code.
Proof.
  destruct classifier_is_priority_ordered as (_ & H1 & H2 & H3 & H4).
  split; [|split; [|split]].
  - apply H1. reflexivity.
  - apply H2. reflexivity.
  - apply H3; reflexivity.
  - apply H4; reflexivity.
Defined.

End Classifier.

(* ================================================================== *)
(** * The applicability matrix *)
(* ================================================================== *)

Section Applicability.

Import TaskTypeDetector.

(** Every row of the matrix has an entry for each of the twelve task
    types, so the second default is not reached through [matrix]. *)
Lemma matrix_rows_are_total (evaluatorName : string) (row : Row)
    (taskType : TaskType) :
  rowOf matrix evaluatorName = Some row -> entryOf row taskType <> None.
Proof.
  unfold matrix. simpl.
  repeat match goal with
         | |- (if ?c then _ else _) = _ -> _ => destruct c
         end;
    intros H; try discriminate; injection H as <-;
    destruct taskType; discriminate.
Qed.

(** C10.  The look-up defaults to applicable.  For an evaluator name that
    has no row in the matrix, [getEvaluatorApplicability] returns
    [{applicable: true}] without a reason for every task type; and where a
    row exists but has no entry for the task type, the look-up over that
    matrix returns the same default. *)
Theorem applicability_defaults_to_applicable :
  (forall evaluatorName taskType,
      rowOf matrix evaluatorName = None ->
      getEvaluatorApplicability evaluatorName taskType
      = mkApplicability true None)
  /\ (forall (m : Matrix) evaluatorName row taskType,
        rowOf m evaluatorName = Some row ->
        entryOf row taskType = None ->
        applicabilityIn m evaluatorName taskType
        = mkApplicability true None).
Proof.
  split.
  - intros evaluatorName taskType H.
    unfold getEvaluatorApplicability, applicabilityIn. now rewrite H.
  - intros m evaluatorName row taskType Hrow Hentry.
    unfold applicabilityIn. now rewrite Hrow, Hentry.
Qed.

(** The report-first evaluator has no row; a row for [code] alone has no
    entry for [docs]. *)
Lemma applicability_defaults_to_applicable_witness :
  getEvaluatorApplicability "report-first" conversational
  = mkApplicability true None
  /\ applicabilityIn [("approval-gate", [(code, no "Not for code")])]
       "approval-gate" docs
     = mkApplicability true None.
Proof.
  destruct applicability_defaults_to_applicable as (H1 & H2).
  split.
  - apply H1. reflexivity.
  - apply H2 with (row := [(code, no "Not for code")]); reflexivity.
Defined.

(** C6.  For every pair of an evaluator name and a task type that the
    matrix marks inapplicable, an evaluator gated by the look-up returns,
    on every timeline classified with that task type, a result with no
    violation, [passed = true] and [metadata.skipped = true]. *)
Theorem inapplicable_evaluator_is_skipped
    (evaluatorName : string) (taskType : TaskType)
    (rules : list TimelineEvent.t -> SessionInfo.t -> Clock ->
             EvaluationResult.t * Clock)
    (timeline : list TimelineEvent.t) (sessionInfo : SessionInfo.t)
    (now : Clock) :
  applicable (getEvaluatorApplicability evaluatorName taskType) = false ->
  detectTaskType (GatedEvaluator.firstUserMessage timeline) timeline
  = taskType ->
  let result :=
    fst (GatedEvaluator.evaluate evaluatorName rules timeline sessionInfo
           now) in
  EvaluationResult.violations result = []
  /\ EvaluationResult.passed result = true
  /\ jfield (EvaluationResult.metadata result) "skipped" = Some (JBool true)
  /\ EvaluationResult.evaluator result = evaluatorName.
Proof.
  intros Hno Htype. unfold GatedEvaluator.evaluate.
  rewrite Htype, Hno. simpl. repeat split; reflexivity.
Qed.

End Applicability.

(** The conversational session of the framework's own tests, under the
    context-loading evaluator. *)
Lemma inapplicable_evaluator_is_skipped_witness :
  let timeline :=
    [ messageEvent user_message "What is the capital of France?" 1000;
      messageEvent assistant_message "The capital of France is Paris." 1500 ]
  in
  let result :=
    fst (GatedEvaluator.evaluate "context-loading"
           (BehaviorEvaluator.evaluate plainQueries
              (BehaviorExpectation.mk None None None None None None
                 (Some true) None))
           timeline sessionOne (clockFrom 2000)) in
  EvaluationResult.violations result = []
  /\ EvaluationResult.passed result = true
  /\ jfield (EvaluationResult.metadata result) "skipped" = Some (JBool true)
  /\ EvaluationResult.evaluator result = "context-loading"%string.
Proof.
  intros timeline.
  apply (inapplicable_evaluator_is_skipped "context-loading" conversational);
    reflexivity.
Defined.

(* ================================================================== *)
(** * The runner: a missing session *)
(* ================================================================== *)

Section MissingSession.

Import EvaluatorRunner.

(** When the reader cannot resolve a session: no SDK answer and no
    parsable file on disk. *)
Lemma getSessionInfo_none (reader : SessionReader.t) (sessionId : string) :
  SessionReader.getSessionInfo reader sessionId = None <->
  (match SessionReader.sdkClient reader with
   | Some client =>
       match session_get client sessionId with
       | SdkData (Some _) => False
       | _ => True
       end
   | None => True
   end
   /\ match SessionReader.findSessionFile reader sessionId with
      | Parsed _ => False
      | _ => True
      end).
Proof.
  unfold SessionReader.getSessionInfo.
  destruct (SessionReader.sdkClient reader) as [client|];
    [destruct (session_get client sessionId) as [|[info|]]|];
    destruct (SessionReader.findSessionFile reader sessionId);
    split; intros H; try discriminate; try reflexivity;
    try tauto; destruct H; tauto.
Qed.

(** C7.  When the session reader cannot resolve the session,
    [runEvaluators] (with or without evaluator names) and [runAll] throw
    "Session not found" and return no aggregated result; no evaluator is
    run and the clock is not read. *)
Theorem missing_session_is_fatal (runner : EvaluatorRunner.t)
    (sessionId : string) (evaluatorNames : option (list string))
    (now : Clock) :
  SessionReader.getSessionInfo (sessionReader runner) sessionId = None ->
  runEvaluators runner sessionId evaluatorNames now
  = (Threw ("Session not found: " ++ sessionId)%string, now)
  /\ runAll runner sessionId now
     = (Threw ("Session not found: " ++ sessionId)%string, now)
  /\ (forall result now',
        runAll runner sessionId now <> (Returned result, now')).
Proof.
  intros H. unfold runAll, runEvaluators. rewrite H.
  repeat split. intros result now'. discriminate.
Qed.

End MissingSession.

(** A reader without SDK client and without session files, and a runner
    with one evaluator registered. *)
Lemma missing_session_is_fatal_witness :
  let reader := SessionReader.mk None (fun _ => NoSuchFile) in
  let runner :=
    EvaluatorRunner.register
      (EvaluatorRunner.mk [] reader plainParser)
      (EvaluatorRunner.behaviorEvaluator plainQueries
         (BehaviorExpectation.mk None None None None None None None None)) in
  EvaluatorRunner.runAll runner "ses_nonexistent_12345" (clockFrom 2000)
  = (Threw "Session not found: ses_nonexistent_12345", clockFrom 2000).
Proof.
  intros reader runner.
  apply (missing_session_is_fatal runner "ses_nonexistent_12345" None).
  reflexivity.
Defined.

(** The declared-behaviour evaluator is applicable to every task type. *)
Lemma behavior_is_always_applicable (taskType : TaskType) :
  applicable
    (TaskTypeDetector.getEvaluatorApplicability BehaviorEvaluator.name
       taskType) = true.
Proof. destruct taskType; reflexivity. Qed.

(* ================================================================== *)
(** * Rounding to a double *)
(* ================================================================== *)

Section Doubles.

Lemma two_pos (z : Z) : (0 < 2 ^ z)%Q.
Proof. apply Qpower_0_lt. reflexivity. Qed.

Lemma two_inject (z : Z) : 0 <= z -> (2 ^ z == inject_Z (2 ^ z))%Q.
Proof. intros Hz. now rewrite Zpower_Qpower. Qed.

Lemma exponent_le (x : Q) : ~ (x == 0)%Q -> (2 ^ JS.exponent x <= Qabs x)%Q.
Proof.
  intros Hx. unfold JS.exponent.
  set (a := Z.abs (Qnum x)). set (b := Zpos (Qden x)).
  set (e := Z.log2 a - Z.log2 b).
  destruct (Qle_bool (2 ^ e) (Qabs x)) eqn:E.
  - now apply Qle_bool_iff.
  - assert (Ha : 0 < a).
    { unfold a. destruct x as [n d]. unfold Qeq in Hx. simpl in *. lia. }
    assert (Hb : 0 < b) by (unfold b; lia).
    pose proof (Z.log2_spec a Ha) as (Hal & _).
    pose proof (Z.log2_spec b Hb) as (_ & Hbu).
    pose proof (Z.log2_nonneg a) as Hla. pose proof (Z.log2_nonneg b) as Hlb.
    replace (e - 1) with (Z.log2 a - Z.succ (Z.log2 b)) by (unfold e; lia).
    rewrite Qpower_minus by discriminate.
    rewrite !two_inject by lia.
    assert (Habs : (Qabs x == inject_Z a / inject_Z b)%Q).
    { destruct x as [n d]. unfold a, b. simpl. apply Qmake_Qdiv. }
    rewrite Habs.
    apply Qle_shift_div_l.
    { change 0%Q with (inject_Z 0). rewrite <- Zlt_Qlt. exact Hb. }
    unfold Qdiv. rewrite <- Qmult_assoc, (Qmult_comm (/ _)), Qmult_assoc.
    apply Qle_shift_div_r.
    { change 0%Q with (inject_Z 0). rewrite <- Zlt_Qlt. lia. }
    rewrite <- !inject_Z_mult, <- Zle_Qle. nia.
Qed.

Lemma exponent_lt (x : Q) (E : Z) :
  ~ (x == 0)%Q -> (Qabs x < 2 ^ E)%Q -> JS.exponent x < E.
Proof.
  intros Hx Hlt.
  destruct (Z_lt_le_dec (JS.exponent x) E) as [H|H]; [exact H|exfalso].
  pose proof (exponent_le x Hx) as Hle.
  pose proof (Qpower_le_compat_l 2 E (JS.exponent x) H) as Hm.
  assert (H1 : (1 <= 2)%Q) by (unfold Qle; simpl; lia).
  specialize (Hm H1). lra.
Qed.

Lemma quantum_le (x : Q) (E : Z) :
  ~ (x == 0)%Q -> (Qabs x < 2 ^ E)%Q -> -1022 < E -> JS.quantum x <= E - 53.
Proof.
  intros Hx Hlt HE. pose proof (exponent_lt x E Hx Hlt). unfold JS.quantum. lia.
Qed.

Lemma roundHalfEven_le (x : Q) (j : Z) :
  (x <= inject_Z j)%Q -> JS.roundHalfEven x <= j.
Proof.
  intros H. unfold JS.roundHalfEven.
  pose proof (Qfloor_le x) as Hf. pose proof (Qlt_floor x) as Hl.
  rewrite inject_Z_plus in Hl. change (inject_Z 1) with 1%Q in Hl.
  assert (Hj : Qfloor x <= j).
  { rewrite Zle_Qle. now apply Qle_trans with x. }
  destruct (Z.eq_dec (Qfloor x) j) as [Heq|Hne].
  - assert (Hc : (x - inject_Z (Qfloor x) ?= 1 # 2)%Q = Lt).
    { apply (proj1 (Qlt_alt _ _)). rewrite Heq. lra. }
    rewrite Hc. lia.
  - assert (Qfloor x + 1 <= j) by lia.
    destruct (x - inject_Z (Qfloor x) ?= 1 # 2)%Q;
      [destruct (Z.even _)| |]; lia.
Qed.

Lemma roundHalfEven_ge (x : Q) (j : Z) :
  (inject_Z j <= x)%Q -> j <= JS.roundHalfEven x.
Proof.
  intros H. unfold JS.roundHalfEven.
  assert (Hj : j <= Qfloor x).
  { rewrite <- (Qfloor_Z j). now apply Qfloor_resp_le. }
  destruct (x - inject_Z (Qfloor x) ?= 1 # 2)%Q;
    [destruct (Z.even _)| |]; lia.
Qed.

Lemma roundHalfEven_error (x : Q) :
  (Qabs (inject_Z (JS.roundHalfEven x) - x) <= 1 # 2)%Q.
Proof.
  unfold JS.roundHalfEven.
  pose proof (Qfloor_le x) as Hf. pose proof (Qlt_floor x) as Hl.
  rewrite inject_Z_plus in Hl. change (inject_Z 1) with 1%Q in Hl.
  apply Qabs_Qle_condition.
  destruct (x - inject_Z (Qfloor x) ?= 1 # 2)%Q eqn:E.
  - apply (proj2 (Qeq_alt _ _)) in E.
    destruct (Z.even (Qfloor x)); [|rewrite inject_Z_plus;
      change (inject_Z 1) with 1%Q]; split; lra.
  - apply (proj2 (Qlt_alt _ _)) in E. split; lra.
  - apply (proj2 (Qgt_alt _ _)) in E. rewrite inject_Z_plus.
    change (inject_Z 1) with 1%Q. split; lra.
Qed.

Lemma round64_zero (x : Q) : (x == 0)%Q -> (JS.round64 x == 0)%Q.
Proof.
  intros H. unfold JS.round64.
  apply Qeq_bool_iff in H. now rewrite H.
Qed.

Lemma round64_value (x : Q) :
  ~ (x == 0)%Q ->
  (JS.round64 x
   == inject_Z (JS.roundHalfEven (x / 2 ^ JS.quantum x)) * 2 ^ JS.quantum x)%Q.
Proof.
  intros H. unfold JS.round64.
  destruct (Qeq_bool x 0) eqn:E; [apply Qeq_bool_iff in E; contradiction|].
  apply Qred_correct.
Qed.

(** Rounding does not cross a multiple of the unit in the last place. *)
Lemma round64_le (x : Q) (j : Z) :
  ~ (x == 0)%Q ->
  (x <= inject_Z j * 2 ^ JS.quantum x)%Q ->
  (JS.round64 x <= inject_Z j * 2 ^ JS.quantum x)%Q.
Proof.
  intros Hx H. rewrite round64_value by exact Hx.
  pose proof (two_pos (JS.quantum x)) as Hp.
  apply Qmult_le_compat_r; [|lra].
  rewrite <- Zle_Qle. apply roundHalfEven_le.
  apply Qle_shift_div_r; [exact Hp|exact H].
Qed.

Lemma round64_ge (x : Q) (j : Z) :
  ~ (x == 0)%Q ->
  (inject_Z j * 2 ^ JS.quantum x <= x)%Q ->
  (inject_Z j * 2 ^ JS.quantum x <= JS.round64 x)%Q.
Proof.
  intros Hx H. rewrite round64_value by exact Hx.
  pose proof (two_pos (JS.quantum x)) as Hp.
  apply Qmult_le_compat_r; [|lra].
  rewrite <- Zle_Qle. apply roundHalfEven_ge.
  apply Qle_shift_div_l; [exact Hp|exact H].
Qed.

Lemma round64_error (x : Q) :
  ~ (x == 0)%Q ->
  (Qabs (JS.round64 x - x) <= (1 # 2) * 2 ^ JS.quantum x)%Q.
Proof.
  intros Hx. rewrite round64_value by exact Hx.
  pose proof (two_pos (JS.quantum x)) as Hp.
  set (u := (2 ^ JS.quantum x)%Q) in *.
  pose proof (roundHalfEven_error (x / u)) as He.
  set (k := inject_Z (JS.roundHalfEven (x / u))) in *.
  assert (Hd : (k * u - x == (k - x / u) * u)%Q) by (field; lra).
  rewrite Hd, Qabs_Qmult, (Qabs_pos u) by lra.
  apply Qmult_le_compat_r; lra.
Qed.

Lemma dyadic_multiple (N d c : Z) :
  c <= d -> (inject_Z N * 2 ^ d == inject_Z (N * 2 ^ (d - c)) * 2 ^ c)%Q.
Proof.
  intros H. rewrite inject_Z_mult, <- two_inject by lia.
  rewrite <- Qmult_assoc, <- Qpower_plus by discriminate.
  now replace (d - c + c) with d by lia.
Qed.

Lemma round64_below (x : Q) (N d : Z) :
  (Qabs x < 2 ^ (d + 53))%Q -> -1075 < d ->
  (x <= inject_Z N * 2 ^ d)%Q -> (JS.round64 x <= inject_Z N * 2 ^ d)%Q.
Proof.
  intros Hx Hd H.
  destruct (Qeq_dec x 0) as [H0|H0].
  - rewrite (round64_zero x H0). lra.
  - pose proof (quantum_le x (d + 53) H0 Hx ltac:(lia)) as Hc.
    rewrite (dyadic_multiple N d (JS.quantum x)) in * by lia.
    now apply round64_le.
Qed.

Lemma round64_above (x : Q) (N d : Z) :
  (Qabs x < 2 ^ (d + 53))%Q -> -1075 < d ->
  (inject_Z N * 2 ^ d <= x)%Q -> (inject_Z N * 2 ^ d <= JS.round64 x)%Q.
Proof.
  intros Hx Hd H.
  destruct (Qeq_dec x 0) as [H0|H0].
  - rewrite (round64_zero x H0). lra.
  - pose proof (quantum_le x (d + 53) H0 Hx ltac:(lia)) as Hc.
    rewrite (dyadic_multiple N d (JS.quantum x)) in * by lia.
    now apply round64_ge.
Qed.

Lemma round64_below_integer (x : Q) (N : Z) :
  (Qabs x < 2 ^ 53)%Q -> (x <= inject_Z N)%Q ->
  (JS.round64 x <= inject_Z N)%Q.
Proof.
  intros Hx H. pose proof (round64_below x N 0 Hx ltac:(lia)) as G.
  change (2 ^ 0)%Q with 1%Q in G. rewrite Qmult_1_r in G. now apply G.
Qed.

Lemma round64_above_integer (x : Q) (N : Z) :
  (Qabs x < 2 ^ 53)%Q -> (inject_Z N <= x)%Q ->
  (inject_Z N <= JS.round64 x)%Q.
Proof.
  intros Hx H. pose proof (round64_above x N 0 Hx ltac:(lia)) as G.
  change (2 ^ 0)%Q with 1%Q in G. rewrite Qmult_1_r in G. now apply G.
Qed.

Lemma round64_close (x : Q) (E : Z) :
  (Qabs x < 2 ^ E)%Q -> -1022 < E ->
  (Qabs (JS.round64 x - x) <= 2 ^ (E - 54))%Q.
Proof.
  intros Hx HE.
  destruct (Qeq_dec x 0) as [H0|H0].
  - assert (Hz : (JS.round64 x - x == 0)%Q)
      by (rewrite (round64_zero x H0); lra).
    rewrite Hz. simpl. apply Qlt_le_weak, two_pos.
  - pose proof (quantum_le x E H0 Hx HE) as Hc.
    eapply Qle_trans; [now apply round64_error|].
    replace (E - 54) with (-1 + (E - 53)) by lia.
    rewrite Qpower_plus by discriminate.
    change (2 ^ (-1))%Q with (1 # 2)%Q.
    apply Qmult_le_l; [reflexivity|].
    apply Qpower_le_compat_l; [exact Hc|]. unfold Qle; simpl; lia.
Qed.

Lemma below_two_to (x : Q) (N E : Z) :
  (0 <= x <= inject_Z N)%Q -> N < 2 ^ E -> 0 <= E -> (Qabs x < 2 ^ E)%Q.
Proof.
  intros (Hl & Hu) HN HE. rewrite Qabs_pos by exact Hl.
  rewrite two_inject by exact HE.
  eapply Qle_lt_trans; [exact Hu|]. now rewrite <- Zlt_Qlt.
Qed.

Lemma whole_eq (x y : Q) : (x == y)%Q -> whole x -> whole y.
Proof.
  unfold whole. intros H Hx. rewrite <- (Qfloor_comp _ _ H), Hx. exact H.
Qed.

Lemma whole_plus (x y : Q) : whole x -> whole y -> whole (x + y).
Proof.
  unfold whole. intros Hx Hy.
  assert (H : (x + y == inject_Z (Qfloor x + Qfloor y))%Q)
    by (rewrite inject_Z_plus, Hx, Hy; reflexivity).
  rewrite (Qfloor_comp _ _ H), Qfloor_Z. now rewrite H.
Qed.

(** One addition of a score keeps the running sum between 0 and 100 times
    the number of scores added, and misses the exact sum by 2^-15 at
    most. *)
Lemma add_step (start s : Q) (k : Z) :
  (0 <= start <= inject_Z (100 * k))%Q -> in_range s -> 0 <= k < 2 ^ 32 ->
  (0 <= JS.add start s <= inject_Z (100 * (k + 1)))%Q
  /\ (Qabs (JS.add start s - (start + s)) <= 2 ^ (-15))%Q.
Proof.
  intros (Hl & Hu) (Hsl & Hsu) Hk. unfold JS.add.
  assert (Hx : (0 <= start + s <= inject_Z (100 * (k + 1)))%Q).
  { replace (100 * (k + 1)) with (100 * k + 100) by lia.
    rewrite inject_Z_plus. change (inject_Z 100) with 100%Q. split; lra. }
  assert (H39 : (Qabs (start + s) < 2 ^ 39)%Q).
  { apply below_two_to with (100 * (k + 1)); [exact Hx| |lia].
    change (2 ^ 39) with 549755813888. change (2 ^ 32) with 4294967296 in Hk.
    lia. }
  assert (H53 : (Qabs (start + s) < 2 ^ 53)%Q).
  { eapply Qlt_le_trans; [exact H39|].
    apply Qpower_le_compat_l; [lia|]. unfold Qle; simpl; lia. }
  split; [split|].
  - apply (round64_above_integer _ 0 H53). apply Hx.
  - apply (round64_below_integer _ _ H53). apply Hx.
  - apply (round64_close _ 39 H39). lia.
Qed.

Lemma sum_fold_bounds (xs : list Q) (start : Q) (k : Z) :
  Forall in_range xs ->
  (0 <= start <= inject_Z (100 * k))%Q -> 0 <= k ->
  k + Z.of_nat (List.length xs) <= 2 ^ 32 ->
  (0 <= fold_left JS.add xs start
   <= inject_Z (100 * (k + Z.of_nat (List.length xs))))%Q
  /\ (Qabs (fold_left JS.add xs start - (start + sumQ xs))
      <= inject_Z (Z.of_nat (List.length xs)) * 2 ^ (-15))%Q.
Proof.
  intros Hall. revert start k.
  induction Hall as [|s xs Hs _ IH]; intros start k Hst Hk Hn.
  - cbn [fold_left List.length]. change (Z.of_nat 0) with 0.
    replace (k + 0) with k by lia. split; [exact Hst|].
    change (sumQ []) with 0%Q. change (inject_Z 0) with 0%Q.
    apply Qabs_Qle_condition. split; lra.
  - simpl fold_left.
    assert (Hlen : Z.of_nat (List.length (s :: xs))
                   = 1 + Z.of_nat (List.length xs))
      by (simpl List.length; lia).
    rewrite Hlen in *.
    destruct (add_step start s k Hst Hs ltac:(lia)) as (Hb & He).
    destruct (IH (JS.add start s) (k + 1) Hb ltac:(lia) ltac:(lia))
      as (IHb & IHe).
    replace (k + (1 + Z.of_nat (List.length xs)))
      with (k + 1 + Z.of_nat (List.length xs)) by lia.
    split; [exact IHb|].
    change (sumQ (s :: xs)) with (s + sumQ xs)%Q.
    rewrite inject_Z_plus. change (inject_Z 1) with 1%Q.
    set (F := fold_left JS.add xs (JS.add start s)) in *.
    set (e := (2 ^ (-15))%Q) in *.
    set (n := inject_Z (Z.of_nat (List.length xs))) in *.
    apply Qabs_Qle_condition in He. apply Qabs_Qle_condition in IHe.
    apply Qabs_Qle_condition. split; lra.
Qed.

Lemma whole_sum_exact (xs : list Q) (start : Q) (k : Z) :
  Forall in_range xs -> Forall whole xs -> whole start ->
  (0 <= start <= inject_Z (100 * k))%Q -> 0 <= k ->
  k + Z.of_nat (List.length xs) <= 2 ^ 32 ->
  (fold_left JS.add xs start == start + sumQ xs)%Q
  /\ whole (start + sumQ xs).
Proof.
  intros Hall Hw. revert start k.
  induction Hall as [|s xs Hs Hall IH]; intros start k Hws Hst Hk Hn.
  - cbn [fold_left]. change (sumQ []) with 0%Q. split; [ring|].
    apply whole_eq with start; [ring|exact Hws].
  - inversion Hw as [|? ? Hw1 Hw2]; subst.
    simpl fold_left.
    assert (Hlen : Z.of_nat (List.length (s :: xs))
                   = 1 + Z.of_nat (List.length xs))
      by (simpl List.length; lia).
    rewrite Hlen in *.
    destruct (add_step start s k Hst Hs ltac:(lia)) as (Hb & _).
    assert (Hexact : (JS.add start s == start + s)%Q).
    { unfold whole in Hws, Hw1.
      assert (Hx : (start + s == inject_Z (Qfloor start + Qfloor s))%Q)
        by (rewrite inject_Z_plus, Hws, Hw1; reflexivity).
      destruct Hst as (Hl & Hu). destruct Hs as (Hsl & Hsu).
      assert (H53 : (Qabs (start + s) < 2 ^ 53)%Q).
      { apply below_two_to with (100 * (k + 1)); [| |lia].
        - replace (100 * (k + 1)) with (100 * k + 100) by lia.
          rewrite inject_Z_plus. change (inject_Z 100) with 100%Q.
          split; lra.
        - change (2 ^ 53) with 9007199254740992.
          change (2 ^ 32) with 4294967296 in *. lia. }
      apply Qle_antisym; unfold JS.add.
      - rewrite Hx at 2. apply round64_below_integer; [exact H53|].
        rewrite Hx. apply Qle_refl.
      - rewrite Hx at 1. apply round64_above_integer; [exact H53|].
        rewrite Hx. apply Qle_refl. }
    assert (Hwn : whole (JS.add start s)).
    { apply whole_eq with (start + s)%Q; [now symmetry|].
      now apply whole_plus. }
    destruct (IH Hw2 (JS.add start s) (k + 1) Hwn Hb ltac:(lia) ltac:(lia))
      as (IHe & IHw).
    change (sumQ (s :: xs)) with (s + sumQ xs)%Q.
    split.
    + rewrite IHe, Hexact. ring.
    + apply whole_eq with (JS.add start s + sumQ xs)%Q; [|exact IHw].
      rewrite Hexact. ring.
Qed.

End Doubles.

(* ================================================================== *)
(** * The mean of scores in the arithmetic of the program *)
(* ================================================================== *)

(** The scores lie between 0 and 100 and there are fewer than [2^32] of
    them, as in an array. *)
Section Means.

Variable xs : list Q.
Hypothesis nonempty : xs <> [].
Hypothesis scores : Forall in_range xs.
Hypothesis array : Z.of_nat (List.length xs) < 2 ^ 32.

#[local] Abbreviation n := (inject_Z (Z.of_nat (List.length xs))).

Lemma count_positive : (1 <= n)%Q.
Proof.
  change 1%Q with (inject_Z 1). rewrite <- Zle_Qle.
  destruct xs; [congruence|simpl List.length; lia].
Qed.

Lemma sum64_facts :
  (0 <= sum64 xs <= 100 * n)%Q
  /\ (Qabs (sum64 xs - sumQ xs) <= n * 2 ^ (-15))%Q.
Proof.
  destruct (sum_fold_bounds xs 0 0 scores) as (Hb & He).
  - change (inject_Z (100 * 0)) with 0%Q. split; apply Qle_refl.
  - lia.
  - lia.
  - fold (sum64 xs) in Hb, He. split.
    + replace (100 * (0 + Z.of_nat (List.length xs)))
        with (100 * Z.of_nat (List.length xs)) in Hb by lia.
      rewrite inject_Z_mult in Hb. exact Hb.
    + assert (Hz : (sum64 xs - sumQ xs == sum64 xs - (0 + sumQ xs))%Q)
        by ring.
      rewrite Hz. exact He.
Qed.

Lemma quotient_facts :
  (0 <= sum64 xs / n <= 100)%Q /\ (Qabs (sum64 xs / n) < 2 ^ 7)%Q.
Proof.
  destruct sum64_facts as ((Hl & Hu) & _). pose proof count_positive as Hn.
  assert (Hq : (0 <= sum64 xs / n <= 100)%Q).
  { split.
    - apply Qle_shift_div_l; lra.
    - apply Qle_shift_div_r; lra. }
  split; [exact Hq|].
  apply below_two_to with 100; [exact Hq|reflexivity|lia].
Qed.

Lemma mean64_bounds : (0 <= mean64 xs <= 100)%Q.
Proof.
  destruct quotient_facts as ((Hl & Hu) & H7). unfold mean64, JS.div.
  assert (H53 : (Qabs (sum64 xs / n) < 2 ^ 53)%Q).
  { eapply Qlt_le_trans; [exact H7|].
    apply Qpower_le_compat_l; [lia|]. unfold Qle; simpl; lia. }
  split.
  - now apply (round64_above_integer _ 0 H53).
  - now apply (round64_below_integer _ 100 H53).
Qed.

Lemma mean64_close : (Qabs (mean64 xs - mean xs) <= 1 # 16384)%Q.
Proof.
  destruct sum64_facts as (_ & He). destruct quotient_facts as (_ & H7).
  pose proof count_positive as Hn.
  pose proof (round64_close _ 7 H7 ltac:(lia)) as Hr.
  fold (JS.div (sum64 xs) n) in Hr. fold (mean64 xs) in Hr.
  change (2 ^ (7 - 54))%Q with (1 # 140737488355328)%Q in Hr.
  change (2 ^ (-15))%Q with (1 # 32768)%Q in He.
  assert (Hd : (Qabs (sum64 xs / n - mean xs) <= 1 # 32768)%Q).
  { unfold mean.
    assert (Hz : (sum64 xs / n - sumQ xs / n == (sum64 xs - sumQ xs) / n)%Q)
      by (field; lra).
    rewrite Hz. unfold Qdiv. rewrite Qabs_Qmult.
    rewrite (Qabs_pos (/ n)) by (apply Qlt_le_weak, Qinv_lt_0_compat; lra).
    apply Qle_shift_div_r; [lra|]. rewrite Qmult_comm. exact He. }
  apply Qabs_Qle_condition in Hr. apply Qabs_Qle_condition in Hd.
  apply Qabs_Qle_condition. split; lra.
Qed.

Lemma rounded_mean64_near_mean :
  (Qabs (inject_Z (JS.Math_round (mean64 xs)) - mean xs)
   <= (1 # 2) + (1 # 16384))%Q.
Proof.
  pose proof mean64_close as Hc. unfold JS.Math_round.
  pose proof (Qfloor_le (mean64 xs + (1 # 2))) as Hle.
  pose proof (Qlt_floor (mean64 xs + (1 # 2))) as Hlt.
  rewrite inject_Z_plus in Hlt. change (inject_Z 1) with 1%Q in Hlt.
  apply Qabs_Qle_condition in Hc.
  apply Qabs_Qle_condition. split; lra.
Qed.

Hypothesis wholes : Forall whole xs.

Lemma sum64_whole : (sum64 xs == sumQ xs)%Q /\ whole (sumQ xs).
Proof.
  destruct (whole_sum_exact xs 0 0 scores wholes) as (He & Hw).
  - reflexivity.
  - change (inject_Z (100 * 0)) with 0%Q. split; apply Qle_refl.
  - lia.
  - lia.
  - fold (sum64 xs) in He. split.
    + rewrite He. ring.
    + apply whole_eq with (0 + sumQ xs)%Q; [ring|exact Hw].
Qed.

Lemma rounded_mean_of_whole_scores :
  JS.Math_round (mean64 xs) = JS.Math_round (mean xs).
Proof.
  destruct sum64_whole as (Hs & Hw). pose proof count_positive as Hn.
  destruct quotient_facts as (_ & H7).
  assert (Hq : (sum64 xs / n == mean xs)%Q) by (unfold mean; now rewrite Hs).
  set (q := mean xs) in *.
  set (k := JS.Math_round q).
  assert (Hk : (inject_Z k <= q + (1 # 2) < inject_Z k + 1)%Q).
  { unfold k, JS.Math_round. split; [apply Qfloor_le|].
    pose proof (Qlt_floor (q + (1 # 2))) as H.
    rewrite inject_Z_plus in H. exact H. }
  destruct Hk as (Hkl & Hku).
  pose proof (round64_close _ 7 H7 ltac:(lia)) as Hr.
  fold (JS.div (sum64 xs) n) in Hr. fold (mean64 xs) in Hr.
  change (2 ^ (7 - 54))%Q with (1 # 140737488355328)%Q in Hr.
  apply Qabs_Qle_condition in Hr.
  assert (H52 : (Qabs (sum64 xs / n) < 2 ^ (-1 + 53))%Q).
  { eapply Qlt_le_trans; [exact H7|].
    apply Qpower_le_compat_l; [lia|]. unfold Qle; simpl; lia. }
  (* the lower half-integer is a double: rounding does not cross it *)
  assert (Hlow : (inject_Z k - (1 # 2) <= mean64 xs)%Q).
  { pose proof (round64_above _ (2 * k - 1) (-1) H52 ltac:(lia)) as G.
    change (2 ^ (-1))%Q with (1 # 2)%Q in G.
    assert (Hh : (inject_Z (2 * k - 1) * (1 # 2) == inject_Z k - (1 # 2))%Q).
    { unfold Qeq, Qminus, Qplus, Qmult, Qopp, inject_Z. cbn [Qnum Qden].
      lia. }
    rewrite Hh in G. apply G. rewrite Hq. lra. }
  (* the exact mean stays 1/(2n) below the upper half-integer *)
  assert (Hgap : (q + 1 / (2 * n) <= inject_Z k + (1 # 2))%Q).
  { unfold whole in Hw. set (S := Qfloor (sumQ xs)) in *.
    set (m := Z.of_nat (List.length xs)) in *.
    assert (Hm : 0 < m)
      by (rewrite Zlt_Qlt; change (inject_Z 0) with 0%Q; lra).
    assert (Hqs : (q == inject_Z S / inject_Z m)%Q)
      by (unfold q, mean; fold m; now rewrite Hw).
    assert (Hint : 2 * S + 1 <= (2 * k + 1) * m).
    { assert (Hlt : 2 * S < (2 * k + 1) * m).
      { rewrite Zlt_Qlt. rewrite !inject_Z_mult, inject_Z_plus, inject_Z_mult.
        change (inject_Z 2) with 2%Q. change (inject_Z 1) with 1%Q.
        assert (Hmul : (inject_Z S == q * inject_Z m)%Q)
          by (rewrite Hqs; field; lra).
        rewrite Hmul. nra. }
      lia. }
    rewrite Zle_Qle in Hint.
    rewrite inject_Z_plus, !inject_Z_mult, inject_Z_plus, inject_Z_mult
      in Hint.
    change (inject_Z 2) with 2%Q in Hint. change (inject_Z 1) with 1%Q in Hint.
    rewrite Hqs.
    assert (Hz : (inject_Z S / inject_Z m + 1 / (2 * inject_Z m)
                  == (2 * inject_Z S + 1) / (2 * inject_Z m))%Q)
      by (field; lra).
    rewrite Hz. apply Qle_shift_div_r; [lra|]. nra. }
  assert (Hsmall : ((1 # 140737488355328) < 1 / (2 * n))%Q).
  { apply Qlt_shift_div_l; [lra|].
    assert (Hn32 : (n < 4294967296)%Q).
    { change 4294967296%Q with (inject_Z (2 ^ 32)). now rewrite <- Zlt_Qlt. }
    lra. }
  unfold JS.Math_round at 1. fold k.
  apply Z.le_antisymm.
  - assert (H : Qfloor (mean64 xs + (1 # 2)) < k + 1); [|lia].
    rewrite Zlt_Qlt, inject_Z_plus. change (inject_Z 1) with 1%Q.
    eapply Qle_lt_trans; [apply Qfloor_le|]. rewrite Hq in Hr. lra.
  - rewrite <- (Qfloor_Z k). apply Qfloor_resp_le. lra.
Qed.

End Means.

(* ================================================================== *)
(** * The runner: aggregation *)
(* ================================================================== *)

Section Aggregation.

Import EvaluatorRunner.

Lemma runEach_nonempty (slots : list Slot) (timeline : list TimelineEvent.t)
    (sessionInfo : SessionInfo.t) (now now' : Clock)
    (results : list EvaluationResult.t) :
  runEach slots timeline sessionInfo now = (Returned results, now') ->
  List.length results = List.length slots.
Proof.
  revert now now' results.
  induction slots as [|slot slots IH]; intros now now' results; simpl.
  - intros H. injection H as <- _. reflexivity.
  - destruct slot as [evaluator|]; [|discriminate].
    destruct (IEvaluator.evaluate evaluator timeline sessionInfo now)
      as [[result|m] now1]; [|discriminate].
    destruct (runEach slots timeline sessionInfo now1)
      as [[rest|m] now2] eqn:E; [|discriminate].
    intros H. injection H as <- _. simpl. f_equal.
    now apply IH with now1 now2.
Qed.

(** A run that completes returns the aggregate of at least one result. *)
Lemma completed_run (runner : EvaluatorRunner.t) (sessionId : string)
    (evaluatorNames : option (list string)) (now now' : Clock)
    (aggregated : AggregatedResult.t) :
  runEvaluators runner sessionId evaluatorNames now
  = (Returned aggregated, now') ->
  exists sessionInfo results stamp,
    results <> []
    /\ SessionReader.getSessionInfo (sessionReader runner) sessionId
       = Some sessionInfo
    /\ aggregated = aggregateResults sessionId sessionInfo results stamp.
Proof.
  unfold runEvaluators.
  destruct (SessionReader.getSessionInfo (sessionReader runner) sessionId)
    as [sessionInfo|]; [|discriminate].
  set (slots := match evaluatorNames with
                | Some names => selected (registry runner) names
                | None => getEvaluators runner
                end).
  destruct (JS.maxArrayLength <? Z.of_nat (List.length slots));
    [discriminate|].
  destruct (List.length slots =? 0)%nat eqn:Elen; [discriminate|].
  destruct (runEach slots _ sessionInfo now) as [[results|m] now1] eqn:Erun;
    [|discriminate].
  simpl. intros H. injection H as <- _.
  exists sessionInfo, results, (readings now1 (ticks now1)).
  repeat split.
  apply runEach_nonempty in Erun.
  intros ->. simpl in Erun. rewrite <- Erun in Elen. discriminate.
Qed.

(** The results of a run that completes fit an array. *)
Lemma completed_run_is_array (runner : EvaluatorRunner.t)
    (sessionId : string) (evaluatorNames : option (list string))
    (now now' : Clock) (aggregated : AggregatedResult.t) :
  runEvaluators runner sessionId evaluatorNames now
  = (Returned aggregated, now') ->
  Z.of_nat (List.length (AggregatedResult.evaluatorResults aggregated))
  < 2 ^ 32.
Proof.
  unfold runEvaluators.
  destruct (SessionReader.getSessionInfo (sessionReader runner) sessionId)
    as [sessionInfo|]; [|discriminate].
  set (slots := match evaluatorNames with
                | Some names => selected (registry runner) names
                | None => getEvaluators runner
                end).
  destruct (JS.maxArrayLength <? Z.of_nat (List.length slots)) eqn:Earr;
    [discriminate|].
  destruct (List.length slots =? 0)%nat; [discriminate|].
  destruct (runEach slots _ sessionInfo now) as [[results|m] now1] eqn:Erun;
    [|discriminate].
  simpl. intros H. injection H as <- _. simpl.
  rewrite (runEach_nonempty _ _ _ _ _ _ Erun).
  unfold JS.maxArrayLength in Earr. change (2 ^ 32) with 4294967296. lia.
Qed.

Lemma weightedScore_is_sum64 (results : list EvaluationResult.t)
    (start : Q) :
  fold_left (fun sum result => JS.add sum (EvaluationResult.score result))
    results start
  = fold_left JS.add (map EvaluationResult.score results) start.
Proof.
  revert start. induction results as [|r results IH]; intros start; simpl;
    [reflexivity|apply IH].
Qed.

Lemma Math_round_nearest (x : Q) : nearest_integer (JS.Math_round x) x.
Proof.
  unfold nearest_integer, JS.Math_round.
  pose proof (Qfloor_le (x + (1 # 2))) as Hle.
  pose proof (Qlt_floor (x + (1 # 2))) as Hlt.
  rewrite inject_Z_plus in Hlt.
  change (inject_Z 1) with 1%Q in Hlt.
  apply Qabs_Qle_condition. split; lra.
Qed.

Lemma aggregate_score (sessionId : string) (sessionInfo : SessionInfo.t)
    (results : list EvaluationResult.t) (stamp : Z) :
  results <> [] ->
  AggregatedResult.overallScore
    (aggregateResults sessionId sessionInfo results stamp)
  = JS.Math_round (mean64 (map EvaluationResult.score results)).
Proof.
  intros Hne. unfold aggregateResults. simpl.
  destruct results as [|r results]; [congruence|].
  change (0 <? List.length (r :: results))%nat with true. cbv iota.
  unfold mean64, sum64. now rewrite weightedScore_is_sum64, length_map.
Qed.

(** C1.  In the aggregated result of every run that completes,
    [overallPassed] is the conjunction of the [passed] flags of the
    evaluator results.  When the scores lie between 0 and 100,
    [overallScore] is the mean of the scores as the program computes it -
    the scores added from left to right and the sum divided by their
    number, every operation rounded to a double - rounded to the nearest
    integer, a tie going up; it lies within 1/2 + 1/16384 of the exact
    arithmetic mean; and when every score is a whole number it is the
    exact arithmetic mean rounded to the nearest integer. *)
Theorem overall_verdict_of_completed_run (runner : EvaluatorRunner.t)
    (sessionId : string) (evaluatorNames : option (list string))
    (now now' : Clock) (aggregated : AggregatedResult.t) :
  runEvaluators runner sessionId evaluatorNames now
  = (Returned aggregated, now') ->
  let results := AggregatedResult.evaluatorResults aggregated in
  let scores := map EvaluationResult.score results in
  let overall := AggregatedResult.overallScore aggregated in
  (AggregatedResult.overallPassed aggregated = true <->
     forall r, In r results -> EvaluationResult.passed r = true)
  /\ (Forall in_range scores ->
      overall = JS.Math_round (mean64 scores)
      /\ nearest_integer overall (mean64 scores)
      /\ (Qabs (inject_Z overall - mean scores) <= (1 # 2) + (1 # 16384))%Q
      /\ (Forall whole scores ->
          overall = JS.Math_round (mean scores)
          /\ nearest_integer overall (mean scores))).
Proof.
  intros Hrun.
  pose proof (completed_run_is_array _ _ _ _ _ _ Hrun) as Harr.
  destruct (completed_run _ _ _ _ _ _ Hrun)
    as (sessionInfo & results & stamp & Hne & _ & ->).
  cbn zeta.
  change (AggregatedResult.evaluatorResults
            (aggregateResults sessionId sessionInfo results stamp))
    with results in *.
  split.
  - unfold aggregateResults. simpl. apply forallb_forall.
  - intros Hrange. rewrite aggregate_score by exact Hne.
    set (scores := map EvaluationResult.score results) in *.
    assert (Hs : scores <> [])
      by (unfold scores; destruct results; [congruence|discriminate]).
    assert (Hn : Z.of_nat (List.length scores) < 2 ^ 32)
      by (unfold scores; now rewrite length_map).
    split; [reflexivity|]. split; [apply Math_round_nearest|].
    split; [now apply rounded_mean64_near_mean|].
    intros Hwhole.
    rewrite (rounded_mean_of_whole_scores scores Hs Hrange Hn Hwhole).
    split; [reflexivity|apply Math_round_nearest].
Qed.

Lemma flat_map_length {A B} (f : A -> list B) (l : list A) :
  List.length (flat_map f l)
  = list_sum (map (fun x => List.length (f x)) l).
Proof.
  induction l as [|x l IH]; simpl; [reflexivity|].
  now rewrite length_app, IH.
Qed.

Lemma countSeverity_count (s : Severity) (vs : list Violation.t) :
  countSeverity s vs = count_severity s vs.
Proof.
  unfold countSeverity.
  induction vs as [|v vs IH]; simpl; [reflexivity|].
  destruct (Severity_eqb (Violation.severity v) s); simpl; now rewrite IH.
Qed.

(** C2.  In the aggregated result of every run that completes,
    [totalViolations] is the sum over the evaluator results of the lengths
    of their violation lists, and for each severity the count in
    [violationsBySeverity] is the number of violations of that severity in
    [allViolations]. *)
Theorem violation_counts_of_completed_run (runner : EvaluatorRunner.t)
    (sessionId : string) (evaluatorNames : option (list string))
    (now now' : Clock) (aggregated : AggregatedResult.t) :
  runEvaluators runner sessionId evaluatorNames now
  = (Returned aggregated, now') ->
  let results := AggregatedResult.evaluatorResults aggregated in
  let counts := AggregatedResult.violationsBySeverity aggregated in
  let everything := AggregatedResult.allViolations aggregated in
  AggregatedResult.totalViolations aggregated
  = list_sum
      (map (fun r => List.length (EvaluationResult.violations r)) results)
  /\ SeverityCounts.error counts = count_severity error everything
  /\ SeverityCounts.warning counts = count_severity warning everything
  /\ SeverityCounts.info counts = count_severity info everything
  /\ everything = flat_map EvaluationResult.violations results.
Proof.
  intros Hrun.
  destruct (completed_run _ _ _ _ _ _ Hrun)
    as (sessionInfo & results & stamp & _ & _ & ->).
  unfold aggregateResults. simpl.
  rewrite !countSeverity_count.
  repeat split. apply flat_map_length.
Qed.

End Aggregation.

(** The request to create a function, answered by a [write] call, under
    three evaluators with the scores 0, 100 and 100. *)
Lemma overall_verdict_of_completed_run_witness :
  exists aggregated now',
    EvaluatorRunner.runAll threeEvaluators "ses_1" (clockFrom 5000)
    = (Returned aggregated, now')
    /\ AggregatedResult.overallScore aggregated
       = JS.Math_round
           (mean (map EvaluationResult.score
                      (AggregatedResult.evaluatorResults aggregated)))
    /\ AggregatedResult.overallScore aggregated = 67
    /\ AggregatedResult.overallPassed aggregated = false.
Proof.
  unfold EvaluatorRunner.runAll.
  destruct (EvaluatorRunner.runEvaluators threeEvaluators "ses_1" None
              (clockFrom 5000)) as [[aggregated|m] now'] eqn:E.
  - exists aggregated, now'. split; [reflexivity|]. split.
    + destruct (overall_verdict_of_completed_run _ _ _ _ _ _ E)
        as (_ & H).
      vm_compute in E. injection E as <- _.
      apply H.
      * repeat constructor; unfold Qle; simpl; lia.
      * repeat constructor.
    + vm_compute in E. injection E as <- _. split; reflexivity.
  - vm_compute in E. discriminate.
Defined.

(** The scores 0.3 and 0.7: the doubles of these two numbers add up to 1
    exactly, so the program takes the mean to be 1/2 and reports 1, while
    the mean of the two doubles is below 1/2 and the nearest integer is
    0. *)
Lemma sum_rounded_up_to_a_tie :
  exists aggregated now',
    EvaluatorRunner.runAll threeAndSevenTenths "ses_1" (clockFrom 5000)
    = (Returned aggregated, now')
    /\ let scores :=
         map EvaluationResult.score
             (AggregatedResult.evaluatorResults aggregated) in
       Forall in_range scores
       /\ (mean scores < 1 # 2)%Q
       /\ JS.Math_round (mean scores) = 0
       /\ AggregatedResult.overallScore aggregated = 1
       /\ ~ nearest_integer (AggregatedResult.overallScore aggregated)
                            (mean scores).
Proof.
  unfold EvaluatorRunner.runAll.
  destruct (EvaluatorRunner.runEvaluators threeAndSevenTenths "ses_1" None
              (clockFrom 5000)) as [[aggregated|m] now'] eqn:E;
    vm_compute in E; [|discriminate].
  exists aggregated, now'. split; [reflexivity|].
  injection E as <- _. cbn zeta.
  split; [repeat constructor; unfold Qle; simpl; lia|].
  split; [reflexivity|]. split; [reflexivity|]. split; [reflexivity|].
  unfold nearest_integer. intros H. vm_compute in H. now apply H.
Qed.

Lemma violation_counts_of_completed_run_witness :
  exists aggregated now',
    EvaluatorRunner.runAll threeEvaluators "ses_1" (clockFrom 5000)
    = (Returned aggregated, now')
    /\ AggregatedResult.totalViolations aggregated
       = list_sum
           (map (fun r => List.length (EvaluationResult.violations r))
                (AggregatedResult.evaluatorResults aggregated))
    /\ AggregatedResult.totalViolations aggregated = 2%nat
    /\ AggregatedResult.violationsBySeverity aggregated
       = SeverityCounts.mk 1 1 0.
Proof.
  unfold EvaluatorRunner.runAll.
  destruct (EvaluatorRunner.runEvaluators threeEvaluators "ses_1" None
              (clockFrom 5000)) as [[aggregated|m] now'] eqn:E.
  - exists aggregated, now'. split; [reflexivity|]. split.
    + apply (violation_counts_of_completed_run _ _ _ _ _ _ E).
    + vm_compute in E. injection E as <- _. split; reflexivity.
  - vm_compute in E. discriminate.
Defined.

(* ================================================================== *)
(** * The declared-behaviour evaluator *)
(* ================================================================== *)

Section Behavior.

Import BehaviorEvaluator.
Import BaseEvaluator.

Variable base : BaseQueries.

Lemma appends_nothing : appends [] (fun acc => acc).
Proof.
  intros acc. exists [], []. rewrite !app_nil_r. repeat split; constructor.
Qed.

Lemma reported_after (c : Check.t) (vs ws : list Violation.t) :
  reported c vs -> reported c (ws ++ vs).
Proof.
  intros H F. destruct (H F) as (v & Hv & Ht).
  exists v. split; [apply in_or_app; auto | exact Ht].
Qed.

Lemma reported_before (c : Check.t) (vs ws : list Violation.t) :
  reported c vs -> reported c (vs ++ ws).
Proof.
  intros H F. destruct (H F) as (v & Hv & Ht).
  exists v. split; [apply in_or_app; auto | exact Ht].
Qed.

Lemma appends_then (n1 n2 : list string) (f g : Acc -> Acc) :
  appends n1 f -> appends n2 g -> appends (n1 ++ n2) (fun acc => g (f acc)).
Proof.
  intros Hf Hg acc.
  destruct (Hf acc) as (cs1 & vs1 & Hc1 & Hv1 & Hn1 & Ht1 & Hr1).
  destruct (Hg (f acc)) as (cs2 & vs2 & Hc2 & Hv2 & Hn2 & Ht2 & Hr2).
  exists (cs1 ++ cs2), (vs1 ++ vs2).
  rewrite Hc2, Hc1, Hv2, Hv1, !app_assoc, map_app, Hn1, Hn2.
  repeat split.
  - apply Forall_app. now split.
  - apply Forall_app. split.
    + eapply Forall_impl; [|exact Hr1].
      intros c H. now apply reported_before.
    + eapply Forall_impl; [|exact Hr2].
      intros c H. now apply reported_after.
Qed.

Lemma pushViolation_appends (ty : string) (sev : Severity) (msg : string)
    (ev : Json) (acc : Acc) :
  checks (pushViolation ty sev msg ev acc) = checks acc
  /\ violations (pushViolation ty sev msg ev acc)
     = violations acc
       ++ [Violation.mk ty sev msg (readings (clock acc) (ticks (clock acc)))
             ev].
Proof. split; reflexivity. Qed.

(** A single check guarded by [if (!passed)]. *)
Lemma guarded_check_appends (passed : bool) (name ty : string)
    (sev : Severity) (msg : string) (ev : Json) (w : Z)
    (evidence : list Evidence.t) :
  In (ty, sev) severityOfViolation ->
  In (name, ty) violationOfCheck ->
  appends [name]
    (fun acc =>
       pushCheck (Check.mk name passed w evidence)
         (unless passed (pushViolation ty sev msg ev) acc)).
Proof.
  intros Hsev Hty acc.
  destruct passed; simpl.
  - exists [Check.mk name true w evidence], [].
    rewrite app_nil_r.
    split; [reflexivity|]. split; [reflexivity|]. split; [reflexivity|].
    split; [constructor|].
    constructor; [|constructor]. intros F. discriminate.
  - eexists [Check.mk name false w evidence], [_].
    split; [reflexivity|]. split; [reflexivity|]. split; [reflexivity|].
    split.
    + constructor; [exact Hsev|constructor].
    + constructor; [|constructor].
      intros _. eexists. split; [now left|exact Hty].
Qed.

Lemma reportMissing_appends (f : Facts) (required : list string) (acc : Acc) :
  exists vs,
    checks (reportMissing f required acc) = checks acc
    /\ violations (reportMissing f required acc) = violations acc ++ vs
    /\ Forall (fun v => Violation.type v = "missing-required-tool"%string
                        /\ Violation.severity v = error) vs
    /\ List.length vs = List.length (missingRequired f required).
Proof.
  revert acc. induction required as [|tool_ required IH]; intros acc; simpl.
  - exists []. rewrite app_nil_r.
    split; [reflexivity|]. split; [reflexivity|]. split; [constructor|].
    reflexivity.
  - destruct (JS.includes (toolsUsed f) tool_); simpl.
    + apply IH.
    + match goal with
      | |- context [reportMissing f required ?a] =>
          destruct (IH a) as (vs & Hc & Hv & Ht & Hl)
      end.
      eexists (_ :: vs). rewrite Hc, Hv. simpl. rewrite <- app_assoc.
      split; [reflexivity|]. split; [reflexivity|]. split.
      * constructor; [split; reflexivity|exact Ht].
      * simpl. now rewrite Hl.
Qed.

Lemma reportForbidden_appends (f : Facts) (forbidden : list string)
    (acc : Acc) :
  exists vs,
    checks (reportForbidden f forbidden acc) = checks acc
    /\ violations (reportForbidden f forbidden acc) = violations acc ++ vs
    /\ Forall (fun v => Violation.type v = "forbidden-tool-used"%string
                        /\ Violation.severity v = error) vs
    /\ List.length vs = List.length (forbiddenUsed f forbidden).
Proof.
  revert acc. induction forbidden as [|tool_ forbidden IH]; intros acc; simpl.
  - exists []. rewrite app_nil_r.
    split; [reflexivity|]. split; [reflexivity|]. split; [constructor|].
    reflexivity.
  - destruct (JS.includes (toolsUsed f) tool_); simpl.
    + match goal with
      | |- context [reportForbidden f forbidden ?a] =>
          destruct (IH a) as (vs & Hc & Hv & Ht & Hl)
      end.
      eexists (_ :: vs). rewrite Hc, Hv. simpl. rewrite <- app_assoc.
      split; [reflexivity|]. split; [reflexivity|]. split.
      * constructor; [split; reflexivity|exact Ht].
      * simpl. now rewrite Hl.
    + apply IH.
Qed.

(** A check over a list of tools: one violation per offending tool. *)
Lemma listed_check_appends (name ty : string) (offending : nat)
    (w : Z) (evidence : list Evidence.t) (report : Acc -> Acc) :
  In (ty, error) severityOfViolation ->
  In (name, ty) violationOfCheck ->
  (forall acc, exists vs,
      checks (report acc) = checks acc
      /\ violations (report acc) = violations acc ++ vs
      /\ Forall (fun v => Violation.type v = ty
                          /\ Violation.severity v = error) vs
      /\ List.length vs = offending) ->
  appends [name]
    (fun acc =>
       pushCheck (Check.mk name (offending =? 0)%nat w evidence)
                 (report acc)).
Proof.
  intros Hsev Hty Hrep acc.
  destruct (Hrep acc) as (vs & Hc & Hv & Ht & Hl).
  exists [Check.mk name (offending =? 0)%nat w evidence], vs.
  simpl. rewrite Hc, Hv. repeat split.
  - eapply Forall_impl; [|exact Ht].
    intros v (E1 & E2). unfold tabled. now rewrite E1, E2.
  - constructor; [|constructor].
    intros F. simpl in F.
    destruct vs as [|v vs]; [simpl in Hl; subst; discriminate|].
    exists v. split; [now left|].
    apply Forall_inv in Ht. destruct Ht as (E1 & _).
    simpl. now rewrite E1.
Qed.

Lemma checkMustUseTools_appends (b : BehaviorExpectation.t) (f : Facts) :
  appends
    (match BehaviorExpectation.mustUseTools b with
     | Some (_ :: _) => ["must-use-tools"%string]
     | _ => []
     end)
    (checkMustUseTools b f).
Proof.
  unfold checkMustUseTools.
  destruct (BehaviorExpectation.mustUseTools b) as [[|r required]|];
    try apply appends_nothing.
  apply listed_check_appends with (ty := "missing-required-tool"%string);
    [simpl; tauto | simpl; tauto |].
  intros acc. apply reportMissing_appends.
Qed.

Lemma checkMustNotUseTools_appends (b : BehaviorExpectation.t) (f : Facts) :
  appends
    (match BehaviorExpectation.mustNotUseTools b with
     | Some (_ :: _) => ["must-not-use-tools"%string]
     | _ => []
     end)
    (checkMustNotUseTools b f).
Proof.
  unfold checkMustNotUseTools.
  destruct (BehaviorExpectation.mustNotUseTools b) as [[|r forbidden]|];
    try apply appends_nothing.
  apply listed_check_appends with (ty := "forbidden-tool-used"%string);
    [simpl; tauto | simpl; tauto |].
  intros acc. apply reportForbidden_appends.
Qed.

Lemma checkMustUseAnyOf_appends (b : BehaviorExpectation.t) (f : Facts) :
  appends
    (match BehaviorExpectation.mustUseAnyOf b with
     | Some (_ :: _) => ["must-use-any-of"%string]
     | _ => []
     end)
    (checkMustUseAnyOf b f).
Proof.
  unfold checkMustUseAnyOf.
  destruct (BehaviorExpectation.mustUseAnyOf b) as [[|s sets]|];
    try apply appends_nothing.
  apply guarded_check_appends; simpl; tauto.
Qed.

Lemma checkMinToolCalls_appends (b : BehaviorExpectation.t) (f : Facts) :
  appends
    (match BehaviorExpectation.minToolCalls b with
     | Some _ => ["min-tool-calls"%string]
     | None => []
     end)
    (checkMinToolCalls b f).
Proof.
  unfold checkMinToolCalls.
  destruct (BehaviorExpectation.minToolCalls b) as [minimum|];
    try apply appends_nothing.
  apply guarded_check_appends; simpl; tauto.
Qed.

Lemma checkMaxToolCalls_appends (b : BehaviorExpectation.t) (f : Facts) :
  appends
    (match BehaviorExpectation.maxToolCalls b with
     | Some _ => ["max-tool-calls"%string]
     | None => []
     end)
    (checkMaxToolCalls b f).
Proof.
  unfold checkMaxToolCalls.
  destruct (BehaviorExpectation.maxToolCalls b) as [maximum|];
    try apply appends_nothing.
  apply guarded_check_appends; simpl; tauto.
Qed.

Lemma checkRequiresApproval_appends (b : BehaviorExpectation.t)
    (timeline : list TimelineEvent.t) :
  appends
    (match BehaviorExpectation.requiresApproval b with
     | Some true => ["requires-approval"%string]
     | _ => []
     end)
    (checkRequiresApproval base b timeline).
Proof.
  unfold checkRequiresApproval.
  destruct (BehaviorExpectation.requiresApproval b) as [[|]|];
    try apply appends_nothing.
  apply guarded_check_appends; simpl; tauto.
Qed.

Lemma checkRequiresContext_appends (b : BehaviorExpectation.t)
    (timeline : list TimelineEvent.t) :
  appends
    (match BehaviorExpectation.requiresContext b with
     | Some true => ["requires-context"%string]
     | _ => []
     end)
    (checkRequiresContext base b timeline).
Proof.
  unfold checkRequiresContext.
  destruct (BehaviorExpectation.requiresContext b) as [[|]|];
    try apply appends_nothing.
  apply guarded_check_appends; simpl; tauto.
Qed.

Lemma checkShouldDelegate_appends (b : BehaviorExpectation.t)
    (timeline : list TimelineEvent.t) :
  appends
    (match BehaviorExpectation.shouldDelegate b with
     | Some true => ["should-delegate"%string]
     | _ => []
     end)
    (checkShouldDelegate base b timeline).
Proof.
  unfold checkShouldDelegate.
  destruct (BehaviorExpectation.shouldDelegate b) as [[|]|];
    try apply appends_nothing.
  apply guarded_check_appends; simpl; tauto.
Qed.

Lemma runChecks_appends (b : BehaviorExpectation.t)
    (timeline : list TimelineEvent.t) :
  appends (declaredChecks b) (runChecks base b timeline).
Proof.
  unfold declaredChecks, runChecks. rewrite !app_assoc.
  apply (appends_then _ _ (fun acc => _) (checkShouldDelegate base b timeline));
    [|apply checkShouldDelegate_appends].
  apply (appends_then _ _ (fun acc => _)
           (checkRequiresContext base b timeline));
    [|apply checkRequiresContext_appends].
  apply (appends_then _ _ (fun acc => _)
           (checkRequiresApproval base b timeline));
    [|apply checkRequiresApproval_appends].
  apply (appends_then _ _ (fun acc => _)
           (checkMaxToolCalls b (factsOf base timeline)));
    [|apply checkMaxToolCalls_appends].
  apply (appends_then _ _ (fun acc => _)
           (checkMinToolCalls b (factsOf base timeline)));
    [|apply checkMinToolCalls_appends].
  apply (appends_then _ _ (fun acc => _)
           (checkMustNotUseTools b (factsOf base timeline)));
    [|apply checkMustNotUseTools_appends].
  apply (appends_then _ _ (checkMustUseTools b (factsOf base timeline))
           (checkMustUseAnyOf b (factsOf base timeline)));
    [apply checkMustUseTools_appends|apply checkMustUseAnyOf_appends].
Qed.

End Behavior.

Section BehaviorChecks.

Import BehaviorEvaluator.

Variable base : BaseQueries.

Lemma decides_nothing (b : BehaviorExpectation.t)
    (timeline : list TimelineEvent.t) :
  decides base b timeline (fun acc => acc).
Proof.
  intros acc. exists [], []. rewrite !app_nil_r.
  repeat split; constructor.
Qed.

Lemma decides_then (b : BehaviorExpectation.t)
    (timeline : list TimelineEvent.t) (f g : Acc -> Acc) :
  decides base b timeline f -> decides base b timeline g ->
  decides base b timeline (fun acc => g (f acc)).
Proof.
  intros Hf Hg acc.
  destruct (Hf acc) as (cs1 & vs1 & Hc1 & Hv1 & Hd1 & Hr1).
  destruct (Hg (f acc)) as (cs2 & vs2 & Hc2 & Hv2 & Hd2 & Hr2).
  exists (cs1 ++ cs2), (vs1 ++ vs2).
  rewrite Hc2, Hc1, Hv2, Hv1, !app_assoc.
  split; [reflexivity|]. split; [reflexivity|]. split.
  - apply Forall_app. now split.
  - apply Forall_app. split.
    + eapply Forall_impl; [|exact Hr1].
      intros v (c & Hin & Hc). exists c. split; [|exact Hc].
      apply in_or_app. now left.
    + eapply Forall_impl; [|exact Hr2].
      intros v (c & Hin & Hc). exists c. split; [|exact Hc].
      apply in_or_app. now right.
Qed.

(** One check: the violations reported before it are all of its type and
    there is none when it passes. *)
Lemma decides_check (b : BehaviorExpectation.t)
    (timeline : list TimelineEvent.t) (check : Check.t) (ty : string)
    (report : Acc -> Acc) :
  (forall acc, exists vs,
      checks (report acc) = checks acc
      /\ violations (report acc) = violations acc ++ vs
      /\ Forall (fun v => Violation.type v = ty) vs
      /\ (Check.passed check = true -> vs = [])) ->
  In (Check.name check, ty) violationOfCheck ->
  (Check.passed check = false
   <-> unmet base b timeline (Check.name check)) ->
  decides base b timeline (fun acc => pushCheck check (report acc)).
Proof.
  intros Hrep Hty Hiff acc.
  destruct (Hrep acc) as (vs & Hc & Hv & Ht & Hq).
  exists [check], vs. simpl. rewrite Hc, Hv.
  split; [reflexivity|]. split; [reflexivity|]. split.
  - constructor; [exact Hiff|constructor].
  - destruct (Check.passed check) eqn:E.
    + rewrite (Hq eq_refl). constructor.
    + eapply Forall_impl; [|exact Ht].
      intros v Hv0. exists check. split; [now left|].
      split; [exact E|]. now rewrite Hv0.
Qed.

Lemma guarded_report (passed : bool) (check : Check.t) (ty : string)
    (sev : Severity) (msg : string) (ev : Json) :
  Check.passed check = passed ->
  forall acc, exists vs,
    checks (unless passed (pushViolation ty sev msg ev) acc) = checks acc
    /\ violations (unless passed (pushViolation ty sev msg ev) acc)
       = violations acc ++ vs
    /\ Forall (fun v => Violation.type v = ty) vs
    /\ (Check.passed check = true -> vs = []).
Proof.
  intros Hp acc. destruct passed; simpl.
  - exists []. rewrite app_nil_r. repeat split. constructor.
  - eexists [_]. split; [reflexivity|]. split; [reflexivity|]. split.
    + constructor; [reflexivity|constructor].
    + rewrite Hp. discriminate.
Qed.

Lemma listed_report (check : Check.t) (ty : string) (offending : nat)
    (report : Acc -> Acc) :
  Check.passed check = (offending =? 0)%nat ->
  (forall acc, exists vs,
      checks (report acc) = checks acc
      /\ violations (report acc) = violations acc ++ vs
      /\ Forall (fun v => Violation.type v = ty
                          /\ Violation.severity v = error) vs
      /\ List.length vs = offending) ->
  forall acc, exists vs,
    checks (report acc) = checks acc
    /\ violations (report acc) = violations acc ++ vs
    /\ Forall (fun v => Violation.type v = ty) vs
    /\ (Check.passed check = true -> vs = []).
Proof.
  intros Hp Hrep acc. destruct (Hrep acc) as (vs & Hc & Hv & Ht & Hl).
  exists vs. split; [exact Hc|]. split; [exact Hv|]. split.
  - eapply Forall_impl; [|exact Ht]. now intros v (E & _).
  - rewrite Hp. intros H. apply Nat.eqb_eq in H.
    destruct vs; [reflexivity|]. simpl in Hl. lia.
Qed.

Lemma some_kept {A} (p : A -> bool) (l : list A) :
  (List.length (filter p l) =? 0)%nat = false
  <-> exists x, In x l /\ p x = true.
Proof.
  split.
  - intros H. destruct (filter p l) as [|x rest] eqn:E; [discriminate|].
    exists x. apply filter_In. rewrite E. now left.
  - intros (x & Hx). apply filter_In in Hx.
    destruct (filter p l); [destruct Hx|reflexivity].
Qed.

Lemma none_kept {A} (p : A -> bool) (l : list A) :
  (0 <? List.length (filter p l))%nat = false
  <-> forall x, In x l -> p x = false.
Proof.
  split.
  - intros H x Hx. destruct (p x) eqn:E; [|reflexivity].
    assert (Hin : In x (filter p l)) by (apply filter_In; tauto).
    destruct (filter p l); [destruct Hin|discriminate].
  - intros H. induction l as [|x l IH]; simpl; [reflexivity|].
    rewrite (H x) by now left. apply IH. intros y Hy. apply H. now right.
Qed.

Lemma not_included (l : list string) (s : string) :
  negb (JS.includes l s) = true <-> ~ In s l.
Proof.
  rewrite negb_true_iff, <- includes_true.
  destruct (JS.includes l s); split; intros H; try discriminate;
    try reflexivity; try (intros F; discriminate).
  exfalso. now apply H.
Qed.

(** Each check fails exactly when its constraint is unmet. *)
Lemma must_use_tools_fails (b : BehaviorExpectation.t)
    (timeline : list TimelineEvent.t) (required : list string) :
  BehaviorExpectation.mustUseTools b = Some required ->
  (List.length (missingRequired (factsOf base timeline) required) =? 0)%nat
  = false
  <-> unmet base b timeline "must-use-tools".
Proof.
  intros E. unfold missingRequired. rewrite some_kept. split.
  - intros (tool & Hin & Hun). apply not_included in Hun.
    now apply required_tool_not_called with required tool.
  - intros H. inversion H as [required' tool E' Hin Hun| | | | | | |].
    rewrite E in E'. injection E' as <-.
    exists tool. split; [exact Hin|]. now apply not_included.
Qed.

Lemma must_use_any_of_fails (b : BehaviorExpectation.t)
    (timeline : list TimelineEvent.t) (sets : list (list string)) :
  BehaviorExpectation.mustUseAnyOf b = Some sets ->
  (0 <? List.length (satisfiedSets (factsOf base timeline) sets))%nat = false
  <-> unmet base b timeline "must-use-any-of".
Proof.
  intros E. unfold satisfiedSets. rewrite none_kept.
  assert (Hset : forall toolSet,
             (List.length (missingFromSet (factsOf base timeline) toolSet)
              =? 0)%nat = false
             <-> exists tool, In tool toolSet
                              /\ ~ In tool (toolsCalled base timeline)).
  { intros toolSet. unfold missingFromSet. rewrite some_kept.
    split; intros (tool & Hin & Hun); exists tool; split; try exact Hin;
      now apply not_included. }
  split.
  - intros H. apply no_tool_set_called with sets; [exact E|].
    intros toolSet Hin. apply Hset. now apply H.
  - intros H. inversion H as [|sets' E' Hall| | | | | |].
    rewrite E in E'. injection E' as <-.
    intros toolSet Hin. apply Hset. now apply Hall.
Qed.

Lemma must_not_use_tools_fails (b : BehaviorExpectation.t)
    (timeline : list TimelineEvent.t) (forbidden : list string) :
  BehaviorExpectation.mustNotUseTools b = Some forbidden ->
  (List.length (forbiddenUsed (factsOf base timeline) forbidden) =? 0)%nat
  = false
  <-> unmet base b timeline "must-not-use-tools".
Proof.
  intros E. unfold forbiddenUsed. rewrite some_kept. split.
  - intros (tool & Hin & Hused). apply includes_true in Hused.
    now apply forbidden_tool_called with forbidden tool.
  - intros H. inversion H as [| |forbidden' tool E' Hin Hused| | | | |].
    rewrite E in E'. injection E' as <-.
    exists tool. split; [exact Hin|]. now apply includes_true.
Qed.

Lemma min_tool_calls_fails (b : BehaviorExpectation.t)
    (timeline : list TimelineEvent.t) (minimum : Z) :
  BehaviorExpectation.minToolCalls b = Some minimum ->
  (toolCallCount (factsOf base timeline) >=? minimum) = false
  <-> unmet base b timeline "min-tool-calls".
Proof.
  intros E. split.
  - intros H. apply too_few_calls with minimum; [exact E|].
    unfold callCount. unfold toolCallCount in H. simpl in H. lia.
  - intros H. inversion H as [| | |minimum' E' Hlt| | | |].
    rewrite E in E'. injection E' as <-.
    unfold callCount in Hlt. unfold toolCallCount. simpl. lia.
Qed.

Lemma max_tool_calls_fails (b : BehaviorExpectation.t)
    (timeline : list TimelineEvent.t) (maximum : Z) :
  BehaviorExpectation.maxToolCalls b = Some maximum ->
  (toolCallCount (factsOf base timeline) <=? maximum) = false
  <-> unmet base b timeline "max-tool-calls".
Proof.
  intros E. split.
  - intros H. apply too_many_calls with maximum; [exact E|].
    unfold callCount. unfold toolCallCount in H. simpl in H. lia.
  - intros H. inversion H as [| | | |maximum' E' Hlt| | |].
    rewrite E in E'. injection E' as <-.
    unfold callCount in Hlt. unfold toolCallCount. simpl. lia.
Qed.

Lemma requires_approval_fails (b : BehaviorExpectation.t)
    (timeline : list TimelineEvent.t) :
  BehaviorExpectation.requiresApproval b = Some true ->
  hasApprovalRequest base timeline = false
  <-> unmet base b timeline "requires-approval".
Proof.
  intros E. unfold hasApprovalRequest. split.
  - intros H. apply no_approval_asked; [exact E|].
    intros msg Hin.
    destruct (containsApprovalLanguage base _) eqn:Ec; [|reflexivity].
    enough (Ht : existsb
                   (fun msg =>
                      containsApprovalLanguage base
                        (JS.or_else
                           (JS.truthy_str
                              (data_text (TimelineEvent.data msg))) ""))
                   (getAssistantMessages base timeline) = true)
      by congruence.
    apply existsb_exists. now exists msg.
  - intros H. inversion H as [| | | | |_ Hall| |].
    destruct (existsb _ _) eqn:Ex; [|reflexivity].
    apply existsb_exists in Ex. destruct Ex as (msg & Hin & Hc).
    rewrite (Hall msg Hin) in Hc. discriminate.
Qed.

Lemma requires_context_fails (b : BehaviorExpectation.t)
    (timeline : list TimelineEvent.t) :
  BehaviorExpectation.requiresContext b = Some true ->
  (0 <? List.length (contextReads base timeline))%nat = false
  <-> unmet base b timeline "requires-context".
Proof.
  intros E. unfold contextReads. rewrite none_kept. split.
  - intros H. apply no_context_read; [exact E|].
    intros call pattern Hc Hp.
    specialize (H call Hc).
    destruct (Regex.test true pattern (filePathOf call)) eqn:Et;
      [|reflexivity].
    enough (Hx : existsb
                   (fun pattern => Regex.test true pattern (filePathOf call))
                   contextPatterns = true) by congruence.
    apply existsb_exists. now exists pattern.
  - intros H. inversion H as [| | | | | |_ Hall|].
    intros call Hc.
    destruct (existsb _ contextPatterns) eqn:Ex; [|reflexivity].
    apply existsb_exists in Ex. destruct Ex as (pattern & Hp & Ht).
    rewrite (Hall call pattern Hc Hp) in Ht. discriminate.
Qed.

Lemma should_delegate_fails (b : BehaviorExpectation.t)
    (timeline : list TimelineEvent.t) :
  BehaviorExpectation.shouldDelegate b = Some true ->
  (0 <? List.length (getToolCallsByName base timeline "task"))%nat = false
  <-> unmet base b timeline "should-delegate".
Proof.
  intros E. split.
  - intros H. apply nothing_delegated; [exact E|].
    destruct (getToolCallsByName base timeline "task");
      [reflexivity|discriminate].
  - intros H. inversion H as [| | | | | | |_ Hnone].
    now rewrite Hnone.
Qed.

Lemma decides_runChecks (b : BehaviorExpectation.t)
    (timeline : list TimelineEvent.t) :
  decides base b timeline (runChecks base b timeline).
Proof.
  unfold runChecks.
  set (f := factsOf base timeline).
  assert (H1 : decides base b timeline (checkMustUseTools b f)).
  { unfold checkMustUseTools.
    destruct (BehaviorExpectation.mustUseTools b) as [[|r required]|] eqn:E;
      try apply decides_nothing.
    apply decides_check with (ty := "missing-required-tool"%string).
    - apply listed_report
        with (offending := List.length (missingRequired f (r :: required)));
        [reflexivity|].
      intros acc. apply reportMissing_appends.
    - simpl. tauto.
    - now apply must_use_tools_fails. }
  assert (H2 : decides base b timeline (checkMustUseAnyOf b f)).
  { unfold checkMustUseAnyOf.
    destruct (BehaviorExpectation.mustUseAnyOf b) as [[|r sets]|] eqn:E;
      try apply decides_nothing.
    apply decides_check with (ty := "missing-required-tool-set"%string).
    - now apply guarded_report.
    - simpl. tauto.
    - now apply must_use_any_of_fails. }
  assert (H3 : decides base b timeline (checkMustNotUseTools b f)).
  { unfold checkMustNotUseTools.
    destruct (BehaviorExpectation.mustNotUseTools b) as [[|r forbidden]|]
      eqn:E; try apply decides_nothing.
    apply decides_check with (ty := "forbidden-tool-used"%string).
    - apply listed_report
        with (offending := List.length (forbiddenUsed f (r :: forbidden)));
        [reflexivity|].
      intros acc. apply reportForbidden_appends.
    - simpl. tauto.
    - now apply must_not_use_tools_fails. }
  assert (H4 : decides base b timeline (checkMinToolCalls b f)).
  { unfold checkMinToolCalls.
    destruct (BehaviorExpectation.minToolCalls b) as [minimum|] eqn:E;
      try apply decides_nothing.
    apply decides_check with (ty := "insufficient-tool-calls"%string).
    - now apply guarded_report.
    - simpl. tauto.
    - now apply min_tool_calls_fails. }
  assert (H5 : decides base b timeline (checkMaxToolCalls b f)).
  { unfold checkMaxToolCalls.
    destruct (BehaviorExpectation.maxToolCalls b) as [maximum|] eqn:E;
      try apply decides_nothing.
    apply decides_check with (ty := "excessive-tool-calls"%string).
    - now apply guarded_report.
    - simpl. tauto.
    - now apply max_tool_calls_fails. }
  assert (H6 : decides base b timeline
                 (checkRequiresApproval base b timeline)).
  { unfold checkRequiresApproval.
    destruct (BehaviorExpectation.requiresApproval b) as [[|]|] eqn:E;
      try apply decides_nothing.
    apply decides_check with (ty := "missing-approval-request"%string).
    - now apply guarded_report.
    - simpl. tauto.
    - now apply requires_approval_fails. }
  assert (H7 : decides base b timeline
                 (checkRequiresContext base b timeline)).
  { unfold checkRequiresContext.
    destruct (BehaviorExpectation.requiresContext b) as [[|]|] eqn:E;
      try apply decides_nothing.
    apply decides_check with (ty := "missing-context-loading"%string).
    - now apply guarded_report.
    - simpl. tauto.
    - now apply requires_context_fails. }
  assert (H8 : decides base b timeline
                 (checkShouldDelegate base b timeline)).
  { unfold checkShouldDelegate.
    destruct (BehaviorExpectation.shouldDelegate b) as [[|]|] eqn:E;
      try apply decides_nothing.
    apply decides_check with (ty := "missing-delegation"%string).
    - now apply guarded_report.
    - simpl. tauto.
    - now apply should_delegate_fails. }
  apply (decides_then b timeline (fun acc => _)
           (checkShouldDelegate base b timeline)); [|exact H8].
  apply (decides_then b timeline (fun acc => _)
           (checkRequiresContext base b timeline)); [|exact H7].
  apply (decides_then b timeline (fun acc => _)
           (checkRequiresApproval base b timeline)); [|exact H6].
  apply (decides_then b timeline (fun acc => _) (checkMaxToolCalls b f));
    [|exact H5].
  apply (decides_then b timeline (fun acc => _) (checkMinToolCalls b f));
    [|exact H4].
  apply (decides_then b timeline (fun acc => _) (checkMustNotUseTools b f));
    [|exact H3].
  apply (decides_then b timeline (checkMustUseTools b f)
           (checkMustUseAnyOf b f)); assumption.
Qed.

(** C8.  In the declared-behaviour evaluator every declared constraint (a
    tool list that is not empty, a bound that is defined, a flag that is
    [true]) maps to exactly one check, in the order of the source.  A
    check fails exactly when the session leaves its constraint unmet, so
    every unmet constraint that is declared produces at least one
    violation of the type named for it, and every violation reports a
    constraint that is unmet.  Every violation has the severity the
    evaluator fixes for its type: [error] for missing-required-tool,
    missing-required-tool-set, forbidden-tool-used,
    insufficient-tool-calls, missing-approval-request and
    missing-context-loading, [warning] for excessive-tool-calls and
    missing-delegation. *)
Theorem constraints_checks_and_violations (b : BehaviorExpectation.t)
    (timeline : list TimelineEvent.t) (sessionInfo : SessionInfo.t)
    (now : Clock) :
  let acc := runChecks base b timeline (mkAcc [] [] now) in
  let result := fst (evaluate base b timeline sessionInfo now) in
  map Check.name (checks acc) = declaredChecks b
  /\ EvaluationResult.violations result = violations acc
  /\ (forall c, In c (checks acc) ->
        (Check.passed c = false
         <-> unmet base b timeline (Check.name c)))
  /\ (forall name, In name (declaredChecks b) ->
        unmet base b timeline name ->
        exists v, In v (EvaluationResult.violations result)
                  /\ In (name, Violation.type v) violationOfCheck)
  /\ (forall v, In v (EvaluationResult.violations result) ->
        exists name, In name (declaredChecks b)
                     /\ unmet base b timeline name
                     /\ In (name, Violation.type v) violationOfCheck)
  /\ (forall c, In c (checks acc) -> Check.passed c = false ->
        exists v, In v (EvaluationResult.violations result)
                  /\ In (Check.name c, Violation.type v) violationOfCheck)
  /\ (forall v, In v (EvaluationResult.violations result) ->
        In (Violation.type v, Violation.severity v) severityOfViolation).
Proof.
  intros acc result.
  destruct (runChecks_appends base b timeline (mkAcc [] [] now))
    as (cs & vs & Hc & Hv & Hn & Ht & Hr).
  destruct (decides_runChecks b timeline (mkAcc [] [] now))
    as (cs' & vs' & Hc' & Hv' & Hd & Hp).
  fold acc in Hc, Hv, Hc', Hv'. simpl in Hc, Hv, Hc', Hv'.
  subst cs' vs'.
  assert (Hres : EvaluationResult.violations result = violations acc)
    by reflexivity.
  rewrite Hres, Hc, Hv. rewrite Hc in Hd, Hp. rewrite Hv in Hp.
  rewrite Forall_forall in Hd, Hp, Hr, Ht.
  split; [exact Hn|]. split; [reflexivity|].
  split; [exact Hd|]. split; [|split; [|split]].
  - intros name Hin Hun. rewrite <- Hn in Hin. apply in_map_iff in Hin.
    destruct Hin as (c & <- & Hin).
    apply (Hr c Hin). now apply Hd.
  - intros v Hin. destruct (Hp v Hin) as (c & Hcin & Hfail & Hty).
    exists (Check.name c). split; [|split; [|exact Hty]].
    + rewrite <- Hn. now apply in_map.
    + now apply Hd.
  - intros c Hin. now apply Hr.
  - intros v Hin. now apply Ht.
Qed.

End BehaviorChecks.

(** One tool call against a bound of none, and no delegation where one is
    required: both checks fail, and neither violation is an error. *)
Lemma unmet_bound_and_delegation_are_warnings :
  let acc :=
    BehaviorEvaluator.runChecks plainQueries noCallsAndDelegate
      [toolCallEvent "read" 1000]
      (BehaviorEvaluator.mkAcc [] [] (clockFrom 2000)) in
  map (fun c => (Check.name c, Check.passed c)) (BehaviorEvaluator.checks acc)
  = [("max-tool-calls"%string, false); ("should-delegate"%string, false)]
  /\ map (fun v => (Violation.type v, Violation.severity v))
         (BehaviorEvaluator.violations acc)
     = [("excessive-tool-calls"%string, warning);
        ("missing-delegation"%string, warning)]
  /\ ~ (forall c, In c (BehaviorEvaluator.checks acc) ->
          Check.passed c = false ->
          exists v, In v (BehaviorEvaluator.violations acc)
                    /\ Violation.severity v = error).
Proof.
  intros acc. split; [reflexivity|]. split; [reflexivity|].
  intros H.
  destruct (H (nth 0 (BehaviorEvaluator.checks acc)
                 (Check.mk "" true 0 [])))
    as (v & Hin & Hsev); [now left | reflexivity |].
  destruct Hin as [<-|[<-|[]]]; discriminate.
Qed.

Section BehaviorDeterminism.

Import BehaviorEvaluator.
Import BaseEvaluator.

Variable base : BaseQueries.

Lemma blind_id : clock_blind (fun acc => acc).
Proof. intros a1 a2 H. exact H. Qed.

Lemma blind_pushViolation (ty : string) (sev : Severity) (msg : string)
    (ev : Json) :
  clock_blind (pushViolation ty sev msg ev).
Proof.
  intros a1 a2 (Hc & Hv). split; simpl; [exact Hc|].
  rewrite !map_app, Hv. reflexivity.
Qed.

Lemma blind_pushCheck (c : Check.t) : clock_blind (pushCheck c).
Proof.
  intros a1 a2 (Hc & Hv). split; simpl; [now rewrite Hc|exact Hv].
Qed.

Lemma blind_unless (passed : bool) (f : Acc -> Acc) :
  clock_blind f -> clock_blind (unless passed f).
Proof.
  intros Hf a1 a2 H. unfold unless. destruct passed; [exact H|now apply Hf].
Qed.

Lemma blind_reportMissing (f : Facts) (required : list string) :
  clock_blind (reportMissing f required).
Proof.
  induction required as [|tool_ required IH]; intros a1 a2 H; simpl.
  - exact H.
  - apply IH. destruct (negb (JS.includes (toolsUsed f) tool_)).
    + now apply blind_pushViolation.
    + exact H.
Qed.

Lemma blind_reportForbidden (f : Facts) (forbidden : list string) :
  clock_blind (reportForbidden f forbidden).
Proof.
  induction forbidden as [|tool_ forbidden IH]; intros a1 a2 H; simpl.
  - exact H.
  - apply IH. destruct (JS.includes (toolsUsed f) tool_).
    + now apply blind_pushViolation.
    + exact H.
Qed.

Ltac blind_guarded :=
  let x1 := fresh "x" in
  let x2 := fresh "x" in
  let Hx := fresh "Hx" in
  intros x1 x2 Hx; cbv zeta;
  apply blind_pushCheck;
  apply blind_unless; [apply blind_pushViolation|exact Hx].

Lemma blind_runChecks (b : BehaviorExpectation.t)
    (timeline : list TimelineEvent.t) :
  clock_blind (runChecks base b timeline).
Proof.
  intros a1 a2 H. unfold runChecks. cbv zeta.
  assert (H1 : clock_blind (checkMustUseTools b (factsOf base timeline))).
  { unfold checkMustUseTools.
    destruct (BehaviorExpectation.mustUseTools b) as [[|r required]|];
      try apply blind_id.
    intros x1 x2 Hx. cbv zeta.
    apply blind_pushCheck. now apply blind_reportMissing. }
  assert (H2 : clock_blind (checkMustUseAnyOf b (factsOf base timeline))).
  { unfold checkMustUseAnyOf.
    destruct (BehaviorExpectation.mustUseAnyOf b) as [[|r sets]|];
      try apply blind_id.
    blind_guarded. }
  assert (H3 : clock_blind (checkMustNotUseTools b (factsOf base timeline))).
  { unfold checkMustNotUseTools.
    destruct (BehaviorExpectation.mustNotUseTools b) as [[|r forbidden]|];
      try apply blind_id.
    intros x1 x2 Hx. cbv zeta.
    apply blind_pushCheck. now apply blind_reportForbidden. }
  assert (H4 : clock_blind (checkMinToolCalls b (factsOf base timeline))).
  { unfold checkMinToolCalls.
    destruct (BehaviorExpectation.minToolCalls b); try apply blind_id.
    blind_guarded. }
  assert (H5 : clock_blind (checkMaxToolCalls b (factsOf base timeline))).
  { unfold checkMaxToolCalls.
    destruct (BehaviorExpectation.maxToolCalls b); try apply blind_id.
    blind_guarded. }
  assert (H6 : clock_blind (checkRequiresApproval base b timeline)).
  { unfold checkRequiresApproval.
    destruct (BehaviorExpectation.requiresApproval b) as [[|]|];
      try apply blind_id.
    blind_guarded. }
  assert (H7 : clock_blind (checkRequiresContext base b timeline)).
  { unfold checkRequiresContext.
    destruct (BehaviorExpectation.requiresContext b) as [[|]|];
      try apply blind_id.
    blind_guarded. }
  assert (H8 : clock_blind (checkShouldDelegate base b timeline)).
  { unfold checkShouldDelegate.
    destruct (BehaviorExpectation.shouldDelegate b) as [[|]|];
      try apply blind_id.
    blind_guarded. }
  apply H8, H7, H6, H5, H4, H3, H2, H1, H.
Qed.

Lemma error_seen_without_time (vs : list Violation.t) :
  existsb (fun v => Severity_eqb (Violation.severity v) error)
          (map without_time vs)
  = existsb (fun v => Severity_eqb (Violation.severity v) error) vs.
Proof.
  induction vs as [|v vs IH]; simpl; [reflexivity|]. now rewrite IH.
Qed.

(** C9.  The declared-behaviour evaluator is deterministic up to the
    clock: for a fixed behaviour, timeline and session, two calls return
    the same [passed], the same [score], and violation lists of the same
    length that agree, element by element and in order, on type, severity,
    message and evidence; the time stamp of a violation is the reading of
    the clock when it was created. *)
Theorem evaluate_deterministic_up_to_time (b : BehaviorExpectation.t)
    (timeline : list TimelineEvent.t) (sessionInfo : SessionInfo.t)
    (now1 now2 : Clock) :
  let r1 := fst (evaluate base b timeline sessionInfo now1) in
  let r2 := fst (evaluate base b timeline sessionInfo now2) in
  EvaluationResult.passed r1 = EvaluationResult.passed r2
  /\ EvaluationResult.score r1 = EvaluationResult.score r2
  /\ List.length (EvaluationResult.violations r1)
     = List.length (EvaluationResult.violations r2)
  /\ map without_time (EvaluationResult.violations r1)
     = map without_time (EvaluationResult.violations r2)
  /\ EvaluationResult.evidence r1 = EvaluationResult.evidence r2
  /\ EvaluationResult.metadata r1 = EvaluationResult.metadata r2.
Proof.
  intros r1 r2.
  destruct (blind_runChecks b timeline (mkAcc [] [] now1) (mkAcc [] [] now2))
    as (Hc & Hv); [split; reflexivity|].
  subst r1 r2. unfold evaluate, buildResult. simpl.
  rewrite <- Hc.
  split; [|split; [reflexivity|split; [|split; [exact Hv|split; reflexivity]]]].
  - rewrite <- (error_seen_without_time (violations (runChecks _ _ _ (mkAcc [] [] now1)))),
            <- (error_seen_without_time (violations (runChecks _ _ _ (mkAcc [] [] now2)))).
    now rewrite Hv.
  - rewrite <- (length_map without_time (violations (runChecks _ _ _ (mkAcc [] [] now1)))),
            <- (length_map without_time (violations (runChecks _ _ _ (mkAcc [] [] now2)))).
    now rewrite Hv.
Qed.

End BehaviorDeterminism.

(** Two calls in a row with a required [read] that was not used: the
    violation of the first call carries the time 2000, that of the second
    2001. *)
Lemma second_call_changes_time_stamps :
  let first :=
    BehaviorEvaluator.evaluate plainQueries mustRead [] sessionOne
      (clockFrom 2000) in
  let second :=
    BehaviorEvaluator.evaluate plainQueries mustRead [] sessionOne
      (snd first) in
  map Violation.timestamp (EvaluationResult.violations (fst first)) = [2000]
  /\ map Violation.timestamp (EvaluationResult.violations (fst second))
     = [2001]
  /\ EvaluationResult.violations (fst first)
     <> EvaluationResult.violations (fst second).
Proof.
  intros first second. split; [reflexivity|]. split; [reflexivity|].
  intros H. apply (f_equal (map Violation.timestamp)) in H.
  discriminate H.
Qed.

(* ================================================================== *)
(** * Queries on a built timeline *)
(* ================================================================== *)

Section TimelineQueries.

Variable parser : MessageParser.

Import TimelineBuilder.

#[local] Abbreviation ts := TimelineEvent.timestamp.
#[local] Abbreviation by_time := (fun a b : TimelineEvent.t => ts a <= ts b).

Lemma by_time_strongly_sorted (l : list TimelineEvent.t) :
  Sorted by_time l -> StronglySorted by_time l.
Proof.
  apply Sorted_StronglySorted. intros a b c Hab Hbc. simpl in *. lia.
Qed.

Lemma timelineOf_strongly_sorted (msgs : list MessageWithParts.t) :
  StronglySorted by_time (timelineOf parser msgs).
Proof. apply by_time_strongly_sorted, timelineOf_sorted. Qed.

Lemma filter_all {A} (f : A -> bool) (l : list A) :
  Forall (fun x => f x = true) l -> filter f l = l.
Proof.
  induction 1 as [|x l Hx _ IH]; simpl; [reflexivity|].
  now rewrite Hx, IH.
Qed.

Lemma filter_none {A} (f : A -> bool) (l : list A) :
  Forall (fun x => f x = false) l -> filter f l = [].
Proof.
  induction 1 as [|x l Hx _ IH]; simpl; [reflexivity|].
  now rewrite Hx, IH.
Qed.

Lemma filter_strongly_sorted (f : TimelineEvent.t -> bool)
    (l : list TimelineEvent.t) :
  StronglySorted by_time l -> StronglySorted by_time (filter f l).
Proof.
  induction 1 as [|x l Hs IH Hx]; simpl; [constructor|].
  destruct (f x); [|exact IH].
  constructor; [exact IH|].
  rewrite Forall_forall in *. intros e He.
  apply filter_In in He. now apply Hx.
Qed.

Lemma filter_filter {A} (f g : A -> bool) (l : list A) :
  filter f (filter g l) = filter (fun x => g x && f x) l.
Proof.
  induction l as [|x l IH]; simpl; [reflexivity|].
  destruct (g x); simpl; [destruct (f x)|]; now rewrite IH.
Qed.

Lemma filter_ext_in' {A} (f g : A -> bool) (l : list A) :
  (forall x, f x = g x) -> filter f l = filter g l.
Proof.
  intros H. induction l as [|x l IH]; simpl; [reflexivity|].
  now rewrite H, IH.
Qed.

(** A sorted list splits at a test that holds of the earlier events. *)
Lemma sorted_split_by (p : TimelineEvent.t -> bool)
    (l : list TimelineEvent.t) :
  (forall a b, ts a <= ts b -> p b = true -> p a = true) ->
  StronglySorted by_time l ->
  filter p l ++ filter (fun e => negb (p e)) l = l.
Proof.
  intros Hp. induction 1 as [|x l Hs IH Hx]; simpl; [reflexivity|].
  destruct (p x) eqn:E; simpl.
  - now rewrite IH.
  - rewrite (filter_none p l).
    + simpl. f_equal. apply filter_all.
      eapply Forall_impl; [|exact Hx]. intros e He. simpl in He.
      destruct (p e) eqn:Ee; [|reflexivity].
      now rewrite (Hp x e He Ee) in E.
    + eapply Forall_impl; [|exact Hx]. intros e He. simpl in He.
      destruct (p e) eqn:Ee; [|reflexivity].
      now rewrite (Hp x e He Ee) in E.
Qed.

Lemma filter_ext_on {A} (f g : A -> bool) (l : list A) :
  (forall x, In x l -> f x = g x) -> filter f l = filter g l.
Proof.
  intros H. induction l as [|x l IH]; simpl; [reflexivity|].
  rewrite (H x) by now left.
  rewrite IH; [reflexivity|]. intros y Hy. apply H. now right.
Qed.

Lemma lt_iff (x y : Q) : JS.lt x y = true <-> (x < y)%Q.
Proof.
  unfold JS.lt. rewrite negb_true_iff. split.
  - intros H. apply Qnot_le_lt. intros Hle.
    apply Qle_bool_iff in Hle. congruence.
  - intros H. destruct (Qle_bool y x) eqn:E; [|reflexivity].
    apply Qle_bool_iff in E. apply Qle_not_lt in E. contradiction.
Qed.

Lemma lt_false_iff (x y : Q) : JS.lt x y = false <-> (y <= x)%Q.
Proof.
  unfold JS.lt. rewrite negb_false_iff. apply Qle_bool_iff.
Qed.

(** X1.  A built timeline is cut by two bounds, which need not be
    integers, into the events before the first, the events in the closed
    range and the events after the second, in this order and without loss
    or repetition: when no event lies strictly between [end] and [start]
    (as when [start <= end]), [getEventsBefore(start)],
    [getEventsInRange(start, end)] and [getEventsAfter(end)] concatenate
    to the timeline. *)
Theorem range_queries_partition_timeline (msgs : list MessageWithParts.t)
    (start end_ : Q) :
  let events := timelineOf parser msgs in
  (forall e, In e events ->
     ~ (end_ < inject_Z (ts e) /\ inject_Z (ts e) < start)%Q) ->
  getEventsBefore events start
  ++ getEventsInRange events start end_
  ++ getEventsAfter events end_
  = events.
Proof.
  intros events Hgap.
  pose proof (timelineOf_strongly_sorted msgs) as Hs. fold events in Hs.
  unfold getEventsBefore, getEventsInRange, getEventsAfter.
  set (before := fun e => JS.lt (inject_Z (ts e)) start).
  set (late := fun e => JS.lt end_ (inject_Z (ts e))).
  rewrite <- (sorted_split_by before events) at 4; [f_equal|..|exact Hs].
  - set (rest := filter (fun e => negb (before e)) events).
    assert (Hr : StronglySorted by_time rest)
      by now apply filter_strongly_sorted.
    rewrite <- (sorted_split_by (fun e => negb (late e)) rest) at 1;
      [|..|exact Hr].
    + unfold rest. rewrite !filter_filter. f_equal.
      * apply filter_ext_in'. intros e. unfold before, late, JS.lt.
        now rewrite !negb_involutive.
      * apply filter_ext_on. intros e He. rewrite negb_involutive.
        destruct (late e) eqn:El; [|now rewrite andb_false_r].
        rewrite andb_true_r. unfold before.
        destruct (JS.lt (inject_Z (ts e)) start) eqn:Eb; [|reflexivity].
        exfalso. apply (Hgap e He). split.
        -- now apply lt_iff.
        -- now apply lt_iff.
    + intros a b Hab. unfold late.
      rewrite !negb_true_iff, !lt_false_iff. intros Hb.
      apply Qle_trans with (inject_Z (ts b)); [|exact Hb].
      now rewrite <- Zle_Qle.
  - intros a b Hab. unfold before. rewrite !lt_iff. intros Hb.
    apply Qle_lt_trans with (inject_Z (ts b)); [|exact Hb].
    now rewrite <- Zle_Qle.
Qed.

Lemma strongly_sorted_head_least (x : TimelineEvent.t)
    (l : list TimelineEvent.t) (e : TimelineEvent.t) :
  StronglySorted by_time (x :: l) -> In e (x :: l) -> ts x <= ts e.
Proof.
  intros H [<-|He]; [lia|].
  apply StronglySorted_inv in H. destruct H as (_ & Hx).
  rewrite Forall_forall in Hx. now apply Hx.
Qed.

Lemma strongly_sorted_last_greatest (l : list TimelineEvent.t)
    (z e : TimelineEvent.t) :
  StronglySorted by_time l -> lastOf l = Some z -> In e l -> ts e <= ts z.
Proof.
  induction 1 as [|x l Hs IH Hx]; intros Hl He; [destruct He|].
  destruct l as [|y l].
  - simpl in Hl. injection Hl as <-. destruct He as [<-|[]]. lia.
  - change (lastOf (x :: y :: l)) with (lastOf (y :: l)) in Hl.
    destruct He as [<-|He]; [|now apply IH].
    assert (Hz : In z (y :: l)).
    { clear -Hl. revert y Hl. induction l as [|w l IHl]; intros y Hl.
      - simpl in Hl. injection Hl as <-. now left.
      - change (lastOf (y :: w :: l)) with (lastOf (w :: l)) in Hl.
        right. now apply IHl. }
    rewrite Forall_forall in Hx. now apply Hx.
Qed.

(** X2.  On a built timeline, [getFirstEventOfType] returns the earliest
    event of the type and [getLastEventOfType] the latest one; either
    returns [null] exactly when the timeline has no event of the type. *)
Theorem first_and_last_event_of_type (msgs : list MessageWithParts.t)
    (ty : EventType) :
  let events := timelineOf parser msgs in
  (forall first e,
      getFirstEventOfType events ty = Some first ->
      In e events -> TimelineEvent.type e = ty ->
      TimelineEvent.type first = ty
      /\ TimelineEvent.timestamp first <= TimelineEvent.timestamp e)
  /\ (forall last e,
        getLastEventOfType events ty = Some last ->
        In e events -> TimelineEvent.type e = ty ->
        TimelineEvent.type last = ty
        /\ TimelineEvent.timestamp e <= TimelineEvent.timestamp last)
  /\ (getFirstEventOfType events ty = None <->
        forall e, In e events -> TimelineEvent.type e <> ty)
  /\ (getLastEventOfType events ty = None <->
        getFirstEventOfType events ty = None).
Proof.
  intros events.
  pose proof (timelineOf_strongly_sorted msgs) as Hs. fold events in Hs.
  assert (Hf : StronglySorted by_time (filterByType events ty))
    by now apply filter_strongly_sorted.
  assert (Hin : forall e, In e (filterByType events ty) <->
                          In e events /\ TimelineEvent.type e = ty).
  { intros e. unfold filterByType. rewrite filter_In.
    destruct (TimelineEvent.type e), ty; simpl;
      split; intros (H1 & H2); split; congruence. }
  unfold getFirstEventOfType, getLastEventOfType.
  split; [|split; [|split]].
  - intros first e Hfirst He Hty.
    destruct (filterByType events ty) as [|x l] eqn:E; [discriminate|].
    injection Hfirst as ->. split.
    + apply (Hin first). now left.
    + apply (strongly_sorted_head_least first l e Hf). now apply Hin.
  - intros last e Hlast He Hty. split.
    + apply (Hin last).
      clear -Hlast. induction (filterByType events ty) as [|x l IH];
        [discriminate|].
      destruct l as [|y l]; [injection Hlast as <-; now left|].
      right. now apply IH.
    + apply (strongly_sorted_last_greatest _ last e Hf Hlast).
      now apply Hin.
  - destruct (filterByType events ty) as [|x l] eqn:E.
    + split; [|reflexivity]. intros _ e He Hty.
      destruct (proj2 (Hin e) (conj He Hty)).
    + split; [discriminate|]. intros H. exfalso.
      apply (H x); apply (Hin x); now left.
  - destruct (filterByType events ty) as [|x l]; [tauto|].
    split; [|discriminate].
    intros H. exfalso. clear -H. revert x H.
    induction l as [|y l IH]; intros x H; [discriminate|].
    now apply (IH y).
Qed.

End TimelineQueries.

(** The bounds 1099.5 and 1150.25 around the reply at 1100. *)
Lemma range_queries_partition_timeline_witness :
  let events := TimelineBuilder.timelineOf plainParser writeTranscript in
  TimelineBuilder.getEventsBefore events (2199 # 2)
  ++ TimelineBuilder.getEventsInRange events (2199 # 2) (4601 # 4)
  ++ TimelineBuilder.getEventsAfter events (4601 # 4)
  = events
  /\ List.length
       (TimelineBuilder.getEventsInRange events (2199 # 2) (4601 # 4))
     = 1%nat.
Proof.
  split; [|reflexivity].
  apply (range_queries_partition_timeline plainParser writeTranscript).
  intros e _ (H1 & H2).
  assert (H : (4601 # 4 < 2199 # 2)%Q) by (eapply Qlt_trans; eassumption).
  vm_compute in H. discriminate.
Defined.


(* ================================================================== *)
(** * Tool queries and the summary of a built timeline *)
(* ================================================================== *)

Section ToolQueries.

Variable parser : MessageParser.

Import TimelineBuilder.
Import TimelineTools.

#[local] Abbreviation is_tool_call :=
  (fun e : TimelineEvent.t => EventType_eqb (TimelineEvent.type e) tool_call).
#[local] Abbreviation tool_read :=
  (fun e : TimelineEvent.t => data_tool (TimelineEvent.data e)).
#[local] Abbreviation is_tool_part :=
  (fun p : Part.t => match Part.type p with tool => true | _ => false end).

Lemma count_is_with_data (l : list TimelineEvent.t) (toolName : string) :
  Forall (fun e => has_data e = true) l ->
  count_is l toolName
  = Returned
      (List.length (filter (fun e => is_tool (tool_read e) toolName) l)).
Proof.
  induction 1 as [|e l He _ IH]; simpl; [reflexivity|].
  unfold toolOf, has_data in *.
  destruct (TimelineEvent.data e) as [d|]; [|discriminate].
  rewrite IH. now destruct (is_tool (data_tool (Some d)) toolName).
Qed.

Lemma some_is_with_data (l : list TimelineEvent.t) (toolName : string) :
  Forall (fun e => has_data e = true) l ->
  some_is l toolName
  = Returned (existsb (fun e => is_tool (tool_read e) toolName) l).
Proof.
  induction 1 as [|e l He _ IH]; simpl; [reflexivity|].
  unfold toolOf, has_data in *.
  destruct (TimelineEvent.data e) as [d|]; [|discriminate].
  now destruct (is_tool (data_tool (Some d)) toolName).
Qed.

Lemma toolsOfCalls_with_data (l : list TimelineEvent.t) :
  Forall (fun e => has_data e = true) l ->
  toolsOfCalls l = Returned (map tool_read l).
Proof.
  induction 1 as [|e l He _ IH]; simpl; [reflexivity|].
  unfold toolOf, has_data in *.
  destruct (TimelineEvent.data e) as [d|]; [|discriminate].
  now rewrite IH.
Qed.

Lemma same_tool_eq (a b : option string) : same_tool a b = true <-> a = b.
Proof.
  destruct a as [x|], b as [y|]; simpl; split; intros H;
    try discriminate; try reflexivity.
  - apply String.eqb_eq in H. now subst.
  - injection H as ->. apply String.eqb_refl.
Qed.

Lemma seen_iff (x : option string) (seen : list (option string)) :
  existsb (same_tool x) seen = true <-> In x seen.
Proof.
  rewrite existsb_exists. split.
  - intros (y & Hy & E). apply same_tool_eq in E. now subst.
  - intros H. exists x. split; [exact H|now apply same_tool_eq].
Qed.

Lemma dedupe_spec (tools seen : list (option string)) :
  NoDup (dedupe seen tools)
  /\ (forall x, In x (dedupe seen tools) <-> In x tools /\ ~ In x seen).
Proof.
  revert seen. induction tools as [|t tools IH]; intros seen; simpl.
  - split; [constructor|]. intros x. tauto.
  - destruct (existsb (same_tool t) seen) eqn:E.
    + apply seen_iff in E. destruct (IH seen) as (Hn & Hi).
      split; [exact Hn|]. intros x. rewrite Hi.
      split; [tauto|]. intros ([<-|Hx] & Hs); [contradiction|tauto].
    + assert (Hs : ~ In t seen).
      { intros H. apply seen_iff in H. congruence. }
      destruct (IH (t :: seen)) as (Hn & Hi). split.
      * constructor; [|exact Hn]. rewrite Hi. simpl. tauto.
      * intros x. simpl. rewrite Hi. simpl.
        split.
        -- intros [<-|(Hx & Hns)]; [tauto|]. split; [tauto|]. tauto.
        -- intros ([<-|Hx] & Hns); [now left|].
           destruct (same_tool x t) eqn:Ext.
           ++ apply same_tool_eq in Ext. now left.
           ++ right. split; [exact Hx|]. intros [->|H]; [|tauto].
              rewrite (proj2 (same_tool_eq x x) eq_refl) in Ext.
              discriminate.
Qed.

Lemma part_event_shape (p : Part.t) (m : Message.t) (e : TimelineEvent.t) :
  createPartEvent parser p m = Some e ->
  has_data e = true
  /\ tool_read e = Part.tool_name p
  /\ is_tool_call e = is_tool_part p.
Proof.
  unfold createPartEvent.
  destruct (Part.type p) eqn:T; intros H; try discriminate;
    injection H as <-; repeat split.
Qed.

Lemma collected_have_data (msgs : list MessageWithParts.t) :
  Forall (fun e => has_data e = true) (collectEvents parser msgs).
Proof.
  unfold collectEvents.
  induction msgs as [|mw msgs IH]; simpl; [constructor|].
  constructor; [reflexivity|].
  apply Forall_app. split; [|exact IH].
  induction (JS.or_else (MessageWithParts.parts mw) []) as [|p ps IHp];
    simpl; [constructor|].
  destruct (createPartEvent parser p (MessageWithParts.info mw)) as [e|] eqn:E;
    [|exact IHp].
  constructor; [|exact IHp]. now apply part_event_shape in E.
Qed.

Lemma built_have_data (msgs : list MessageWithParts.t) :
  Forall (fun e => has_data e = true) (timelineOf parser msgs).
Proof.
  rewrite Forall_forall. intros e He.
  apply (Permutation_in _ (timelineOf_perm parser msgs)) in He.
  pose proof (collected_have_data msgs) as H.
  rewrite Forall_forall in H. now apply H.
Qed.

Lemma forall_filter {A} (P : A -> Prop) (f : A -> bool) (l : list A) :
  Forall P l -> Forall P (filter f l).
Proof.
  rewrite !Forall_forall. intros H x Hx. apply filter_In in Hx. now apply H.
Qed.

(** The tool calls among the collected events against the tool parts of
    the transcript, for any test on the tool name. *)
Lemma collected_tool_calls (g : option string -> bool)
    (msgs : list MessageWithParts.t) :
  List.length
    (filter (fun e => is_tool_call e && g (tool_read e))
            (collectEvents parser msgs))
  = List.length
      (filter (fun p => is_tool_part p && g (Part.tool_name p))
              (allParts msgs)).
Proof.
  unfold collectEvents, allParts.
  induction msgs as [|mw msgs IH]; simpl; [reflexivity|].
  replace (EventType_eqb
             match Message.role (MessageWithParts.info mw) with
             | user => user_message
             | assistant => assistant_message
             end tool_call) with false
    by now destruct (Message.role (MessageWithParts.info mw)).
  simpl. rewrite !filter_app, !length_app, IH. f_equal.
  induction (JS.or_else (MessageWithParts.parts mw) []) as [|p ps IHp];
    simpl; [reflexivity|].
  destruct (createPartEvent parser p (MessageWithParts.info mw)) as [e|] eqn:E.
  - destruct (part_event_shape p _ e E) as (_ & Ht & Hc).
    simpl. rewrite <- Ht, <- Hc.
    destruct (is_tool_call e && g (tool_read e)); simpl; now rewrite IHp.
  - rewrite IHp.
    assert (Hr : recognized p = false).
    { destruct (recognized p) eqn:R; [|reflexivity].
      destruct (createPartEvent_recognized parser p
                  (MessageWithParts.info mw) R) as (e & He & _).
      congruence. }
    unfold recognized in Hr.
    destruct (Part.type p); try discriminate; reflexivity.
Qed.

Lemma built_tool_calls (g : option string -> bool)
    (msgs : list MessageWithParts.t) :
  List.length
    (filter (fun e => g (tool_read e)) (getToolCalls (timelineOf parser msgs)))
  = List.length
      (filter (fun p => is_tool_part p && g (Part.tool_name p))
              (allParts msgs)).
Proof.
  unfold getToolCalls, filterByType. rewrite filter_filter.
  rewrite (filter_length_perm _ _ _ (timelineOf_perm parser msgs)).
  apply collected_tool_calls.
Qed.

Lemma toolPartsNamed_length (toolName : string)
    (msgs : list MessageWithParts.t) :
  List.length (toolPartsNamed toolName msgs)
  = List.length
      (filter (fun p => is_tool_part p
                        && is_tool (Part.tool_name p) toolName)
              (allParts msgs)).
Proof.
  unfold toolPartsNamed. f_equal. apply filter_ext_in'.
  intros p. now destruct (Part.type p).
Qed.

Lemma existsb_filter_length {A} (f : A -> bool) (l : list A) :
  existsb f l = (0 <? List.length (filter f l))%nat.
Proof.
  induction l as [|x l IH]; simpl; [reflexivity|].
  destruct (f x); simpl; [reflexivity|exact IH].
Qed.

(** X3.  On a built timeline the tool queries agree with the transcript
    and with each other: [countToolUsage] is the number of tool parts that
    name the tool, [wasToolUsed] says whether there is one, and
    [getToolsUsed] lists each tool once and lists a tool exactly when it
    was used.  None of them throws. *)
Theorem tool_queries_agree_with_transcript (msgs : list MessageWithParts.t)
    (toolName : string) :
  let events := timelineOf parser msgs in
  let uses := List.length (toolPartsNamed toolName msgs) in
  countToolUsage events toolName = Returned uses
  /\ wasToolUsed events toolName = Returned (0 <? uses)%nat
  /\ exists tools,
       getToolsUsed events = Returned tools
       /\ NoDup tools
       /\ (In (Some toolName) tools <-> (0 < uses)%nat).
Proof.
  intros events uses.
  assert (Hd : Forall (fun e => has_data e = true) (getToolCalls events))
    by apply forall_filter, built_have_data.
  assert (Hu : List.length
                 (filter (fun e => is_tool (tool_read e) toolName)
                         (getToolCalls events)) = uses).
  { unfold uses. rewrite toolPartsNamed_length.
    apply (built_tool_calls (fun t => is_tool t toolName)). }
  split; [|split].
  - unfold countToolUsage. now rewrite count_is_with_data, Hu.
  - unfold wasToolUsed.
    now rewrite some_is_with_data, existsb_filter_length, Hu.
  - unfold getToolsUsed. rewrite toolsOfCalls_with_data by exact Hd.
    eexists. split; [reflexivity|].
    destruct (dedupe_spec (map tool_read (getToolCalls events)) [])
      as (Hn & Hi).
    split; [exact Hn|].
    rewrite Hi, <- Hu, in_map_iff. split.
    + intros ((e & He & Hin) & _).
      assert (Hf : In e (filter (fun e => is_tool (tool_read e) toolName)
                                (getToolCalls events))).
      { apply filter_In. split; [exact Hin|].
        rewrite He. simpl. apply String.eqb_refl. }
      destruct (filter _ (getToolCalls events)); [destruct Hf|simpl; lia].
    + intros Hlen. split; [|tauto].
      destruct (filter (fun e => is_tool (tool_read e) toolName)
                       (getToolCalls events)) as [|e l] eqn:E;
        [simpl in Hlen; lia|].
      assert (Hf : In e (filter (fun e => is_tool (tool_read e) toolName)
                                (getToolCalls events)))
        by (rewrite E; now left).
      apply filter_In in Hf. destruct Hf as (Hin & Ht).
      exists e. split; [|exact Hin].
      destruct (tool_read e) as [t|]; [|discriminate].
      simpl in Ht. apply String.eqb_eq in Ht. now subst.
Qed.

Lemma message_types_count (l : list TimelineEvent.t) :
  (List.length (getUserMessages l) + List.length (getAssistantMessages l)
   = List.length (filter is_message_event l))%nat.
Proof.
  unfold getUserMessages, getAssistantMessages, filterByType,
    is_message_event.
  induction l as [|e l IH]; simpl; [reflexivity|].
  destruct (TimelineEvent.type e); simpl; lia.
Qed.

Lemma filter_length_split {A} (f : A -> bool) (l : list A) :
  (List.length l
   = List.length (filter f l)
     + List.length (filter (fun x => negb (f x)) l))%nat.
Proof.
  induction l as [|x l IH]; simpl; [reflexivity|].
  destruct (f x); simpl; lia.
Qed.

Lemma first_not_after_last (l : list TimelineEvent.t)
    (f z : TimelineEvent.t) :
  StronglySorted (fun a b => TimelineEvent.timestamp a
                             <= TimelineEvent.timestamp b) l ->
  nth_error l 0 = Some f -> lastOf l = Some z ->
  TimelineEvent.timestamp f <= TimelineEvent.timestamp z.
Proof.
  intros Hs Hf Hz. destruct l as [|x l]; [discriminate|].
  simpl in Hf. injection Hf as ->.
  destruct l as [|y l]; [simpl in Hz; injection Hz as <-; lia|].
  apply StronglySorted_inv in Hs. destruct Hs as (_ & Hx).
  rewrite Forall_forall in Hx. apply Hx.
  change (lastOf (f :: y :: l)) with (lastOf (y :: l)) in Hz.
  clear -Hz. revert y Hz. induction l as [|w l IHl]; intros y Hz.
  - simpl in Hz. injection Hz as <-. now left.
  - change (lastOf (y :: w :: l)) with (lastOf (w :: l)) in Hz.
    right. now apply IHl.
Qed.

Lemma duration_not_negative (l : list TimelineEvent.t) :
  StronglySorted (fun a b => TimelineEvent.timestamp a
                             <= TimelineEvent.timestamp b) l ->
  0 <= match lastOf l, nth_error l 0 with
       | Some z, Some f =>
           TimelineEvent.timestamp z - TimelineEvent.timestamp f
       | _, _ => 0
       end.
Proof.
  intros Hs.
  destruct (lastOf l) as [z|] eqn:Ez; [|lia].
  destruct (nth_error l 0) as [f|] eqn:Ef; [|lia].
  pose proof (first_not_after_last l f z Hs Ef Ez). lia.
Qed.

(** X4.  [getSummary] of a built timeline returns, and its figures are
    those of the transcript: one event per message and one per part of a
    recognized type in all, the user and assistant messages together as
    many as the messages, as many tool calls as tool parts, and a duration
    that is not negative. *)
Theorem summary_of_built_timeline (msgs : list MessageWithParts.t) :
  exists s,
    getSummary (timelineOf parser msgs) = Returned s
    /\ totalEvents s
       = (List.length msgs
          + List.length (filter recognized (allParts msgs)))%nat
    /\ (userMessages s + assistantMessages s)%nat = List.length msgs
    /\ toolCalls s = List.length (filter is_tool_part (allParts msgs))
    /\ 0 <= duration s.
Proof.
  set (events := timelineOf parser msgs).
  assert (Hd : Forall (fun e => has_data e = true) (getToolCalls events))
    by apply forall_filter, built_have_data.
  unfold getSummary, getToolsUsed. fold events.
  rewrite toolsOfCalls_with_data by exact Hd.
  eexists. split; [reflexivity|]. simpl.
  split; [|split; [|split]].
  - rewrite (filter_length_split is_message_event events).
    unfold events.
    now rewrite one_message_event_per_message,
      one_part_event_per_recognized_part.
  - rewrite message_types_count. apply one_message_event_per_message.
  - rewrite <- (filter_all (fun _ => true) (getToolCalls events))
      by (apply Forall_forall; reflexivity).
    unfold events.
    rewrite (built_tool_calls (fun _ => true) msgs).
    f_equal. apply filter_ext_in'. intros p. apply andb_true_r.
  - apply (duration_not_negative events).
    apply (timelineOf_strongly_sorted parser msgs).
Qed.

End ToolQueries.

Lemma tool_queries_agree_with_transcript_witness :
  TimelineTools.countToolUsage
    (TimelineBuilder.timelineOf plainParser writeTranscript) "write"
  = Returned 1%nat
  /\ TimelineTools.wasToolUsed
       (TimelineBuilder.timelineOf plainParser writeTranscript) "bash"
     = Returned false.
Proof.
  split.
  - apply (tool_queries_agree_with_transcript plainParser writeTranscript
             "write").
  - apply (tool_queries_agree_with_transcript plainParser writeTranscript
             "bash").
Defined.

Section ToolQueriesThrow.

Import TimelineTools.

Lemma count_is_throws (l : list TimelineEvent.t) (e : TimelineEvent.t)
    (toolName : string) :
  In e l -> TimelineEvent.data e = None ->
  exists m, count_is l toolName = Threw m.
Proof.
  induction l as [|x l IH]; intros Hin Hd; [destruct Hin|].
  simpl. unfold toolOf at 1.
  destruct (TimelineEvent.data x) as [d|] eqn:Ex; [|eauto].
  destruct Hin as [->|Hin]; [congruence|].
  destruct (IH Hin Hd) as (m & ->). eauto.
Qed.

Lemma toolsOfCalls_throws (l : list TimelineEvent.t) (e : TimelineEvent.t) :
  In e l -> TimelineEvent.data e = None ->
  exists m, toolsOfCalls l = Threw m.
Proof.
  induction l as [|x l IH]; intros Hin Hd; [destruct Hin|].
  simpl. unfold toolOf at 1.
  destruct (TimelineEvent.data x) as [d|] eqn:Ex; [|eauto].
  destruct Hin as [->|Hin]; [congruence|].
  destruct (IH Hin Hd) as (m & ->). eauto.
Qed.

(** X5.  A [tool_call] event without [data] anywhere in a timeline makes
    [countToolUsage], [getToolsUsed] and [getSummary] throw, whatever else
    the timeline holds. *)
Theorem tool_call_without_data_throws (timeline : list TimelineEvent.t)
    (e : TimelineEvent.t) (toolName : string) :
  In e timeline ->
  TimelineEvent.type e = tool_call ->
  TimelineEvent.data e = None ->
  (exists m, countToolUsage timeline toolName = Threw m)
  /\ (exists m, getToolsUsed timeline = Threw m)
  /\ (exists m, getSummary timeline = Threw m).
Proof.
  intros Hin Hty Hd.
  assert (Hc : In e (TimelineBuilder.getToolCalls timeline)).
  { apply filter_In. split; [exact Hin|]. now rewrite Hty. }
  destruct (toolsOfCalls_throws _ e Hc Hd) as (m & Hm).
  split; [|split].
  - now apply count_is_throws with e.
  - exists m. unfold getToolsUsed. now rewrite Hm.
  - exists m. unfold getSummary, getToolsUsed. now rewrite Hm.
Qed.

End ToolQueriesThrow.

Lemma tool_call_without_data_throws_witness :
  exists m,
    TimelineTools.countToolUsage
      [ toolCallEvent "read" 900;
        TimelineEvent.mk 1000 tool_call None None None None None ]
      "read"
    = Threw m.
Proof.
  apply (tool_call_without_data_throws _
           (TimelineEvent.mk 1000 tool_call None None None None None) "read");
    [right; now left | reflexivity | reflexivity].
Defined.

(* ================================================================== *)
(** * What each label of the classifier guarantees *)
(* ================================================================== *)

Section Labels.

Import TaskTypeDetector.

#[local] Abbreviation lowered um := (Regex.toLowerCase (messageText um)).

Lemma includes_false (l : list string) (s : string) :
  JS.includes l s = false <-> ~ In s l.
Proof.
  rewrite <- includes_true. destruct (JS.includes l s); split; intros H;
    try discriminate; try reflexivity; try (intros F; discriminate).
  exfalso. now apply H.
Qed.

Lemma read_tools_run_nothing (tools : list string) :
  forallb (fun t => JS.includes readTools t) tools = true ->
  existsb (fun t => JS.includes executionTools t) tools = false.
Proof.
  induction tools as [|t tools IH]; cbn [existsb forallb]; [reflexivity|].
  intros H. apply andb_true_iff in H. destruct H as (Ht & Hr).
  rewrite (IH Hr), orb_false_r.
  apply includes_true in Ht. simpl in Ht.
  destruct Ht as [<-|[<-|[<-|[<-|[]]]]]; reflexivity.
Qed.

Lemma hasOnlyReadTools_iff (tools : list string) :
  hasOnlyReadTools tools = true <->
  tools <> [] /\ forall t, In t tools -> In t readTools.
Proof.
  unfold hasOnlyReadTools. split.
  - intros H. apply andb_true_iff in H. destruct H as (H & _).
    apply andb_true_iff in H. destruct H as (Hlen & Hall).
    split; [destruct tools; [discriminate|congruence]|].
    intros t Ht. rewrite forallb_forall in Hall.
    now apply includes_true, Hall.
  - intros (Hne & Hall).
    assert (Hf : forallb (fun t => JS.includes readTools t) tools = true).
    { apply forallb_forall. intros t Ht. now apply includes_true, Hall. }
    rewrite Hf, (read_tools_run_nothing _ Hf).
    destruct tools; [congruence|reflexivity].
Qed.

Ltac label_cases :=
  repeat match goal with
         | |- context [if ?c then _ else _] =>
             let E := fresh "E" in destruct c eqn:E
         end.

(** X6.  The three labels that depend on the tools alone are decided by
    the tools alone, whatever the message says: [delegation] exactly when
    the [task] tool was called; [read-only] exactly when it was not, some
    tool was called and every tool called is one of read, glob, grep and
    list; [bash-only] exactly when [bash] was called and none of [task],
    [write] and [edit]. *)
Theorem tool_labels_decided_by_tools (um : UserMessage)
    (timeline : list TimelineEvent.t) :
  let tools := toolsOf timeline in
  (detectTaskType um timeline = delegation <-> In "task"%string tools)
  /\ (detectTaskType um timeline = read_only <->
        tools <> [] /\ forall t, In t tools -> In t readTools)
  /\ (detectTaskType um timeline = bash_only <->
        In "bash"%string tools /\ ~ In "task"%string tools
        /\ ~ In "write"%string tools /\ ~ In "edit"%string tools).
Proof.
  intros tools.
  assert (Hro : hasOnlyReadTools tools = true ->
                JS.includes tools "task" = false
                /\ JS.includes tools "bash" = false).
  { intros H. apply hasOnlyReadTools_iff in H. destruct H as (_ & Hall).
    split; apply includes_false; intros F; apply Hall in F; simpl in F;
      repeat (destruct F as [F|F]; [discriminate|]); destruct F. }
  rewrite <- hasOnlyReadTools_iff, <- !includes_false, <- !includes_true.
  unfold detectTaskType. fold tools. unfold hasBashOnly in *.
  destruct (JS.includes tools "task") eqn:Et.
  - split; [tauto|]. split.
    + split; [discriminate|]. intros H. apply Hro in H. destruct H. congruence.
    + split; [discriminate|]. intros (_ & F & _). discriminate.
  - split; [split; [|discriminate]|].
    { label_cases; discriminate. }
    destruct (hasOnlyReadTools tools) eqn:Er.
    + split; [tauto|]. split; [discriminate|].
      intros (Hb & _). destruct (Hro eq_refl). congruence.
    + split; [split; [|discriminate]; label_cases; discriminate|].
      destruct (JS.includes tools "bash") eqn:Eb,
               (JS.includes tools "write") eqn:Ew,
               (JS.includes tools "edit") eqn:Ee; simpl.
      all: try (split; [label_cases; discriminate
                       | intros (H1 & H2 & H3 & H4); discriminate]).
      destruct tools as [|t0 tools0]; [discriminate|]. simpl.
      split; [tauto|reflexivity].
Qed.

(** X7.  What the other labels guarantee about the tools:
    [create-new-file] is only given when [write] was called,
    [modify-existing-file] only when [write] or [edit] was called,
    [conversational] only when no tool was called, and [unknown] only when
    some tool was called. *)
Theorem labels_guarantee_tools (um : UserMessage)
    (timeline : list TimelineEvent.t) :
  let tools := toolsOf timeline in
  (detectTaskType um timeline = create_new_file -> In "write"%string tools)
  /\ (detectTaskType um timeline = modify_existing_file ->
        In "write"%string tools \/ In "edit"%string tools)
  /\ (detectTaskType um timeline = conversational -> tools = [])
  /\ (detectTaskType um timeline = unknown -> tools <> []).
Proof.
  intros tools. unfold detectTaskType. fold tools.
  split; [|split; [|split]].
  - label_cases; intros H; try discriminate.
    repeat match goal with
           | H : _ && _ = true |- _ => apply andb_true_iff in H; destruct H
           end.
    now apply includes_true.
  - label_cases; intros H; try discriminate.
    repeat match goal with
           | H : _ && _ = true |- _ => apply andb_true_iff in H; destruct H
           | H : _ || _ = true |- _ => apply orb_true_iff in H; destruct H
           end; [left|right]; now apply includes_true.
  - label_cases; intros H; try discriminate.
    destruct tools; [reflexivity|discriminate].
  - label_cases; intros H; try discriminate.
    destruct tools; [discriminate|congruence].
Qed.

Lemma lower_char_idempotent (c : ascii) :
  Regex.lower_char (Regex.lower_char c) = Regex.lower_char c.
Proof.
  destruct c as [[] [] [] [] [] [] [] []]; reflexivity.
Qed.

Lemma toLowerCase_idempotent (s : string) :
  Regex.toLowerCase (Regex.toLowerCase s) = Regex.toLowerCase s.
Proof.
  induction s as [|c s IH]; simpl; [reflexivity|].
  now rewrite lower_char_idempotent, IH.
Qed.

(** X8.  The classifier does not see the case of the message: two
    messages that are equal once lower-cased are classified alike, and a
    message is classified as its lower-cased copy is. *)
Theorem classification_ignores_case (s1 s2 : string)
    (timeline : list TimelineEvent.t) :
  Regex.toLowerCase s1 = Regex.toLowerCase s2 ->
  detectTaskType (UMString s1) timeline
  = detectTaskType (UMString s2) timeline
  /\ detectTaskType (UMString (Regex.toLowerCase s1)) timeline
     = detectTaskType (UMString s1) timeline.
Proof.
  intros H. unfold detectTaskType, messageText.
  rewrite toLowerCase_idempotent, H. split; reflexivity.
Qed.

End Labels.

Lemma classification_ignores_case_witness :
  TaskTypeDetector.detectTaskType (UMString "CREATE a Function")
    [toolCallEvent "write" 1000]
  = TaskTypeDetector.detectTaskType (UMString "create a function")
      [toolCallEvent "write" 1000].
Proof.
  apply (classification_ignores_case "CREATE a Function"
           "create a function").
  reflexivity.
Defined.

(* ================================================================== *)
(** * The entries of the applicability matrix *)
(* ================================================================== *)

Section MatrixEntries.

Import TaskTypeDetector.

Lemma rowOf_cases (m : Matrix) (evaluatorName : string)
    (P : option Row -> Prop) :
  (forall row, In (evaluatorName, row) m -> P (Some row)) ->
  P None ->
  P (rowOf m evaluatorName).
Proof.
  intros Hsome Hnone.
  induction m as [|[name row] m IH]; simpl; [exact Hnone|].
  destruct (String.eqb name evaluatorName) eqn:E.
  - apply String.eqb_eq in E. subst. apply Hsome. now left.
  - apply IH. intros r Hr. apply Hsome. now right.
Qed.

Lemma matrix_row_cases (evaluatorName : string) (P : option Row -> Prop) :
  (forall row, In (evaluatorName, row) matrix -> P (Some row)) ->
  P None ->
  P (rowOf matrix evaluatorName).
Proof. apply rowOf_cases. Qed.

(** X9.  The look-up gives a reason exactly when it says inapplicable:
    for every evaluator name and task type, [applicable] is [false] if
    and only if [reason] is present. *)
Theorem reason_exactly_when_inapplicable (evaluatorName : string)
    (taskType : TaskType) :
  applicable (getEvaluatorApplicability evaluatorName taskType) = false
  <-> reason (getEvaluatorApplicability evaluatorName taskType) <> None.
Proof.
  unfold getEvaluatorApplicability, applicabilityIn.
  apply (matrix_row_cases evaluatorName
           (fun r =>
              applicable
                match r with
                | Some row =>
                    JS.or_else (entryOf row taskType)
                               (mkApplicability true None)
                | None => mkApplicability true None
                end = false
              <-> reason
                    match r with
                    | Some row =>
                        JS.or_else (entryOf row taskType)
                                   (mkApplicability true None)
                    | None => mkApplicability true None
                    end <> None)).
  - intros row Hin. unfold matrix in Hin. simpl in Hin.
    repeat (destruct Hin as [Hin|Hin];
            [injection Hin as _ <-; destruct taskType; simpl;
             split; intros H; congruence|]).
    destruct Hin.
  - simpl. split; intros H; congruence.
Qed.

(** X10.  A session that could not be classified is judged by every
    evaluator: for the task type [unknown] the look-up answers applicable
    for every evaluator name.  A conversational session is skipped by
    every evaluator that has a row in the matrix except the
    declared-behaviour one. *)
Theorem unknown_runs_all_conversational_skips (evaluatorName : string) :
  applicable (getEvaluatorApplicability evaluatorName unknown) = true
  /\ (rowOf matrix evaluatorName <> None ->
      evaluatorName <> "behavior"%string ->
      applicable (getEvaluatorApplicability evaluatorName conversational)
      = false).
Proof.
  unfold getEvaluatorApplicability, applicabilityIn.
  apply (matrix_row_cases evaluatorName
           (fun r =>
              applicable
                match r with
                | Some row =>
                    JS.or_else (entryOf row unknown)
                               (mkApplicability true None)
                | None => mkApplicability true None
                end = true
              /\ (r <> None -> evaluatorName <> "behavior"%string ->
                  applicable
                    match r with
                    | Some row =>
                        JS.or_else (entryOf row conversational)
                                   (mkApplicability true None)
                    | None => mkApplicability true None
                    end = false))).
  - intros row Hin. unfold matrix in Hin. simpl in Hin.
    repeat (destruct Hin as [Hin|Hin];
            [injection Hin as <- <-; simpl; split;
             [reflexivity|intros _ Hb; try reflexivity; congruence]|]).
    destruct Hin.
  - split; [reflexivity|]. intros H. congruence.
Qed.

End MatrixEntries.

Lemma unknown_runs_all_conversational_skips_witness :
  applicable
    (TaskTypeDetector.getEvaluatorApplicability "tool-usage" conversational)
  = false.
Proof.
  apply (unknown_runs_all_conversational_skips "tool-usage");
    discriminate.
Defined.

(* ================================================================== *)
(** * The registry of the runner *)
(* ================================================================== *)

Section Registry.

Import EvaluatorRunner.

#[local] Abbreviation names reg := (map fst reg).

Lemma ownEntry_replace_same (reg : EvaluatorRegistry) (key : string)
    (e : IEvaluator.t) :
  ownEntry reg key <> None -> ownEntry (replace reg key e) key = Some e.
Proof.
  induction reg as [|[k x] reg IH]; simpl; [congruence|].
  destruct (String.eqb k key) eqn:E; simpl; rewrite E; [reflexivity|].
  exact IH.
Qed.

Lemma ownEntry_replace_other (reg : EvaluatorRegistry) (key other : string)
    (e : IEvaluator.t) :
  other <> key ->
  ownEntry (replace reg key e) other = ownEntry reg other.
Proof.
  intros Hne. induction reg as [|[k x] reg IH]; simpl; [reflexivity|].
  destruct (String.eqb k key) eqn:E; simpl.
  - apply String.eqb_eq in E. subst k.
    destruct (String.eqb key other) eqn:E2; [|reflexivity].
    apply String.eqb_eq in E2. congruence.
  - now rewrite IH.
Qed.

Lemma ownEntry_none_iff (reg : EvaluatorRegistry) (key : string) :
  ownEntry reg key = None <-> ~ In key (names reg).
Proof.
  induction reg as [|[k x] reg IH]; simpl; [tauto|].
  destruct (String.eqb k key) eqn:E.
  - apply String.eqb_eq in E. split; [discriminate|]. intros H. tauto.
  - apply String.eqb_neq in E. rewrite IH. tauto.
Qed.

(** Where a new entry goes: the entries before it and after it stay as
    they were. *)
Lemma insertIndex_splits (reg : EvaluatorRegistry) (index : Z)
    (key : string) (e : IEvaluator.t) :
  exists before after,
    reg = before ++ after
    /\ insertIndex reg index key e = before ++ (key, e) :: after
    /\ Forall (fun entry =>
                 exists i, JS.arrayIndex (fst entry) = Some i /\ i < index)
              before.
Proof.
  induction reg as [|[k x] reg IH]; simpl.
  - exists [], []. repeat split. constructor.
  - destruct (JS.arrayIndex k) as [i|] eqn:Ei.
    + destruct (i <? index) eqn:El.
      * destruct IH as (before & after & Hr & Hi & Hb).
        exists ((k, x) :: before), after. simpl.
        rewrite <- Hr, Hi. repeat split.
        constructor; [|exact Hb]. exists i. simpl. split; [exact Ei|lia].
      * exists [], ((k, x) :: reg). repeat split. constructor.
    + exists [], ((k, x) :: reg). repeat split. constructor.
Qed.

(** An assignment to a new key that is not [__proto__] stores one entry
    and moves no other. *)
Lemma assign_new (reg : EvaluatorRegistry) (key : string)
    (e : IEvaluator.t) :
  ownEntry reg key = None -> key <> "__proto__"%string ->
  exists before after,
    reg = before ++ after
    /\ assign reg key e = before ++ (key, e) :: after
    /\ (forall i, JS.arrayIndex key = Some i ->
          Forall (fun entry =>
                    exists j, JS.arrayIndex (fst entry) = Some j /\ j < i)
                 before)
    /\ (JS.arrayIndex key = None -> after = []).
Proof.
  intros Hfree Hproto. unfold assign. rewrite Hfree.
  apply String.eqb_neq in Hproto. rewrite Hproto.
  destruct (JS.arrayIndex key) as [index|].
  - destruct (insertIndex_splits reg index key e)
      as (before & after & Hr & Hi & Hb).
    exists before, after. repeat split; try assumption.
    + intros i Hi'. injection Hi' as <-. exact Hb.
    + discriminate.
  - exists reg, []. rewrite app_nil_r. repeat split. discriminate.
Qed.

Lemma ownEntry_app (l1 l2 : EvaluatorRegistry) (key : string) :
  ownEntry (l1 ++ l2) key
  = match ownEntry l1 key with
    | Some e => Some e
    | None => ownEntry l2 key
    end.
Proof.
  induction l1 as [|[k x] l1 IH]; simpl; [reflexivity|].
  now destruct (String.eqb k key).
Qed.

Lemma ownEntry_assign_same (reg : EvaluatorRegistry) (key : string)
    (e : IEvaluator.t) :
  key <> "__proto__"%string -> ownEntry (assign reg key e) key = Some e.
Proof.
  intros Hproto. destruct (ownEntry reg key) as [x|] eqn:E.
  - unfold assign. rewrite E. apply ownEntry_replace_same. congruence.
  - destruct (assign_new reg key e E Hproto)
      as (before & after & Hr & -> & _).
    rewrite Hr, ownEntry_app in E. rewrite ownEntry_app.
    destruct (ownEntry before key); [discriminate|].
    simpl. now rewrite String.eqb_refl.
Qed.

Lemma ownEntry_assign_other (reg : EvaluatorRegistry) (key other : string)
    (e : IEvaluator.t) :
  other <> key ->
  ownEntry (assign reg key e) other = ownEntry reg other.
Proof.
  intros Hne. destruct (ownEntry reg key) as [x|] eqn:E.
  - unfold assign. rewrite E. now apply ownEntry_replace_other.
  - destruct (string_dec key "__proto__") as [Hp|Hp].
    + unfold assign. rewrite E. subst key. reflexivity.
    + destruct (assign_new reg key e E Hp)
        as (before & after & Hr & -> & _).
      rewrite Hr, !ownEntry_app. simpl.
      destruct (String.eqb key other) eqn:E2; [|reflexivity].
      apply String.eqb_eq in E2. congruence.
Qed.

Lemma names_replace (reg : EvaluatorRegistry) (key : string)
    (e : IEvaluator.t) :
  names (replace reg key e) = names reg.
Proof.
  induction reg as [|[k x] reg IH]; simpl; [reflexivity|].
  destruct (String.eqb k key); simpl; [reflexivity|]. now rewrite IH.
Qed.

(** X11.  Registering an evaluator stores it under its name and leaves
    every other name as it was: for an evaluator that is not named
    [__proto__], [getEvaluator] returns the evaluator just registered,
    also when the name was taken before, and returns for any other name
    what it returned before. *)
Theorem register_then_getEvaluator (runner : EvaluatorRunner.t)
    (e : IEvaluator.t) :
  IEvaluator.name e <> "__proto__"%string ->
  getEvaluator (register runner e) (IEvaluator.name e) = Some (Registered e)
  /\ (forall other,
        other <> IEvaluator.name e ->
        getEvaluator (register runner e) other = getEvaluator runner other).
Proof.
  intros Hproto. unfold getEvaluator, register, lookup. simpl. split.
  - now rewrite ownEntry_assign_same.
  - intros other Hne. now rewrite ownEntry_assign_other.
Qed.

Lemma NoDup_insert {A} (x : A) (l1 l2 : list A) :
  NoDup (l1 ++ l2) -> ~ In x (l1 ++ l2) -> NoDup (l1 ++ x :: l2).
Proof.
  intros Hn Hx. induction l1 as [|y l1 IH]; simpl in *.
  - now constructor.
  - apply NoDup_cons_iff in Hn. destruct Hn as (Hy & Hn).
    constructor.
    + rewrite in_app_iff in *. simpl. intros [H|[H|H]]; subst; tauto.
    + apply IH; tauto.
Qed.

Lemma NoDup_names_filter (f : string * IEvaluator.t -> bool)
    (reg : EvaluatorRegistry) :
  NoDup (names reg) -> NoDup (names (filter f reg)).
Proof.
  induction reg as [|[k x] reg IH]; simpl; [constructor|].
  intros Hn. apply NoDup_cons_iff in Hn. destruct Hn as (Hk & Hn).
  destruct (f (k, x)); simpl; [|now apply IH].
  constructor; [|now apply IH].
  intros Hin. apply Hk. apply in_map_iff in Hin.
  destruct Hin as ([k' x'] & Hk' & Hin'). simpl in Hk'. subst k'.
  apply filter_In in Hin'. apply in_map_iff. exists (k, x').
  split; [reflexivity|tauto].
Qed.

(** X12.  The registry never holds two evaluators of one name: if the
    names are distinct they stay distinct after [register] and after
    [unregister].  Registering under a name that is taken changes neither
    the number of evaluators nor their order.  A new name that is not
    [__proto__] is added without moving any other: at the end when it is
    no array index, and after no name other than smaller array indices
    when it is one. *)
Theorem registry_names_stay_distinct (runner : EvaluatorRunner.t)
    (e : IEvaluator.t) (evaluatorName : string) :
  NoDup (names (registry runner)) ->
  let name := IEvaluator.name e in
  let after_register := names (registry (register runner e)) in
  NoDup after_register
  /\ NoDup (names (registry (unregister runner evaluatorName)))
  /\ (In name (names (registry runner)) ->
      after_register = names (registry runner))
  /\ (~ In name (names (registry runner)) -> name <> "__proto__"%string ->
      (JS.arrayIndex name = None ->
       after_register = names (registry runner) ++ [name])
      /\ (forall i, JS.arrayIndex name = Some i ->
            exists earlier later,
              names (registry runner) = earlier ++ later
              /\ after_register = earlier ++ name :: later
              /\ forall k, In k earlier ->
                   exists j, JS.arrayIndex k = Some j /\ j < i)).
Proof.
  intros Hn name after_register.
  unfold after_register, name, register, unregister. simpl.
  set (reg := registry runner) in *. set (key := IEvaluator.name e).
  assert (Htaken : In key (names reg) ->
                   names (assign reg key e) = names reg).
  { intros Hin. unfold assign.
    destruct (ownEntry reg key) eqn:E; [apply names_replace|].
    now apply ownEntry_none_iff in E. }
  assert (Hnew : ~ In key (names reg) -> key <> "__proto__"%string ->
                 exists before after,
                   reg = before ++ after
                   /\ assign reg key e = before ++ (key, e) :: after
                   /\ (forall i, JS.arrayIndex key = Some i ->
                         Forall (fun entry =>
                                   exists j, JS.arrayIndex (fst entry)
                                             = Some j /\ j < i)
                                before)
                   /\ (JS.arrayIndex key = None -> after = [])).
  { intros Hfree Hp. apply assign_new; [|exact Hp].
    now apply ownEntry_none_iff. }
  split; [|split; [|split; [exact Htaken|]]].
  - destruct (in_dec string_dec key (names reg)) as [Hin|Hfree].
    + now rewrite Htaken.
    + destruct (string_dec key "__proto__") as [Hp|Hp].
      * unfold assign.
        rewrite (proj2 (ownEntry_none_iff reg key) Hfree).
        rewrite Hp. exact Hn.
      * destruct (Hnew Hfree Hp) as (before & after & Hr & -> & _).
        rewrite Hr in Hn, Hfree. rewrite map_app in *. simpl.
        now apply NoDup_insert.
  - now apply NoDup_names_filter.
  - intros Hfree Hp.
    destruct (Hnew Hfree Hp) as (before & after & Hr & Ha & Hi & He).
    split.
    + intros Hnone. rewrite Ha, Hr, (He Hnone), !map_app. simpl.
      now rewrite app_nil_r.
    + intros i Hsome. exists (names before), (names after).
      rewrite Ha, Hr, !map_app. repeat split.
      intros k Hk. apply in_map_iff in Hk.
      destruct Hk as (entry & <- & Hin).
      specialize (Hi i Hsome). rewrite Forall_forall in Hi.
      now apply Hi.
Qed.

Lemma filter_insert_fresh (before after : EvaluatorRegistry) (key : string)
    (e : IEvaluator.t) :
  ~ In key (names (before ++ after)) ->
  filter (fun entry => negb (String.eqb (fst entry) key))
         (before ++ (key, e) :: after)
  = before ++ after.
Proof.
  intros Hfree. rewrite filter_app. simpl. rewrite String.eqb_refl. simpl.
  rewrite <- filter_app. apply filter_all. apply Forall_forall.
  intros [k x] Hin. simpl. apply negb_true_iff, String.eqb_neq.
  intros ->. apply Hfree. apply in_map_iff. now exists (key, x).
Qed.

(** X13.  [unregister] removes the evaluator of the given name and no
    other; attaching an evaluator, not named [__proto__], under a name
    that is free and detaching it again gives back the registry as it
    was; and after attaching and detaching under one name the registry
    answers that name with no evaluator, also when the name was taken
    before, so that the evaluator that held it is lost. *)
Theorem unregister_detaches (runner : EvaluatorRunner.t)
    (e : IEvaluator.t) (evaluatorName : string) :
  IEvaluator.name e <> "__proto__"%string ->
  ownEntry (registry (unregister runner evaluatorName)) evaluatorName = None
  /\ (forall other,
        other <> evaluatorName ->
        ownEntry (registry (unregister runner evaluatorName)) other
        = ownEntry (registry runner) other)
  /\ (ownEntry (registry runner) (IEvaluator.name e) = None ->
      registry (unregister (register runner e) (IEvaluator.name e))
      = registry runner)
  /\ (forall x,
        getEvaluator (unregister (register runner e) (IEvaluator.name e))
                     (IEvaluator.name e)
        <> Some (Registered x)).
Proof.
  intros Hproto.
  assert (Hrem : forall reg key,
             ownEntry
               (filter (fun entry => negb (String.eqb (fst entry) key)) reg)
               key = None).
  { intros reg key. induction reg as [|[k x] reg IH]; simpl; [reflexivity|].
    destruct (String.eqb k key) eqn:E; simpl; [exact IH|].
    now rewrite E. }
  unfold unregister, register, getEvaluator, lookup. simpl.
  split; [apply Hrem|]. split; [|split].
  - intros other Hne.
    induction (registry runner) as [|[k x] reg IH]; simpl; [reflexivity|].
    destruct (String.eqb k evaluatorName) eqn:E; simpl.
    + apply String.eqb_eq in E. subst k.
      destruct (String.eqb evaluatorName other) eqn:E2; [|exact IH].
      apply String.eqb_eq in E2. congruence.
    + now rewrite IH.
  - intros Hfree.
    destruct (assign_new (registry runner) (IEvaluator.name e) e Hfree
                Hproto) as (before & after & Hr & -> & _).
    rewrite Hr. apply filter_insert_fresh. rewrite <- Hr.
    now apply ownEntry_none_iff.
  - intros x. rewrite Hrem.
    match goal with
    | |- context [if ?c then _ else _] => destruct c
    end; discriminate.
Qed.

End Registry.

(** A second evaluator under the name [tool-usage] replaces the first and
    leaves the declared-behaviour evaluator where it was. *)
Lemma register_then_getEvaluator_witness :
  let runner :=
    EvaluatorRunner.register threeEvaluators (gated "tool-usage" mustRead) in
  EvaluatorRunner.getEvaluator runner "tool-usage"
  = Some (EvaluatorRunner.Registered (gated "tool-usage" mustRead))
  /\ EvaluatorRunner.getEvaluator runner "behavior"
     = EvaluatorRunner.getEvaluator threeEvaluators "behavior".
Proof.
  destruct (register_then_getEvaluator threeEvaluators
              (gated "tool-usage" mustRead)) as (H1 & H2);
    [discriminate|].
  split; [exact H1|]. apply H2. discriminate.
Defined.

(** A name that is taken keeps its place, and the evaluator named [7]
    goes before the three that have no array index for a name. *)
Lemma registry_names_stay_distinct_witness :
  NoDup (map fst (EvaluatorRunner.registry threeEvaluators))
  /\ map fst
       (EvaluatorRunner.registry
          (EvaluatorRunner.register threeEvaluators
             (gated "tool-usage" mustRead)))
     = ["behavior"; "tool-usage"; "delegation"]
  /\ map fst
       (EvaluatorRunner.registry
          (EvaluatorRunner.register threeEvaluators (gated "7" mustRead)))
     = ["7"; "behavior"; "tool-usage"; "delegation"].
Proof.
  assert (H0 : NoDup (map fst (EvaluatorRunner.registry threeEvaluators))).
  { vm_compute. repeat constructor; simpl; intuition discriminate. }
  split; [exact H0|].
  destruct (registry_names_stay_distinct threeEvaluators
              (gated "tool-usage" mustRead) "x" H0) as (_ & _ & H & _).
  split; [|reflexivity].
  rewrite H; [reflexivity|]. vm_compute. tauto.
Defined.

Lemma unregister_detaches_witness :
  EvaluatorRunner.registry
    (EvaluatorRunner.unregister
       (EvaluatorRunner.register
          (EvaluatorRunner.mk [] sdkReader plainParser)
          (EvaluatorRunner.behaviorEvaluator plainQueries mustRead))
       "behavior")
  = [].
Proof.
  apply (unregister_detaches (EvaluatorRunner.mk [] sdkReader plainParser)
           (EvaluatorRunner.behaviorEvaluator plainQueries mustRead)
           "behavior").
  - discriminate.
  - reflexivity.
Defined.

(* ================================================================== *)
(** * Runs of the runner *)
(* ================================================================== *)

Section Runs.

Import EvaluatorRunner.

(** X14.  [runBatch] is all or nothing: when it returns, it returns one
    aggregated result per session id, in order; when any session of the
    list cannot be resolved it throws and returns no result at all, also
    for the sessions before it. *)
Theorem runBatch_all_or_nothing (runner : EvaluatorRunner.t)
    (sessionIds : list string) (evaluatorNames : option (list string))
    (now : Clock) :
  (forall results now',
      runBatch runner sessionIds evaluatorNames now = (Returned results, now')
      -> map AggregatedResult.sessionId results = sessionIds)
  /\ (forall missing,
        In missing sessionIds ->
        SessionReader.getSessionInfo (sessionReader runner) missing = None ->
        exists m now',
          runBatch runner sessionIds evaluatorNames now = (Threw m, now')).
Proof.
  split.
  - revert now.
    induction sessionIds as [|sid rest IH]; intros now results now'; simpl.
    + intros H. injection H as <- _. reflexivity.
    + destruct (runEvaluators runner sid evaluatorNames now)
        as [[result|m] now1] eqn:E1; [|discriminate].
      destruct (runBatch runner rest evaluatorNames now1)
        as [[others|m] now2] eqn:E2; [|discriminate].
      intros H. injection H as <- _. simpl. f_equal.
      * destruct (completed_run _ _ _ _ _ _ E1)
          as (si & rs & stamp & _ & _ & ->). reflexivity.
      * now apply IH with now1 now2.
  - revert now.
    induction sessionIds as [|sid rest IH]; intros now missing Hin Hnone;
      [destruct Hin|].
    simpl.
    destruct (runEvaluators runner sid evaluatorNames now)
      as [[result|m] now1] eqn:E1; [|eauto].
    destruct Hin as [->|Hin].
    + destruct (completed_run _ _ _ _ _ _ E1)
        as (si & rs & stamp & _ & Hsome & _). congruence.
    + destruct (IH now1 missing Hin Hnone) as (m & now2 & ->). eauto.
Qed.

Lemma runEach_throws (slots : list Slot) (e : IEvaluator.t)
    (timeline : list TimelineEvent.t) (sessionInfo : SessionInfo.t)
    (now : Clock) :
  In (Registered e) slots -> alwaysThrows e ->
  exists m now', runEach slots timeline sessionInfo now = (Threw m, now').
Proof.
  intros Hin Hthrow. revert now.
  induction slots as [|slot slots IH]; intros now; [destruct Hin|].
  simpl. destruct slot as [x|]; [|eauto].
  destruct (IEvaluator.evaluate x timeline sessionInfo now)
    as [[result|m] now1] eqn:E; [|eauto].
  destruct Hin as [Heq|Hin].
  - injection Heq as ->.
    destruct (Hthrow timeline sessionInfo now) as (m & now' & Hm). congruence.
  - destruct (IH Hin now1) as (m & now2 & ->). eauto.
Qed.

(** X15.  One evaluator that throws fails the whole run: when a registered
    evaluator throws on every input, [runAll] throws for every session,
    whatever the other evaluators return, and no aggregated result is
    produced. *)
Theorem throwing_evaluator_fails_run (runner : EvaluatorRunner.t)
    (evaluatorName : string) (e : IEvaluator.t) (sessionId : string)
    (now : Clock) :
  In (evaluatorName, e) (registry runner) ->
  alwaysThrows e ->
  exists m now', runAll runner sessionId now = (Threw m, now').
Proof.
  intros Hin Hthrow. unfold runAll, runEvaluators.
  destruct (SessionReader.getSessionInfo (sessionReader runner) sessionId)
    as [sessionInfo|]; [|eauto].
  destruct (JS.maxArrayLength <? Z.of_nat (List.length (getEvaluators runner)));
    [eauto|].
  destruct (List.length (getEvaluators runner) =? 0)%nat; [eauto|].
  assert (Hslot : In (Registered e) (getEvaluators runner)).
  { unfold getEvaluators. apply in_map_iff.
    exists (evaluatorName, e). split; [reflexivity|exact Hin]. }
  destruct (runEach_throws _ e
              (buildTimeline (timelineBuilder runner) (sessionReader runner)
                 sessionId)
              sessionInfo now Hslot Hthrow) as (m & now' & ->).
  eauto.
Qed.

Lemma runEach_all_registered (slots : list Slot)
    (timeline : list TimelineEvent.t) (sessionInfo : SessionInfo.t)
    (now now' : Clock) (results : list EvaluationResult.t) :
  runEach slots timeline sessionInfo now = (Returned results, now') ->
  ~ In Inherited slots.
Proof.
  revert now now' results.
  induction slots as [|slot slots IH]; intros now now' results; simpl;
    [tauto|].
  destruct slot as [x|]; [|discriminate].
  destruct (IEvaluator.evaluate x timeline sessionInfo now)
    as [[result|m] now1]; [|discriminate].
  destruct (runEach slots timeline sessionInfo now1)
    as [[rest|m] now2] eqn:E; [|discriminate].
  intros _ [F|F]; [discriminate|]. exact (IH now1 now2 rest E F).
Qed.

Lemma selected_length (reg : EvaluatorRegistry) (evaluatorNames : list string) :
  ~ In Inherited (selected reg evaluatorNames) ->
  List.length (selected reg evaluatorNames)
  = List.length
      (filter (fun n => JS.includes (map fst reg) n) evaluatorNames).
Proof.
  induction evaluatorNames as [|n rest IH]; simpl; [reflexivity|].
  unfold lookup.
  destruct (ownEntry reg n) as [x|] eqn:E.
  - assert (Hin : JS.includes (map fst reg) n = true).
    { apply includes_true.
      destruct (in_dec string_dec n (map fst reg)) as [H|H]; [exact H|].
      apply ownEntry_none_iff in H. congruence. }
    rewrite Hin. simpl. intros H. f_equal. apply IH. tauto.
  - assert (Hin : JS.includes (map fst reg) n = false).
    { apply includes_false. now apply ownEntry_none_iff. }
    rewrite Hin.
    destruct (JS.includes objectPrototypeKeys n); simpl; [tauto|].
    exact IH.
Qed.

(** X16.  Selecting evaluators by name: names that are not registered are
    passed over in silence, so a completed run has one result per given
    name that is registered, a name given twice counting twice; and when
    none of the given names is registered, or the list is empty, the run
    throws instead of returning an empty aggregate. *)
Theorem selection_by_name (runner : EvaluatorRunner.t) (sessionId : string)
    (evaluatorNames : list string) (now : Clock) :
  (forall aggregated now',
      runEvaluators runner sessionId (Some evaluatorNames) now
      = (Returned aggregated, now') ->
      List.length (AggregatedResult.evaluatorResults aggregated)
      = List.length
          (filter (fun n => JS.includes (map fst (registry runner)) n)
                  evaluatorNames))
  /\ ((forall n, In n evaluatorNames ->
         getEvaluator runner n = None) ->
      exists m,
        runEvaluators runner sessionId (Some evaluatorNames) now
        = (Threw m, now)).
Proof.
  split.
  - intros aggregated now'. unfold runEvaluators.
    destruct (SessionReader.getSessionInfo (sessionReader runner) sessionId)
      as [sessionInfo|]; [|discriminate].
    destruct (JS.maxArrayLength
              <? Z.of_nat
                   (List.length (selected (registry runner) evaluatorNames)));
      [discriminate|].
    destruct (List.length (selected (registry runner) evaluatorNames) =? 0)%nat;
      [discriminate|].
    destruct (runEach (selected (registry runner) evaluatorNames) _
                sessionInfo now) as [[results|m] now1] eqn:E; [|discriminate].
    simpl. intros H. injection H as <- _. simpl.
    rewrite (runEach_nonempty _ _ _ _ _ _ E).
    apply selected_length. now apply runEach_all_registered in E.
  - intros Hnone. unfold runEvaluators.
    destruct (SessionReader.getSessionInfo (sessionReader runner) sessionId)
      as [sessionInfo|]; [|eauto].
    assert (Hsel : selected (registry runner) evaluatorNames = []).
    { induction evaluatorNames as [|n rest IH]; simpl; [reflexivity|].
      unfold getEvaluator in Hnone.
      rewrite (Hnone n) by now left.
      apply IH. intros k Hk. apply Hnone. now right. }
    rewrite Hsel. simpl. eauto.
Qed.

(** X17.  Aggregation keeps the range of the scores: when every evaluator
    of a completed run returns a score between 0 and 100, the overall
    score is an integer between 0 and 100. *)
Theorem overall_score_within_bounds (runner : EvaluatorRunner.t)
    (sessionId : string) (evaluatorNames : option (list string))
    (now now' : Clock) (aggregated : AggregatedResult.t) :
  runEvaluators runner sessionId evaluatorNames now
  = (Returned aggregated, now') ->
  Forall (fun r => (0 <= EvaluationResult.score r <= 100)%Q)
         (AggregatedResult.evaluatorResults aggregated) ->
  0 <= AggregatedResult.overallScore aggregated <= 100.
Proof.
  intros Hrun Hall.
  pose proof (completed_run_is_array _ _ _ _ _ _ Hrun) as Harr.
  destruct (completed_run _ _ _ _ _ _ Hrun)
    as (sessionInfo & results & stamp & Hne & _ & ->).
  change (AggregatedResult.evaluatorResults
            (aggregateResults sessionId sessionInfo results stamp))
    with results in Hall, Harr.
  rewrite aggregate_score by exact Hne.
  assert (Hm : (0 <= mean64 (map EvaluationResult.score results) <= 100)%Q).
  { apply mean64_bounds.
    - destruct results; [congruence|discriminate].
    - rewrite Forall_map. exact Hall.
    - now rewrite length_map. }
  destruct Hm as (Hl & Hu). unfold JS.Math_round.
  set (x := mean64 (map EvaluationResult.score results)) in *.
  split.
  - assert (H : (Qfloor 0 <= Qfloor (x + (1 # 2)))%Z)
      by (apply Qfloor_resp_le; lra).
    exact H.
  - assert (H : (Qfloor (x + (1 # 2)) <= Qfloor (100 + (1 # 2)))%Z)
      by (apply Qfloor_resp_le; lra).
    exact H.
Qed.

End Runs.

Lemma runBatch_all_or_nothing_witness :
  exists m now',
    EvaluatorRunner.runBatch threeEvaluators ["ses_1"; "ses_2"] None
      (clockFrom 5000)
    = (Threw m, now').
Proof.
  apply (runBatch_all_or_nothing threeEvaluators ["ses_1"; "ses_2"] None
           (clockFrom 5000)) with (missing := "ses_2"%string).
  - right. now left.
  - reflexivity.
Defined.

Lemma throwing_evaluator_fails_run_witness :
  exists m now',
    EvaluatorRunner.runAll
      (EvaluatorRunner.register threeEvaluators brokenEvaluator)
      "ses_1" (clockFrom 5000)
    = (Threw m, now').
Proof.
  apply (throwing_evaluator_fails_run _ "broken" brokenEvaluator).
  - simpl. tauto.
  - intros timeline sessionInfo now. simpl. eauto.
Defined.

Lemma selection_by_name_witness :
  exists m,
    EvaluatorRunner.runEvaluators threeEvaluators "ses_1"
      (Some ["approval-gate"; "report-first"]) (clockFrom 5000)
    = (Threw m, clockFrom 5000).
Proof.
  apply (selection_by_name threeEvaluators "ses_1"
           ["approval-gate"; "report-first"] (clockFrom 5000)).
  intros n [<-|[<-|[]]]; reflexivity.
Defined.

Lemma overall_score_within_bounds_witness :
  exists aggregated now',
    EvaluatorRunner.runEvaluators threeEvaluators "ses_1" None
      (clockFrom 5000)
    = (Returned aggregated, now')
    /\ 0 <= AggregatedResult.overallScore aggregated <= 100.
Proof.
  destruct (EvaluatorRunner.runEvaluators threeEvaluators "ses_1" None
              (clockFrom 5000)) as [[aggregated|m] now'] eqn:E.
  - exists aggregated, now'. split; [reflexivity|].
    apply (overall_score_within_bounds _ _ _ _ _ _ E).
    vm_compute in E. injection E as <- _.
    repeat constructor; unfold Qle; simpl; lia.
  - vm_compute in E. discriminate.
Defined.

(* ================================================================== *)
(** * The verdict of a test *)
(* ================================================================== *)

Section Verdict.

Import TestCase.
Import TestRunner.

(** X18.  Execution errors fail a test unless it expects to fail: with at
    least one error and [expected.pass] other than [false], the verdict
    is [false], whatever the evaluation says. *)
Theorem execution_errors_fail_test (testCase : TestCase.t)
    (events : list ServerEvent) (errors : list string)
    (evaluation : option AggregatedResult.t) :
  errors <> [] ->
  (forall e, expected testCase = Some e -> pass e <> Some false) ->
  evaluateResult testCase events errors evaluation = Returned false.
Proof.
  intros Herr Hpass. unfold evaluateResult.
  assert (Hx : match expected testCase with
               | Some e => is_false (pass e)
               | None => false
               end = false).
  { destruct (expected testCase) as [e|]; [|reflexivity].
    specialize (Hpass e eq_refl).
    destruct (pass e) as [[|]|]; simpl; congruence. }
  rewrite Hx. destruct errors; [congruence|reflexivity].
Qed.

(** X19.  A test that passes has a passing behaviour result: when the
    test declares a behaviour and the evaluation has a result of the
    [behavior] evaluator, a verdict of [true] means that the first such
    result passed and holds no violation of error severity. *)
Theorem passed_test_has_passing_behavior (testCase : TestCase.t)
    (events : list ServerEvent) (errors : list string)
    (evaluation : AggregatedResult.t) (b : BehaviorExpectation.t)
    (behaviorResult : EvaluationResult.t) :
  evaluateResult testCase events errors (Some evaluation) = Returned true ->
  behavior testCase = Some b ->
  find (fun r => String.eqb (EvaluationResult.evaluator r) "behavior")
       (AggregatedResult.evaluatorResults evaluation)
  = Some behaviorResult ->
  EvaluationResult.passed behaviorResult = true
  /\ errorViolations (EvaluationResult.violations behaviorResult) = [].
Proof.
  intros Hres Hb Hfind. unfold evaluateResult in Hres.
  destruct ((0 <? List.length errors)%nat && _); [discriminate|].
  destruct (behaviorStage testCase (Some evaluation)) eqn:Es;
    [|discriminate].
  unfold behaviorStage in Es. rewrite Hb, Hfind in Es.
  destruct (EvaluationResult.passed behaviorResult); [|discriminate].
  split; [reflexivity|].
  destruct (errorViolations (EvaluationResult.violations behaviorResult));
    [reflexivity|discriminate].
Qed.

(** X20.  A test that only declares [expected.pass = false] always
    passes: without message bounds, deprecated violations, behaviour and
    expected violations, the verdict is [true] for every list of events,
    every list of errors and every evaluation. *)
Theorem expected_failure_always_passes (testCase : TestCase.t)
    (events : list ServerEvent) (errors : list string)
    (evaluation : option AggregatedResult.t) :
  expected testCase = Some (mkExpected (Some false) None None None) ->
  behavior testCase = None ->
  expectedViolations testCase = None ->
  evaluateResult testCase events errors evaluation = Returned true.
Proof.
  intros He Hb Hv. unfold evaluateResult, behaviorStage.
  rewrite He, Hb, Hv. simpl. rewrite andb_false_r.
  unfold deprecatedStage. simpl.
  destruct evaluation; reflexivity.
Qed.

Lemma addTypes_spec (vs : list Violation.t) (seen : list string) (t : string) :
  In t (addTypes seen vs) <->
  In t seen \/ exists v, In v vs /\ Violation.type v = t.
Proof.
  revert seen. induction vs as [|v vs IH]; intros seen; simpl.
  - split; [tauto|]. intros [H|(v & [] & _)]. exact H.
  - destruct (JS.includes seen (Violation.type v)) eqn:E; rewrite IH.
    + apply includes_true in E. split.
      * intros [H|(w & Hw & Ht)]; [tauto|]. right. eauto.
      * intros [H|(w & [<-|Hw] & Ht)]; [tauto| |].
        -- left. now rewrite <- Ht.
        -- right. eauto.
    + rewrite in_app_iff. simpl. split.
      * intros [[H|[H|[]]]|(w & Hw & Ht)]; [tauto| |].
        -- right. exists v. tauto.
        -- right. eauto.
      * intros [H|(w & [<-|Hw] & Ht)]; [tauto| |].
        -- left. right. now left.
        -- right. eauto.
Qed.

Lemma matchesAny_by_type (patterns : list string) (v w : Violation.t) :
  Violation.type v = Violation.type w ->
  matchesAny patterns v = matchesAny patterns w.
Proof. intros H. unfold matchesAny. now rewrite H. Qed.

(** The loop over the expected violations, when it runs to its end. *)
Lemma checkExpectedViolations_next (evs : list ExpectedViolation)
    (all : list Violation.t) (seen seen' : list string) :
  checkExpectedViolations evs all seen = Next seen' ->
  (forall x, In x evs ->
     exists actual,
       actualViolations (rule x) all = Returned actual
       /\ (shouldViolate x = Some true -> actual <> [])
       /\ (shouldViolate x <> Some true -> actual = []))
  /\ (forall v, In v all -> In (Violation.type v) seen' ->
        In (Violation.type v) seen \/ expected_by evs v).
Proof.
  revert seen.
  induction evs as [|x evs IH]; intros seen; simpl.
  - intros H. injection H as <-. split; [intros x []|tauto].
  - destruct (actualViolations (rule x) all) as [actual|m] eqn:Ea;
      [|discriminate].
    assert (Hshape :
              forall patterns, patternsOf (rule x) = Some patterns ->
                               actual = filter (matchesAny patterns) all).
    { intros patterns Hp. unfold actualViolations in Ea.
      rewrite Hp in Ea. now injection Ea as <-. }
    destruct (shouldViolate x) as [[|]|] eqn:Es.
    + destruct (List.length actual =? 0)%nat eqn:El; [discriminate|].
      intros H. destruct (IH _ H) as (H1 & H2). split.
      * intros y [<-|Hy]; [|now apply H1].
        exists actual. split; [exact Ea|]. split.
        -- intros _ ->. discriminate.
        -- congruence.
      * intros v Hv Hin. destruct (H2 v Hv Hin) as [Hs|(y & ps & Hy)].
        -- apply addTypes_spec in Hs.
           destruct Hs as [Hs|(w & Hw & Ht)]; [now left|].
           right. unfold actualViolations in Ea.
           destruct (patternsOf (rule x)) as [ps|] eqn:Ep.
           ++ injection Ea as <-. apply filter_In in Hw.
              exists x, ps. split; [now left|]. split; [exact Es|].
              split; [exact Ep|].
              rewrite (matchesAny_by_type ps v w) by congruence. tauto.
           ++ destruct all; [destruct Hv|discriminate].
        -- right. exists y, ps. simpl. tauto.
    + destruct (0 <? List.length actual)%nat eqn:El; [discriminate|].
      intros H. destruct (IH _ H) as (H1 & H2). split.
      * intros y [<-|Hy]; [|now apply H1].
        exists actual. split; [exact Ea|]. split; [congruence|].
        intros _. destruct actual; [reflexivity|discriminate].
      * intros v Hv Hin. destruct (H2 v Hv Hin) as [Hs|(y & ps & Hy)];
          [now left|].
        right. exists y, ps. simpl. tauto.
    + destruct (0 <? List.length actual)%nat eqn:El; [discriminate|].
      intros H. destruct (IH _ H) as (H1 & H2). split.
      * intros y [<-|Hy]; [|now apply H1].
        exists actual. split; [exact Ea|]. split; [congruence|].
        intros _. destruct actual; [reflexivity|discriminate].
      * intros v Hv Hin. destruct (H2 v Hv Hin) as [Hs|(y & ps & Hy)];
          [now left|].
        right. exists y, ps. simpl. tauto.
Qed.

(** X21.  A test that passes met every expected violation: with an
    evaluation, a verdict of [true] means that each rule marked
    [shouldViolate] matched at least one violation and each other rule
    matched none. *)
Theorem passed_test_met_expected_violations (testCase : TestCase.t)
    (events : list ServerEvent) (errors : list string)
    (evaluation : AggregatedResult.t) (evs : list ExpectedViolation) :
  evaluateResult testCase events errors (Some evaluation) = Returned true ->
  expectedViolations testCase = Some evs ->
  forall x, In x evs ->
    exists actual,
      actualViolations (rule x) (AggregatedResult.allViolations evaluation)
      = Returned actual
      /\ (shouldViolate x = Some true -> actual <> [])
      /\ (shouldViolate x <> Some true -> actual = []).
Proof.
  intros Hres Hevs. unfold evaluateResult in Hres. rewrite Hevs in Hres.
  destruct ((0 <? List.length errors)%nat && _); [discriminate|].
  destruct (negb (behaviorStage testCase (Some evaluation)));
    [discriminate|].
  destruct (checkExpectedViolations evs
              (AggregatedResult.allViolations evaluation) [])
    as [|m|seen] eqn:E; try discriminate.
  apply (checkExpectedViolations_next _ _ _ _ E).
Qed.

(** X22.  Without an [expected] block a test passes only when it ran
    without error and every violation of error severity is accounted for:
    a verdict of [true] means that there is no execution error and, when
    the evaluation counts an error, that each violation of error severity
    is matched by a rule marked [shouldViolate]. *)
Theorem default_verdict_accounts_for_errors (testCase : TestCase.t)
    (events : list ServerEvent) (errors : list string)
    (evaluation : option AggregatedResult.t) :
  evaluateResult testCase events errors evaluation = Returned true ->
  expected testCase = None ->
  errors = []
  /\ (forall ev v,
        evaluation = Some ev ->
        (0 < SeverityCounts.error (AggregatedResult.violationsBySeverity ev))%nat ->
        In v (AggregatedResult.allViolations ev) ->
        Violation.severity v = error ->
        expected_by (JS.or_else (expectedViolations testCase) []) v).
Proof.
  intros Hres Hexp. unfold evaluateResult in Hres. rewrite Hexp in Hres.
  simpl in Hres. rewrite andb_true_r in Hres.
  destruct errors as [|err errors]; [|discriminate]. split; [reflexivity|].
  simpl in Hres.
  destruct (negb (behaviorStage testCase evaluation)); [discriminate|].
  intros ev v -> Hcount Hv Hsev.
  destruct (expectedViolations testCase) as [evs|] eqn:Eevs; simpl.
  - destruct (checkExpectedViolations evs
                (AggregatedResult.allViolations ev) [])
      as [|m|seen] eqn:E; try discriminate.
    destruct (checkExpectedViolations_next _ _ _ _ E) as (_ & H2).
    replace (0 <? SeverityCounts.error
                    (AggregatedResult.violationsBySeverity ev))%nat
      with true in Hres by (symmetry; apply Nat.ltb_lt; exact Hcount).
    destruct (filter _ (AggregatedResult.allViolations ev))
      as [|u us] eqn:Ef; [|discriminate].
    assert (Hseen : In (Violation.type v) seen).
    { destruct (JS.includes seen (Violation.type v)) eqn:Ei;
        [now apply includes_true|].
      assert (Hin : In v (filter
                (fun v0 => Severity_eqb (Violation.severity v0) error
                           && negb (JS.includes seen (Violation.type v0)))
                (AggregatedResult.allViolations ev))).
      { apply filter_In. split; [exact Hv|]. now rewrite Hsev, Ei. }
      rewrite Ef in Hin. destruct Hin. }
    destruct (H2 v Hv Hseen) as [[]|H]. exact H.
  - replace (0 <? SeverityCounts.error
                    (AggregatedResult.violationsBySeverity ev))%nat
      with true in Hres by (symmetry; apply Nat.ltb_lt; exact Hcount).
    destruct (filter _ (AggregatedResult.allViolations ev))
      as [|u us] eqn:Ef; [|discriminate].
    assert (Hin : In v (filter
              (fun v0 => Severity_eqb (Violation.severity v0) error
                         && negb (JS.includes [] (Violation.type v0)))
              (AggregatedResult.allViolations ev))).
    { apply filter_In. split; [exact Hv|]. now rewrite Hsev. }
    rewrite Ef in Hin. destruct Hin.
Qed.

Lemma split_no_slash (s : string) :
  no_slash s = true -> JS.split "/"%char s = [s].
Proof.
  induction s as [|c s IH]; simpl; [reflexivity|].
  intros H. apply andb_true_iff in H. destruct H as (Hc & Hs).
  destruct (Ascii.eqb c "/"); [discriminate|]. now rewrite (IH Hs).
Qed.

Lemma split_joined (a rest : string) :
  no_slash a = true ->
  JS.split "/"%char (a ++ String "/"%char rest)%string
  = a :: JS.split "/"%char rest.
Proof.
  induction a as [|c a IH]; simpl; [reflexivity|].
  intros H. apply andb_true_iff in H. destruct H as (Hc & Ha).
  destruct (Ascii.eqb c "/"); [discriminate|]. now rewrite (IH Ha).
Qed.

(** X23.  [parseModel] takes a model reference apart again: for a
    provider and a model name that are not empty and hold no slash,
    parsing [provider/name] returns the two; and a string without a slash
    is rejected. *)
Theorem parseModel_round_trip (provider name : string) :
  provider <> EmptyString -> name <> EmptyString ->
  no_slash provider = true -> no_slash name = true ->
  parseModel (provider ++ "/" ++ name)%string
  = Returned (mkModelRef provider name)
  /\ exists m, parseModel provider = Threw m.
Proof.
  intros Hp Hn Hsp Hsn. unfold parseModel. split.
  - change (provider ++ "/" ++ name)%string
      with (provider ++ String "/"%char name)%string.
    rewrite (split_joined provider name Hsp), (split_no_slash name Hsn).
    destruct provider; [congruence|]. destruct name; [congruence|].
    reflexivity.
  - rewrite (split_no_slash provider Hsp). eauto.
Qed.

End Verdict.

Lemma execution_errors_fail_test_witness :
  TestRunner.evaluateResult (TestCase.mk None None None) []
    ["Evaluator error: Session not found: ses_1"] None
  = Returned false.
Proof.
  apply execution_errors_fail_test; [discriminate|].
  intros e H. discriminate.
Defined.

Lemma expected_failure_always_passes_witness :
  TestRunner.evaluateResult
    (TestCase.mk (Some (TestCase.mkExpected (Some false) None None None))
       None None)
    [] ["Test execution failed"] None
  = Returned true.
Proof. apply expected_failure_always_passes; reflexivity. Defined.

Lemma parseModel_round_trip_witness :
  TestRunner.parseModel "opencode/grok-code-fast"
  = Returned (TestRunner.mkModelRef "opencode" "grok-code-fast").
Proof.
  apply (parseModel_round_trip "opencode" "grok-code-fast");
    try discriminate; reflexivity.
Defined.

Lemma passed_test_has_passing_behavior_witness :
  exists behaviorResult,
    find (fun r => String.eqb (EvaluationResult.evaluator r) "behavior")
         (AggregatedResult.evaluatorResults cleanEvaluation)
    = Some behaviorResult
    /\ EvaluationResult.passed behaviorResult = true
    /\ TestRunner.errorViolations (EvaluationResult.violations behaviorResult)
       = [].
Proof.
  eexists. split; [reflexivity|].
  apply (passed_test_has_passing_behavior
           (TestCase.mk None (Some noConstraint) None) [] []
           cleanEvaluation noConstraint);
    reflexivity.
Defined.

Lemma passed_test_met_expected_violations_witness :
  exists actual,
    TestRunner.actualViolations "tool-usage"
      (AggregatedResult.allViolations readMissingEvaluation)
    = Returned actual
    /\ actual <> [].
Proof.
  destruct (passed_test_met_expected_violations
              (TestCase.mk None None
                 (Some [TestCase.mkExpectedViolation "tool-usage"
                          (Some true)]))
              [] [] readMissingEvaluation
              [TestCase.mkExpectedViolation "tool-usage" (Some true)]
              eq_refl eq_refl
              (TestCase.mkExpectedViolation "tool-usage" (Some true))
              (or_introl eq_refl))
    as (actual & Ha & Hyes & _).
  exists actual. split; [exact Ha|]. now apply Hyes.
Defined.

Lemma default_verdict_accounts_for_errors_witness :
  TestRunner.evaluateResult
    (TestCase.mk None None
       (Some [TestCase.mkExpectedViolation "tool-usage" (Some true)]))
    [] [] (Some readMissingEvaluation)
  = Returned true
  /\ forall v,
       In v (AggregatedResult.allViolations readMissingEvaluation) ->
       Violation.severity v = error ->
       expected_by [TestCase.mkExpectedViolation "tool-usage" (Some true)] v.
Proof.
  split; [reflexivity|].
  intros v Hv Hsev.
  destruct (default_verdict_accounts_for_errors
              (TestCase.mk None None
                 (Some [TestCase.mkExpectedViolation "tool-usage"
                          (Some true)]))
              [] [] (Some readMissingEvaluation) eq_refl eq_refl)
    as (_ & H).
  apply (H readMissingEvaluation v eq_refl);
    [apply Nat.ltb_lt; reflexivity | exact Hv | exact Hsev].
Defined.

(* ================================================================== *)
(** * Violations and failed checks *)
(* ================================================================== *)

Section Quiet.

Import BehaviorEvaluator.
Import BaseEvaluator.

Variable base : BaseQueries.

Lemma quiet_nothing : quiet (fun acc => acc).
Proof.
  intros acc. exists [], []. rewrite !app_nil_r. repeat split.
Qed.

Lemma quiet_then (f g : Acc -> Acc) :
  quiet f -> quiet g -> quiet (fun acc => g (f acc)).
Proof.
  intros Hf Hg acc.
  destruct (Hf acc) as (cs1 & vs1 & Hc1 & Hv1 & Hq1).
  destruct (Hg (f acc)) as (cs2 & vs2 & Hc2 & Hv2 & Hq2).
  exists (cs1 ++ cs2), (vs1 ++ vs2).
  rewrite Hc2, Hc1, Hv2, Hv1, !app_assoc.
  split; [reflexivity|]. split; [reflexivity|].
  rewrite forallb_app. intros H. apply andb_true_iff in H.
  destruct H as (H1 & H2). now rewrite (Hq1 H1), (Hq2 H2).
Qed.

Lemma quiet_guarded (passed : bool) (check : Check.t) (ty : string)
    (sev : Severity) (msg : string) (ev : Json) :
  Check.passed check = passed ->
  quiet (fun acc =>
           pushCheck check (unless passed (pushViolation ty sev msg ev) acc)).
Proof.
  intros Hp acc. destruct passed; simpl.
  - exists [check], []. rewrite app_nil_r. repeat split.
  - eexists [check], [_].
    split; [reflexivity|]. split; [reflexivity|].
    simpl. rewrite Hp. discriminate.
Qed.

Lemma quiet_listed (check : Check.t) (offending : nat)
    (report : Acc -> Acc) :
  Check.passed check = (offending =? 0)%nat ->
  (forall acc, exists vs,
      checks (report acc) = checks acc
      /\ violations (report acc) = violations acc ++ vs
      /\ List.length vs = offending) ->
  quiet (fun acc => pushCheck check (report acc)).
Proof.
  intros Hp Hrep acc. destruct (Hrep acc) as (vs & Hc & Hv & Hl).
  exists [check], vs. simpl. rewrite Hc, Hv.
  split; [reflexivity|]. split; [reflexivity|].
  rewrite Hp, andb_true_r. intros H.
  destruct vs; [reflexivity|].
  simpl in Hl. subst offending. discriminate.
Qed.

Lemma quiet_runChecks (b : BehaviorExpectation.t)
    (timeline : list TimelineEvent.t) :
  quiet (runChecks base b timeline).
Proof.
  unfold runChecks.
  assert (H1 : quiet (checkMustUseTools b (factsOf base timeline))).
  { unfold checkMustUseTools.
    destruct (BehaviorExpectation.mustUseTools b) as [[|r required]|];
      try apply quiet_nothing.
    apply quiet_listed
      with (offending := List.length
                           (missingRequired (factsOf base timeline)
                              (r :: required)));
      [reflexivity|].
    intros acc.
    destruct (reportMissing_appends (factsOf base timeline) (r :: required)
                acc) as (vs & Hc & Hv & _ & Hl).
    exists vs. tauto. }
  assert (H2 : quiet (checkMustUseAnyOf b (factsOf base timeline))).
  { unfold checkMustUseAnyOf.
    destruct (BehaviorExpectation.mustUseAnyOf b) as [[|r sets]|];
      try apply quiet_nothing.
    now apply quiet_guarded. }
  assert (H3 : quiet (checkMustNotUseTools b (factsOf base timeline))).
  { unfold checkMustNotUseTools.
    destruct (BehaviorExpectation.mustNotUseTools b) as [[|r forbidden]|];
      try apply quiet_nothing.
    apply quiet_listed
      with (offending := List.length
                           (forbiddenUsed (factsOf base timeline)
                              (r :: forbidden)));
      [reflexivity|].
    intros acc.
    destruct (reportForbidden_appends (factsOf base timeline)
                (r :: forbidden) acc) as (vs & Hc & Hv & _ & Hl).
    exists vs. tauto. }
  assert (H4 : quiet (checkMinToolCalls b (factsOf base timeline))).
  { unfold checkMinToolCalls.
    destruct (BehaviorExpectation.minToolCalls b); try apply quiet_nothing.
    now apply quiet_guarded. }
  assert (H5 : quiet (checkMaxToolCalls b (factsOf base timeline))).
  { unfold checkMaxToolCalls.
    destruct (BehaviorExpectation.maxToolCalls b); try apply quiet_nothing.
    now apply quiet_guarded. }
  assert (H6 : quiet (checkRequiresApproval base b timeline)).
  { unfold checkRequiresApproval.
    destruct (BehaviorExpectation.requiresApproval b) as [[|]|];
      try apply quiet_nothing.
    now apply quiet_guarded. }
  assert (H7 : quiet (checkRequiresContext base b timeline)).
  { unfold checkRequiresContext.
    destruct (BehaviorExpectation.requiresContext b) as [[|]|];
      try apply quiet_nothing.
    now apply quiet_guarded. }
  assert (H8 : quiet (checkShouldDelegate base b timeline)).
  { unfold checkShouldDelegate.
    destruct (BehaviorExpectation.shouldDelegate b) as [[|]|];
      try apply quiet_nothing.
    now apply quiet_guarded. }
  apply (quiet_then (fun acc => _) (checkShouldDelegate base b timeline));
    [|exact H8].
  apply (quiet_then (fun acc => _) (checkRequiresContext base b timeline));
    [|exact H7].
  apply (quiet_then (fun acc => _) (checkRequiresApproval base b timeline));
    [|exact H6].
  apply (quiet_then (fun acc => _)
           (checkMaxToolCalls b (factsOf base timeline))); [|exact H5].
  apply (quiet_then (fun acc => _)
           (checkMinToolCalls b (factsOf base timeline))); [|exact H4].
  apply (quiet_then (fun acc => _)
           (checkMustNotUseTools b (factsOf base timeline))); [|exact H3].
  apply (quiet_then (checkMustUseTools b (factsOf base timeline))
           (checkMustUseAnyOf b (factsOf base timeline))); assumption.
Qed.

(** X24.  The declared-behaviour evaluator reports a violation exactly
    when a check fails: the result holds no violation if and only if
    every check of the run passed; in particular a behaviour that declares
    no constraint yields no violation. *)
Theorem violations_exactly_when_check_fails (b : BehaviorExpectation.t)
    (timeline : list TimelineEvent.t) (sessionInfo : SessionInfo.t)
    (now : Clock) :
  let acc := runChecks base b timeline (mkAcc [] [] now) in
  let result := fst (evaluate base b timeline sessionInfo now) in
  (EvaluationResult.violations result = [] <->
     forall c, In c (checks acc) -> Check.passed c = true)
  /\ (declaredChecks b = [] -> EvaluationResult.violations result = []).
Proof.
  intros acc result.
  assert (Hres : EvaluationResult.violations result = violations acc)
    by reflexivity.
  destruct (quiet_runChecks b timeline (mkAcc [] [] now))
    as (cs & vs & Hc & Hv & Hq).
  destruct (runChecks_appends base b timeline (mkAcc [] [] now))
    as (cs' & vs' & Hc' & Hv' & Hn & _ & Hr).
  fold acc in Hc, Hv, Hc', Hv'. simpl in Hc, Hv, Hc', Hv'.
  subst cs vs cs' vs'. rewrite Forall_forall in Hr.
  assert (Hiff : violations acc = [] <->
                 forall c, In c (checks acc) -> Check.passed c = true).
  { split.
    - intros Hnone c Hin.
      destruct (Check.passed c) eqn:E; [reflexivity|].
      destruct (Hr c Hin E) as (v & Hv0 & _).
      rewrite Hnone in Hv0. destruct Hv0.
    - intros H. apply Hq. now apply forallb_forall. }
  rewrite Hres. split; [exact Hiff|].
  intros Hd. apply Hiff. intros c Hin.
  rewrite Hd in Hn. destruct (checks acc); [destruct Hin|discriminate].
Qed.

End Quiet.

(* ================================================================== *)
(** * Sessions that are on disk only *)
(* ================================================================== *)

Section DiskOnly.

Import EvaluatorRunner.

(** X25.  Messages come from the SDK client alone: for a reader without
    SDK client the timeline of every session is empty, so a session that
    is found on disk is evaluated on an empty timeline; a runner with the
    declared-behaviour evaluator returns the result of that evaluator on
    no event at all. *)
Theorem disk_only_session_has_empty_timeline (parser : MessageParser)
    (reader : SessionReader.t) (base : BaseQueries)
    (b : BehaviorExpectation.t) (sessionId : string)
    (info : SessionInfo.t) (now : Clock) :
  SessionReader.sdkClient reader = None ->
  SessionReader.findSessionFile reader sessionId = Parsed info ->
  buildTimeline parser reader sessionId = []
  /\ exists aggregated now',
       runAll (register (EvaluatorRunner.mk [] reader parser)
                        (behaviorEvaluator base b))
              sessionId now
       = (Returned aggregated, now')
       /\ AggregatedResult.sessionInfo aggregated = info
       /\ AggregatedResult.evaluatorResults aggregated
          = [fst (BehaviorEvaluator.evaluate base b [] info now)].
Proof.
  intros Hsdk Hdisk.
  assert (Ht : buildTimeline parser reader sessionId = []).
  { unfold buildTimeline, SessionReader.getMessagesWithParts.
    now rewrite Hsdk. }
  split; [exact Ht|].
  unfold runAll, runEvaluators, register. simpl.
  unfold SessionReader.getSessionInfo. rewrite Hsdk, Hdisk, Ht. simpl.
  destruct (BehaviorEvaluator.evaluate base b [] info now)
    as [result now1] eqn:E.
  simpl. eexists. eexists. repeat split.
Qed.

End DiskOnly.

Lemma disk_only_session_has_empty_timeline_witness :
  buildTimeline plainParser diskReader "ses_1" = []
  /\ exists aggregated now',
       EvaluatorRunner.runAll
         (EvaluatorRunner.register
            (EvaluatorRunner.mk [] diskReader plainParser)
            (EvaluatorRunner.behaviorEvaluator plainQueries mustRead))
         "ses_1" (clockFrom 5000)
       = (Returned aggregated, now')
       /\ AggregatedResult.sessionInfo aggregated = sessionOne
       /\ AggregatedResult.evaluatorResults aggregated
          = [fst (BehaviorEvaluator.evaluate plainQueries mustRead []
                    sessionOne (clockFrom 5000))].
Proof.
  apply (disk_only_session_has_empty_timeline plainParser diskReader
           plainQueries mustRead "ses_1" sessionOne (clockFrom 5000));
    reflexivity.
Defined.
